(** * CortexM storage libraries: page cache and persistent storage

    A shallow embedding of [Libs/PageCacheClass.hpp] and
    [Libs/PersistentStorage.hpp], and of the parts of [Services/IService.h],
    [Services/IService.cpp], [Services/Timer.cpp] and [pin.h] that call no
    callback and touch no peripheral.

    Conventions of the embedding.
    - The template parameters [ADDRESS_TYPE], [LENGTH_TYPE] and [CRC_TYPE]
      are instantiated at [uint32_t], the word of the Cortex-M targets, and
      [unsigned int] is 32 bits wide there.  Such values are integers of [Z]
      in the range [0, 2^32); every C++ operation that can leave the range is
      followed by [wrap].
    - Buffers are lists of bytes; a pointer into a buffer is the list from
      that position on.
    - The pure virtual members ([Read], [Write], [Compare], [CalculateCRC])
      are the interface of a backing device: they are the operations of a
      type class over an abstract device state.
    - A member function that mutates the object is a computation of a small
      state monad. *)

From Stdlib Require Import ZArith Lia.
From Stdlib Require Import Init.Byte Strings.Byte.
From stdpp Require Import base numbers list.

Local Open Scope Z_scope.

(** ** Machine words *)

Definition wrap (z : Z) : Z := z mod 2 ^ 32.

(** ** Byte buffers *)

#[global] Instance byte_eq_decision : EqDecision byte := Byte.byte_eq_dec.

(** [sub_bytes l off n]: the [n] bytes of [l] that start at index [off]. *)
Definition sub_bytes (l : list byte) (off n : Z) : list byte :=
  take (Z.to_nat n) (drop (Z.to_nat off) l).

(** [memcpy buf off src n]: [buf] after [memcpy(&buf[off], src, n)]. *)
Definition memcpy (buf : list byte) (off : Z) (src : list byte) (n : Z) : list byte :=
  let chunk := take (Z.to_nat n) src in
  take (Z.to_nat off) buf ++ chunk ++ drop (Z.to_nat off + length chunk)%nat buf.

(** The byte at index [i], [x00] past the end. *)
Definition byte_at (l : list byte) (i : Z) : byte :=
  nth (Z.to_nat i) l x00.

(** ** A state monad for member functions *)

Definition M (S A : Type) : Type := S -> A * S.

Definition ret {S A : Type} (a : A) : M S A := fun s => (a, s).

Definition bind {S A B : Type} (m : M S A) (k : A -> M S B) : M S B :=
  fun s => let (a, s') := m s in k a s'.

Notation "'let*' x ':=' m 'in' k" := (bind m (fun x => k))
  (at level 10, x name, m at level 100, k at level 200, only parsing).

(** * PageCacheClass *)

Module PageCacheClass.

Inductive StatusEnum : Type := Empty | HasData | Dirty.

#[global] Instance StatusEnum_eq_dec : EqDecision StatusEnum.
Proof. solve_decision. Defined.

(** The backing device behind the pure virtual [Write] and [Read].
    [Write buffer address len] returns the success flag and the new device
    state; [Read address len] returns the success flag, the bytes it stored
    into the caller's buffer, and the new device state. *)
Class Backing (Dev : Type) : Type := {
  Write : list byte -> Z -> Z -> Dev -> bool * Dev;
  Read : Z -> Z -> Dev -> bool * list byte * Dev
}.

Section Cache.

Context {Dev : Type} `{Backing Dev}.

(** Template parameter [PAGE_SIZE]. *)
Variable PAGE_SIZE : Z.

(** [PreFlushCallbackType]: a function pointer [void (const void *buffer,
    unsigned int len, ADDRESS_TYPE address, void *arg)].  The callee is code
    of the caller; it sees its four arguments positionally and may act on the
    device. *)
Definition PreFlushCallbackType : Type := list byte -> Z -> Z -> Z -> Dev -> Dev.

Record PreFlushCallbackStruct : Type := {
  Callback : option PreFlushCallbackType;
  arg : Z
}.

(** What the object did to the outside, in order. *)
Inductive Event : Type :=
| EvWrite (buffer : list byte) (address len : Z)
| EvRead (address len : Z)
| EvCallback (a1 : list byte) (a2 a3 a4 : Z).

(** The data members of the object. *)
Record Cache : Type := {
  m_Address : Z;
  m_Status : StatusEnum;
  m_Buffer : list byte
}.

(** The object, the device it is bound to, and the log of its calls out. *)
Record St : Type := {
  cache : Cache;
  dev : Dev;
  log : list Event
}.

(** *** Access to the members *)

Definition get_Status : M St StatusEnum := fun s => (m_Status (cache s), s).
Definition get_Address : M St Z := fun s => (m_Address (cache s), s).
Definition get_Buffer : M St (list byte) := fun s => (m_Buffer (cache s), s).

Definition set_Status (st : StatusEnum) : M St unit := fun s =>
  (tt, {| cache := {| m_Address := m_Address (cache s); m_Status := st;
                      m_Buffer := m_Buffer (cache s) |};
          dev := dev s; log := log s |}).

Definition set_Address (a : Z) : M St unit := fun s =>
  (tt, {| cache := {| m_Address := a; m_Status := m_Status (cache s);
                      m_Buffer := m_Buffer (cache s) |};
          dev := dev s; log := log s |}).

Definition set_Buffer (b : list byte) : M St unit := fun s =>
  (tt, {| cache := {| m_Address := m_Address (cache s); m_Status := m_Status (cache s);
                      m_Buffer := b |};
          dev := dev s; log := log s |}).

(** *** Calls out of the object *)

(** A call of the virtual [Write(buffer, address, len)]. *)
Definition call_Write (buffer : list byte) (address len : Z) : M St bool := fun s =>
  let (ok, d) := Write buffer address len (dev s) in
  (ok, {| cache := cache s; dev := d; log := log s ++ [EvWrite buffer address len] |}).

(** A call of the virtual [Read(buffer, address, len)]; the bytes go to the
    caller. *)
Definition call_Read (address len : Z) : M St (bool * list byte) := fun s =>
  let '(ok, bytes, d) := Read address len (dev s) in
  ((ok, bytes), {| cache := cache s; dev := d; log := log s ++ [EvRead address len] |}).

(** [Read(&m_Buffer[off], address, len)]: the bytes go into the cache
    buffer. *)
Definition Read_to_Buffer (off address len : Z) : M St bool :=
  let* r := call_Read address len in
  let* b := get_Buffer in
  let* _ := set_Buffer (memcpy b off (snd r) len) in
  ret (fst r).

(** [callback->Callback(a1, a2, a3, a4)]. *)
Definition call_Callback (f : PreFlushCallbackType) (a1 : list byte) (a2 a3 a4 : Z)
  : M St unit := fun s =>
  (tt, {| cache := cache s; dev := f a1 a2 a3 a4 (dev s);
          log := log s ++ [EvCallback a1 a2 a3 a4] |}).

(** *** The member functions *)

(** [address & ~((ADDRESS_TYPE)PAGE_SIZE-1)] *)
Definition page_start (address : Z) : Z :=
  Z.land address (wrap (Z.lnot (wrap (wrap PAGE_SIZE - 1)))).

Definition isInCache_of (c : Cache) (address : Z) : bool :=
  bool_decide (m_Status c <> Empty) && (m_Address c =? page_start address).

Definition isInCache (address : Z) : M St bool := fun s =>
  (isInCache_of (cache s) address, s).

Definition getStatus : M St StatusEnum := get_Status.

Definition getAddress : M St Z := get_Address.

Definition Clear : M St unit := set_Status Empty.

Definition Flush (callback : option PreFlushCallbackStruct) : M St bool :=
  let* st := get_Status in
  if bool_decide (st = Dirty) then
    let* buf := get_Buffer in
    let* a := get_Address in
    let* _ := match callback with
              | Some {| Callback := Some f; arg := x |} =>
                  call_Callback f buf a PAGE_SIZE x
              | _ => ret tt
              end in
    let* buf := get_Buffer in
    let* a := get_Address in
    let* ok := call_Write buf a PAGE_SIZE in
    if negb ok then ret false
    else let* _ := Clear in ret true
  else ret true.

Definition setAddress (address : Z) (callback : option PreFlushCallbackStruct) : M St bool :=
  let* st := get_Status in
  let* inc := isInCache address in
  let* ok := (if bool_decide (st = Dirty) && negb inc then Flush callback else ret true) in
  if negb ok then ret false
  else let* _ := set_Address (page_start address) in ret true.

(** One pass through the body of the [do ... while] of [SetData]: either the
    function returns ([inl]), or the pass ends with new values of
    [(data, address, len)] ([inr]). *)
Definition SetData_body (callback : option PreFlushCallbackStruct)
    (data : list byte) (address len : Z) : M St (bool + list byte * Z * Z) :=
  if (address mod PAGE_SIZE =? 0) && (PAGE_SIZE <=? len) then
    let* ok := call_Write (take (Z.to_nat PAGE_SIZE) data) address PAGE_SIZE in
    if negb ok then ret (inl false)
    else ret (inr (drop (Z.to_nat PAGE_SIZE) data,
                   wrap (address + PAGE_SIZE), len - PAGE_SIZE))
  else
    let* ok := setAddress address callback in
    if negb ok then ret (inl false) else
    let* st := get_Status in
    let* a := get_Address in
    let* ok := (if bool_decide (st = Empty) && negb (a =? address)
           then Read_to_Buffer 0 a (address mod PAGE_SIZE) else ret true) in
    if negb ok then ret (inl false) else
    let restPageSize := PAGE_SIZE - address mod PAGE_SIZE in
    let pageDataLen := Z.min restPageSize len in
    let* b := get_Buffer in
    let* _ := set_Buffer (memcpy b (address mod PAGE_SIZE) data pageDataLen) in
    let* st := get_Status in
    let* a := get_Address in
    let* ok := (if bool_decide (st = Empty) && (pageDataLen <? restPageSize)
           then Read_to_Buffer (address mod PAGE_SIZE + pageDataLen)
                  (wrap (wrap (a + address mod PAGE_SIZE) + pageDataLen))
                  (restPageSize - pageDataLen)
           else ret true) in
    if negb ok then ret (inl false) else
    let* _ := set_Status Dirty in
    ret (inr (drop (Z.to_nat pageDataLen) data,
              wrap (address + pageDataLen), len - pageDataLen)).

(** The loop, with the number of passes bounded by [fuel]; [None] when the
    bound is reached. *)
Fixpoint SetData_loop (fuel : nat) (callback : option PreFlushCallbackStruct)
    (data : list byte) (address len : Z) : M St (option bool) :=
  match fuel with
  | O => ret None
  | S fuel' =>
      let* r := SetData_body callback data address len in
      match r with
      | inl b => ret (Some b)
      | inr (data', address', len') =>
          if 0 <? len' then SetData_loop fuel' callback data' address' len'
          else ret (Some true)
      end
  end.

(** Every pass that goes on consumes at least one byte of [len]. *)
Definition SetData (data : list byte) (address len : Z)
    (callback : option PreFlushCallbackStruct) : M St (option bool) :=
  SetData_loop (S (Z.to_nat len)) callback data address len.

(** One pass through the body of the loop of [GetData]: the bytes stored at
    [data], or [None] for [return false]. *)
Definition GetData_body (address len : Z) : M St (option (list byte)) :=
  let restPageSize := PAGE_SIZE - address mod PAGE_SIZE in
  let pageDataLen := Z.min restPageSize len in
  let* inc := isInCache address in
  if inc then
    let* b := get_Buffer in
    ret (Some (sub_bytes b (address mod PAGE_SIZE) pageDataLen))
  else
    let* r := call_Read address pageDataLen in
    if negb (fst r) then ret None else ret (Some (snd r)).

(** [GetData] returns its flag and the bytes it stored at [data] so far. *)
Fixpoint GetData_loop (fuel : nat) (address len : Z) : M St (option (bool * list byte)) :=
  match fuel with
  | O => ret None
  | S fuel' =>
      let restPageSize := PAGE_SIZE - address mod PAGE_SIZE in
      let pageDataLen := Z.min restPageSize len in
      let* r := GetData_body address len in
      match r with
      | None => ret (Some (false, []))
      | Some seg =>
          if 0 <? len - pageDataLen then
            let* r' := GetData_loop fuel' (wrap (address + pageDataLen)) (len - pageDataLen) in
            match r' with
            | None => ret None
            | Some (ok, rest) => ret (Some (ok, seg ++ rest))
            end
          else ret (Some (true, seg))
      end
  end.

Definition GetData (address len : Z) : M St (option (bool * list byte)) :=
  GetData_loop (S (Z.to_nat len)) address len.

(** *** What a pass of [Flush] hands to the device *)

(** The device as the pre-flush callback, when there is one, leaves it. *)
Definition pre_flush_dev (callback : option PreFlushCallbackStruct) (s : St) : Dev :=
  match callback with
  | Some {| Callback := Some f; arg := x |} =>
      f (m_Buffer (cache s)) (m_Address (cache s)) PAGE_SIZE x (dev s)
  | _ => dev s
  end.

Definition is_EvCallback (e : Event) : bool :=
  match e with EvCallback _ _ _ _ => true | _ => false end.

Definition is_EvRead (e : Event) : Prop :=
  match e with EvRead _ _ => True | _ => False end.

(** *** Sequences of calls *)

(** A call of a public member function, and what it returns. *)
Inductive Request : Type :=
| ReqSetData (data : list byte) (address len : Z)
    (callback : option PreFlushCallbackStruct)
| ReqGetData (address len : Z)
| ReqFlush (callback : option PreFlushCallbackStruct)
| ReqClear.

Inductive Reply : Type :=
| RepSetData (r : option bool)
| RepGetData (r : option (bool * list byte))
| RepFlush (r : bool)
| RepClear.

Definition serve (q : Request) : M St Reply :=
  match q with
  | ReqSetData data address len callback =>
      let* r := SetData data address len callback in ret (RepSetData r)
  | ReqGetData address len =>
      let* r := GetData address len in ret (RepGetData r)
  | ReqFlush callback =>
      let* r := Flush callback in ret (RepFlush r)
  | ReqClear =>
      let* _ := Clear in ret RepClear
  end.

Fixpoint serve_all (qs : list Request) : M St (list Reply) :=
  match qs with
  | [] => ret []
  | q :: qs' =>
      let* r := serve q in
      let* rs := serve_all qs' in
      ret (r :: rs)
  end.

(** The arguments of a call are those of the types of the parameters, and
    [data] points to [len] bytes at least. *)
Definition Request_ok (q : Request) : Prop :=
  match q with
  | ReqSetData data address len _ =>
      0 <= address < 2 ^ 32 /\ 0 <= len /\ (Z.to_nat len <= length data)%nat
  | _ => True
  end.

(** Two objects on the same device, with the same calls behind them, that
    are the same but for the address and the bytes of an empty buffer. *)
Definition same_but_discarded (s1 s2 : St) : Prop :=
  dev s1 = dev s2 /\ log s1 = log s2 /\
  (cache s1 = cache s2 \/
   (m_Status (cache s1) = Empty /\ m_Status (cache s2) = Empty /\
    length (m_Buffer (cache s1)) = Z.to_nat PAGE_SIZE /\
    length (m_Buffer (cache s2)) = Z.to_nat PAGE_SIZE)).

End Cache.

(** ** Two devices to run the cache on *)

(** A byte memory that never fails. *)
Definition Ram : Type := Z -> byte.

Definition ram_read (m : Ram) (address len : Z) : list byte :=
  map m (seqZ address len).

Definition ram_write (m : Ram) (buffer : list byte) (address len : Z) : Ram :=
  fun x => if (address <=? x) && (x <? address + len)
           then byte_at buffer (x - address) else m x.

#[global] Instance Ram_Backing : Backing Ram := {|
  Write buffer address len m := (true, ram_write m buffer address len);
  Read address len m := (true, ram_read m address len, m)
|}.

(** ** The cache over a byte memory *)

(** A device that is a memory of bytes: [peek d x] is the byte it holds at
    address [x]; [Read] returns the bytes held and [Write] stores the bytes
    given, and neither fails. *)
Class ByteMemory (Dev : Type) `{Backing Dev} : Type := {
  peek : Dev -> Z -> byte;
  Read_peek : forall (address len : Z) (d : Dev),
    Read address len d = (true, map (peek d) (seqZ address len), d);
  Write_ok : forall (buffer : list byte) (address len : Z) (d : Dev),
    fst (Write buffer address len d) = true;
  Write_peek : forall (buffer : list byte) (address len : Z) (d : Dev) (x : Z),
    peek (snd (Write buffer address len d)) x =
      if (address <=? x) && (x <? address + len)
      then byte_at buffer (x - address) else peek d x
}.

#[global] Instance Ram_ByteMemory : ByteMemory Ram := {|
  peek m := m;
  Read_peek address len m := eq_refl;
  Write_ok buffer address len m := eq_refl;
  Write_peek buffer address len m x := eq_refl
|}.

Section View.

Context {Dev : Type} `{ByteMemory Dev}.

Variable PAGE_SIZE : Z.

(** The byte that a read through the cache finds at address [x]: the one in
    the buffer when the page of [x] is resident, the one of the device
    otherwise. *)
Definition view (c : Cache) (d : Dev) (x : Z) : byte :=
  if isInCache_of PAGE_SIZE c x then byte_at (m_Buffer c) (x mod PAGE_SIZE)
  else peek d x.

(** The objects that the member functions produce from a new one: a buffer
    of [PAGE_SIZE] bytes, a status that is [Empty] or [Dirty], and the start
    of a page as the address of a dirty slot. *)
Definition cache_wf (c : Cache) : Prop :=
  length (m_Buffer c) = Z.to_nat PAGE_SIZE /\
  m_Status c <> HasData /\
  (m_Status c = Dirty ->
   0 <= m_Address c < 2 ^ 32 /\ m_Address c mod PAGE_SIZE = 0).

(** The request [(address, len)] does not write the resident page as a whole
    page past the buffer: the slot is empty, or the request starts inside a
    page, or the resident page is none of the whole pages of the request. *)
Definition off_resident_page (c : Cache) (address len : Z) : Prop :=
  m_Status c = Empty \/ address mod PAGE_SIZE <> 0 \/
  m_Address c < address \/ address + len < m_Address c + PAGE_SIZE.

(** Coherence of a write and the reads that follow it, as the
    specification words it: when [SetData(data, address, len)] has returned
    [true], [GetData] over the range of the request returns [data], and
    [GetData] of a byte outside the range, in a page that the request
    touches, returns the byte that the device held before the write. *)
Definition write_read_coherence (s : @St Dev) (data : list byte) (address len : Z) : Prop :=
  let r := SetData PAGE_SIZE data address len None s in
  fst r = Some true ->
  fst (GetData PAGE_SIZE address len (snd r)) = Some (true, data) /\
  forall x y : Z,
    0 <= x < 2 ^ 32 ->
    address <= y < address + len -> page_start PAGE_SIZE y = page_start PAGE_SIZE x ->
    ~ (address <= x < address + len) ->
    fst (GetData PAGE_SIZE x 1 (snd r)) = Some (true, [peek (dev s) x]).

End View.

(** A memory of zeroes, and an object as its constructor leaves it over
    that memory, with pages of four bytes: the status [Empty], and whatever
    address and buffer. *)
Definition ram_zero : Ram := fun _ => x00.

Definition power_on : @St Ram :=
  {| cache := {| m_Address := 0; m_Status := Empty; m_Buffer := [x00; x00; x00; x00] |};
     dev := ram_zero; log := [] |}.

(** That object after [SetData(data, 1, 1)] on the byte [07]: page 0
    resident and dirty. *)
Definition one_byte_written : @St Ram :=
  snd (SetData 4 [x07] 1 1 None power_on).

(** A device on which every access fails. *)
Inductive Broken : Type := broken.

#[global] Instance Broken_Backing : Backing Broken := {|
  Write _ _ _ d := (false, d);
  Read _ _ d := (false, [], d)
|}.

End PageCacheClass.

(** * PersistentStorage *)

(** ** UUID.hpp: sixteen bytes *)

Definition UUID : Type := list byte.

Definition sizeof_UUID : Z := 16.

(** ** Fields read from the device *)

Definition Z_of_byte (b : byte) : Z := Z.of_N (Byte.to_N b).

(** The value of a little-endian field (the Cortex-M byte order). *)
Fixpoint le_decode (bytes : list byte) : Z :=
  match bytes with
  | [] => 0
  | b :: rest => Z_of_byte b + 256 * le_decode rest
  end.

(** A [uint32_t] variable after a read of its four bytes. *)
Definition le_uint32 (bytes : list byte) : Z := le_decode (take 4 bytes).

Module StorageReaderClass.

(** [StorageUUID] *)
Definition StorageUUID : UUID :=
  [xb0; x24; xf2; xdc; x72; xea; x11; xe8; x85; x8e; x2c; xfd; xa1; xe1; xce; xf5].

(** [StorageHeaderStruct<uint32_t, uint32_t>], packed: the offsets of its
    members and its size. *)
Definition offsetof_Uuid : Z := 0.
Definition offsetof_DataUuid : Z := 16.
Definition offsetof_Length : Z := 32.
Definition offsetof_StorageCrc : Z := 36.
Definition sizeof_StorageHeaderStruct : Z := 40.

Inductive StorageCheckEnum : Type :=
  Ok | NoStorage | AnotherStorage | DeviceError | StorageError.

#[global] Instance StorageCheckEnum_eq_dec : EqDecision StorageCheckEnum.
Proof. solve_decision. Defined.

(** The device behind the pure virtual, [const] members.  [Read] returns
    its flag and the bytes it stored into the caller's buffer. *)
Class Device (Dev : Type) : Type := {
  Compare : list byte -> Z -> Z -> Dev -> bool;
  CalculateCRC : Z -> Z -> Dev -> Z;
  Read : Z -> Z -> Dev -> bool * list byte
}.

(** The data member of the object. *)
Record Reader : Type := { m_Address : Z }.

Section Reader.

Context {Dev : Type} `{Device Dev}.

(** The device the object is bound to. *)
Variable d : Dev.

(** [getLength(address, length)]: the flag and the value left in [length]. *)
Definition getLength (address : Z) : bool * Z :=
  let (ok, bytes) := Read (wrap (address + offsetof_Length)) 4 d in
  (ok, le_uint32 bytes).

(** [getCrc(address, crc)] *)
Definition getCrc (address : Z) : bool * Z :=
  let (ok, bytes) := Read (wrap (address + offsetof_StorageCrc)) 4 d in
  (ok, le_uint32 bytes).

Definition IsStorageCorrect (address : Z) (uuid : UUID) : M Reader StorageCheckEnum :=
  if negb (Compare StorageUUID address sizeof_UUID d) then ret NoStorage
  else if negb (Compare uuid (wrap (address + offsetof_DataUuid)) sizeof_UUID d)
  then ret AnotherStorage
  else
    let (ok_len, len) := getLength address in
    if negb ok_len then ret DeviceError else
    let (ok_crc, crc) := getCrc address in
    if negb ok_crc then ret DeviceError else
    if crc =? CalculateCRC (wrap (address + sizeof_StorageHeaderStruct)) len d
    then fun _ => (Ok, {| m_Address := address |})
    else ret StorageError.

(** [GetData(data, len, offset)], a [const] member: the flag and the bytes
    stored at [data]. *)
Definition GetData (this : Reader) (len offset : Z) : bool * list byte :=
  let (ok, dataLength) := getLength (m_Address this) in
  if negb ok then (false, [])
  else if wrap (len + offset) >? dataLength then (false, [])
  else Read (m_Address this) (wrap (len + offset)) d.

(** What the specification says of [GetData]: a failure when [offset + len]
    exceeds the stored [Length], and otherwise the [len] bytes of the payload
    region from [offset] on. *)
Definition GetData_spec (this : Reader) (len offset : Z) : bool * list byte :=
  let (_, dataLength) := getLength (m_Address this) in
  if offset + len >? dataLength then (false, [])
  else (true, snd (Read (m_Address this + sizeof_StorageHeaderStruct + offset) len d)).

End Reader.

(** A device to run the reader on: a memory image from address 0 on.  An
    access past its end fails; the checksum is the sum of the bytes. *)
Definition Image : Type := list byte.

Definition image_in_range (img : Image) (address len : Z) : bool :=
  (0 <=? address) && (0 <=? len) && (address + len <=? Z.of_nat (length img)).

Definition image_sum (bytes : list byte) : Z :=
  wrap (foldr (fun b acc => Z_of_byte b + acc) 0 bytes).

#[global] Instance Image_Device : Device Image := {|
  Compare pattern address len img :=
    image_in_range img address len &&
    bool_decide (sub_bytes img address len = take (Z.to_nat len) pattern);
  CalculateCRC address len img := image_sum (sub_bytes img address len);
  Read address len img :=
    if image_in_range img address len then (true, sub_bytes img address len)
    else (false, [])
|}.

(** A region on an image: [Length] 4, the payload [11 22 33 44] and its
    checksum [aa]. *)
Definition region_uuid : UUID :=
  [x01; x02; x03; x04; x05; x06; x07; x08; x09; x0a; x0b; x0c; x0d; x0e; x0f; x10].

Definition region_image : Image :=
  StorageUUID ++ region_uuid
    ++ [x04; x00; x00; x00] ++ [xaa; x00; x00; x00]
    ++ [x11; x22; x33; x44].

End StorageReaderClass.

Module PageStorageClass.

(** [PageStorageUUID] *)
Definition PageStorageUUID : UUID :=
  [xd2; x3c; x3b; x7a; x75; xf9; x11; xe8; x81; x90; x2c; xfd; xa1; xe1; xce; xf5].

(** [PageHeaderStruct] for [<uint32_t, uint32_t, uint32_t>], packed. *)
Definition offsetof_Uuid : Z := 0.
Definition offsetof_DataUuid : Z := 16.
Definition offsetof_TotalLength : Z := 32.
Definition offsetof_PageOffset : Z := 36.
Definition offsetof_PageLength : Z := 40.
Definition offsetof_PageCrc : Z := 44.
Definition sizeof_PageHeaderStruct : Z := 48.

Inductive PageCheckResultEnum : Type :=
  Ok | NoStorage | AnotherStorage | DeviceError | Error.

#[global] Instance PageCheckResultEnum_eq_dec : EqDecision PageCheckResultEnum.
Proof. solve_decision. Defined.

Record CheckOptions : Type := {
  DontCheckCrc : bool;
  DontCheckMetrics : bool
}.

(** [CheckOptions()], the default argument. *)
Definition CheckOptions_default : CheckOptions :=
  {| DontCheckCrc := false; DontCheckMetrics := false |}.

Record PageHeaderMetricsStruct : Type := {
  TotalLength : Z;
  PageOffset : Z;
  PageLength : Z;
  PageCrc : Z
}.

(** The device behind the pure virtual, [const] members that the check
    calls. *)
Class Device (Dev : Type) : Type := {
  Compare : list byte -> Z -> Z -> Dev -> bool;
  Read : Z -> Z -> Dev -> bool * list byte;
  CalculatePageCRC : Z -> Z -> Dev -> Z
}.

(** The data members of the object. *)
Record PageStorage : Type := {
  m_Uuid : UUID;
  m_Address : Z
}.

Section PageStorage.

Context {Dev : Type} `{Device Dev}.

Variable d : Dev.

(** [getMetrics(metrics, address)]: four reads in the order of the fields,
    given up at the first that fails; [None] for [return false]. *)
Definition getMetrics (address : Z) : option PageHeaderMetricsStruct :=
  let (ok1, b1) := Read (wrap (address + offsetof_TotalLength)) 4 d in
  if negb ok1 then None else
  let (ok2, b2) := Read (wrap (address + offsetof_PageOffset)) 4 d in
  if negb ok2 then None else
  let (ok3, b3) := Read (wrap (address + offsetof_PageLength)) 4 d in
  if negb ok3 then None else
  let (ok4, b4) := Read (wrap (address + offsetof_PageCrc)) 4 d in
  if negb ok4 then None else
  Some {| TotalLength := le_uint32 b1; PageOffset := le_uint32 b2;
          PageLength := le_uint32 b3; PageCrc := le_uint32 b4 |}.

(** [pageLen - sizeof(PageHeaderStruct)], in [LENGTH_TYPE]. *)
Definition getMaxPageLength (pageLen : Z) : Z :=
  wrap (pageLen - sizeof_PageHeaderStruct).

(** The three bounds on the metrics of a page that the check tests. *)
Definition metrics_in_bounds (metrics : PageHeaderMetricsStruct) (pageLen : Z) : Prop :=
  PageLength metrics <= getMaxPageLength pageLen /\
  PageLength metrics <= TotalLength metrics /\
  PageOffset metrics <= TotalLength metrics.

Definition isPageCorrect (address pageLen : Z) (options : CheckOptions)
  : M PageStorage PageCheckResultEnum := fun this =>
  if negb (Compare PageStorageUUID address sizeof_UUID d) then (NoStorage, this)
  else if negb (Compare (m_Uuid this) (wrap (address + offsetof_DataUuid)) sizeof_UUID d)
  then (AnotherStorage, this)
  else
    let accept := (Ok, {| m_Uuid := m_Uuid this; m_Address := address |}) in
    if negb (DontCheckMetrics options) then
      match getMetrics address with
      | None => (DeviceError, this)
      | Some metrics =>
          if (PageLength metrics >? getMaxPageLength pageLen)
             || (PageLength metrics >? TotalLength metrics)
             || (PageOffset metrics >? TotalLength metrics)
          then (Error, this)
          else if negb (DontCheckCrc options)
                  && negb (PageCrc metrics =?
                           CalculatePageCRC (wrap (address + sizeof_PageHeaderStruct))
                                            (PageLength metrics) d)
          then (Error, this)
          else accept
      end
    else accept.

End PageStorage.

#[global] Instance Image_Device : Device StorageReaderClass.Image := {|
  Compare := StorageReaderClass.Compare;
  Read := StorageReaderClass.Read;
  CalculatePageCRC := StorageReaderClass.CalculateCRC
|}.

(** A page on an image: [TotalLength] 4, [PageOffset] 0, [PageLength] 4,
    the payload [11 22 33 44] and its checksum [aa]. *)
Definition page_image : StorageReaderClass.Image :=
  PageStorageUUID ++ StorageReaderClass.region_uuid
    ++ [x04; x00; x00; x00] ++ [x00; x00; x00; x00] ++ [x04; x00; x00; x00]
    ++ [xaa; x00; x00; x00]
    ++ [x11; x22; x33; x44].

(** The same page with a [PageLength] of 5, above its [TotalLength]. *)
Definition page_image_long : StorageReaderClass.Image :=
  PageStorageUUID ++ StorageReaderClass.region_uuid
    ++ [x04; x00; x00; x00] ++ [x00; x00; x00; x00] ++ [x05; x00; x00; x00]
    ++ [xaa; x00; x00; x00]
    ++ [x11; x22; x33; x44].

End PageStorageClass.

(** ** Fields written to the device *)

Definition byte_of_Z (z : Z) : byte :=
  default x00 (Byte.of_N (Z.to_N (z mod 256))).

(** The [n] bytes of a little-endian variable that holds [v]. *)
Fixpoint le_encode (n : nat) (v : Z) : list byte :=
  match n with
  | O => []
  | S n' => byte_of_Z v :: le_encode n' (v / 256)
  end.

(** * StorageWriterClass *)

Module StorageWriterClass.

(** The device behind the pure virtual [Write(data, len, address)]: the
    flag and the new device state. *)
Class Device (Dev : Type) : Type := {
  Write : list byte -> Z -> Z -> Dev -> bool * Dev
}.

(** The data members of the object. *)
Record Writer : Type := {
  m_Address : Z;
  m_Uuid : UUID
}.

(** A call of [Write]: what [data] points to, [len] and [address]. *)
Record WriteCall : Type := {
  call_data : list byte;
  call_len : Z;
  call_address : Z
}.

Section Writer.

Context {Dev : Type} `{Device Dev}.

(** The device and the calls of [Write] so far. *)
Record St : Type := {
  dev : Dev;
  log : list WriteCall
}.

Definition call_Write (data : list byte) (len address : Z) : M St bool := fun s =>
  let (ok, d) := Write data len address (dev s) in
  (ok, {| dev := d;
          log := log s ++ [{| call_data := data; call_len := len;
                              call_address := address |}] |}).

(** [SetData(data, len, crc)], a [const] member. *)
Definition SetData (this : Writer) (data : list byte) (len crc : Z) : M St bool :=
  let* ok := call_Write StorageReaderClass.StorageUUID sizeof_UUID (m_Address this) in
  if negb ok then ret false else
  let* ok := call_Write (m_Uuid this) sizeof_UUID
               (wrap (m_Address this + StorageReaderClass.offsetof_DataUuid)) in
  if negb ok then ret false else
  let* ok := call_Write (le_encode 4 len) 4
               (wrap (m_Address this + StorageReaderClass.offsetof_Length)) in
  if negb ok then ret false else
  let* ok := call_Write (le_encode 4 crc) 4
               (wrap (m_Address this + StorageReaderClass.offsetof_StorageCrc)) in
  if negb ok then ret false else
  let* ok := call_Write data len
               (wrap (m_Address this + StorageReaderClass.sizeof_StorageHeaderStruct)) in
  if negb ok then ret false else
  ret true.

(** The five calls of a [SetData] that goes through, in their order. *)
Definition SetData_calls (this : Writer) (data : list byte) (len crc : Z) : list WriteCall :=
  [ {| call_data := StorageReaderClass.StorageUUID; call_len := sizeof_UUID;
       call_address := m_Address this |};
    {| call_data := m_Uuid this; call_len := sizeof_UUID;
       call_address := wrap (m_Address this + StorageReaderClass.offsetof_DataUuid) |};
    {| call_data := le_encode 4 len; call_len := 4;
       call_address := wrap (m_Address this + StorageReaderClass.offsetof_Length) |};
    {| call_data := le_encode 4 crc; call_len := 4;
       call_address := wrap (m_Address this + StorageReaderClass.offsetof_StorageCrc) |};
    {| call_data := data; call_len := len;
       call_address :=
         wrap (m_Address this + StorageReaderClass.sizeof_StorageHeaderStruct) |} ].

End Writer.

(** A device that is a memory of bytes, for the reader and the writer of one
    region: [peek d x] is the byte at address [x]; nothing fails; [Compare]
    and [CalculateCRC] look at the bytes held, the latter through a checksum
    [crc_of] of its own. *)
Class Memory (Dev : Type) `{StorageReaderClass.Device Dev} `{Device Dev} : Type := {
  peek : Dev -> Z -> byte;
  crc_of : list byte -> Z;
  Read_peek : forall (address len : Z) (d : Dev),
    StorageReaderClass.Read address len d = (true, map (peek d) (seqZ address len));
  Compare_peek : forall (pattern : list byte) (address len : Z) (d : Dev),
    StorageReaderClass.Compare pattern address len d =
      bool_decide (map (peek d) (seqZ address len) = take (Z.to_nat len) pattern);
  CalculateCRC_peek : forall (address len : Z) (d : Dev),
    StorageReaderClass.CalculateCRC address len d =
      crc_of (map (peek d) (seqZ address len));
  Write_ok : forall (data : list byte) (len address : Z) (d : Dev),
    fst (Write data len address d) = true;
  Write_peek : forall (data : list byte) (len address : Z) (d : Dev) (x : Z),
    peek (snd (Write data len address d)) x =
      if (address <=? x) && (x <? address + len)
      then byte_at data (x - address) else peek d x
}.

(** A memory to run reader and writer on; its checksum is the sum of the
    bytes. *)
Definition Flash : Type := Z -> byte.

#[global] Instance Flash_Reader : StorageReaderClass.Device Flash := {|
  StorageReaderClass.Compare pattern address len m :=
    bool_decide (map m (seqZ address len) = take (Z.to_nat len) pattern);
  StorageReaderClass.CalculateCRC address len m :=
    StorageReaderClass.image_sum (map m (seqZ address len));
  StorageReaderClass.Read address len m := (true, map m (seqZ address len))
|}.

#[global] Instance Flash_Writer : Device Flash := {|
  Write data len address m :=
    (true, fun x => if (address <=? x) && (x <? address + len)
                    then byte_at data (x - address) else m x)
|}.

#[global] Instance Flash_Memory : Memory Flash := {|
  peek m := m;
  crc_of := StorageReaderClass.image_sum;
  Read_peek address len m := eq_refl;
  Compare_peek pattern address len m := eq_refl;
  CalculateCRC_peek address len m := eq_refl;
  Write_ok data len address m := eq_refl;
  Write_peek data len address m x := eq_refl
|}.

Definition flash_zero : Flash := fun _ => x00.

End StorageWriterClass.

(** * PageStorageClass: the header writer *)

Module PageStorageHeader.

(** The device behind the pure virtual [WritePage(data, address, len)]. *)
Class Device (Dev : Type) : Type := {
  WritePage : list byte -> Z -> Z -> Dev -> bool * Dev
}.

(** A call of [WritePage]. *)
Record WriteCall : Type := {
  call_data : list byte;
  call_address : Z;
  call_len : Z
}.

Section Header.

Context {Dev : Type} `{Device Dev}.

Record St : Type := {
  dev : Dev;
  log : list WriteCall
}.

Definition call_WritePage (data : list byte) (address len : Z) : M St bool := fun s =>
  let (ok, d) := WritePage data address len (dev s) in
  (ok, {| dev := d;
          log := log s ++ [{| call_data := data; call_address := address;
                              call_len := len |}] |}).

(** [SetHeader(metrics)], a [const] member of [PageStorageClass]. *)
Definition SetHeader (this : PageStorageClass.PageStorage)
    (metrics : PageStorageClass.PageHeaderMetricsStruct) : M St bool :=
  let a := PageStorageClass.m_Address this in
  let* ok := call_WritePage PageStorageClass.PageStorageUUID a sizeof_UUID in
  if negb ok then ret false else
  let* ok := call_WritePage (PageStorageClass.m_Uuid this)
               (wrap (a + PageStorageClass.offsetof_DataUuid)) sizeof_UUID in
  if negb ok then ret false else
  let* ok := call_WritePage (le_encode 4 (PageStorageClass.TotalLength metrics))
               (wrap (a + PageStorageClass.offsetof_TotalLength)) 4 in
  if negb ok then ret false else
  let* ok := call_WritePage (le_encode 4 (PageStorageClass.PageOffset metrics))
               (wrap (a + PageStorageClass.offsetof_PageOffset)) 4 in
  if negb ok then ret false else
  let* ok := call_WritePage (le_encode 4 (PageStorageClass.PageLength metrics))
               (wrap (a + PageStorageClass.offsetof_PageLength)) 4 in
  if negb ok then ret false else
  let* ok := call_WritePage (le_encode 4 (PageStorageClass.PageCrc metrics))
               (wrap (a + PageStorageClass.offsetof_PageCrc)) 4 in
  if negb ok then ret false else
  ret true.


End Header.

(** A memory of bytes for the page check and the header writer. *)
Class Memory (Dev : Type) `{PageStorageClass.Device Dev} `{Device Dev} : Type := {
  peek : Dev -> Z -> byte;
  crc_of : list byte -> Z;
  Read_peek : forall (address len : Z) (d : Dev),
    PageStorageClass.Read address len d = (true, map (peek d) (seqZ address len));
  Compare_peek : forall (pattern : list byte) (address len : Z) (d : Dev),
    PageStorageClass.Compare pattern address len d =
      bool_decide (map (peek d) (seqZ address len) = take (Z.to_nat len) pattern);
  CalculatePageCRC_peek : forall (address len : Z) (d : Dev),
    PageStorageClass.CalculatePageCRC address len d =
      crc_of (map (peek d) (seqZ address len));
  WritePage_ok : forall (data : list byte) (address len : Z) (d : Dev),
    fst (WritePage data address len d) = true;
  WritePage_peek : forall (data : list byte) (address len : Z) (d : Dev) (x : Z),
    peek (snd (WritePage data address len d)) x =
      if (address <=? x) && (x <? address + len)
      then byte_at data (x - address) else peek d x
}.

#[global] Instance Flash_Page : PageStorageClass.Device StorageWriterClass.Flash := {|
  PageStorageClass.Compare pattern address len m :=
    bool_decide (map m (seqZ address len) = take (Z.to_nat len) pattern);
  PageStorageClass.Read address len m := (true, map m (seqZ address len));
  PageStorageClass.CalculatePageCRC address len m :=
    StorageReaderClass.image_sum (map m (seqZ address len))
|}.

#[global] Instance Flash_Header : Device StorageWriterClass.Flash := {|
  WritePage data address len m :=
    (true, fun x => if (address <=? x) && (x <? address + len)
                    then byte_at data (x - address) else m x)
|}.

#[global] Instance Flash_Memory : Memory StorageWriterClass.Flash := {|
  peek m := m;
  crc_of := StorageReaderClass.image_sum;
  Read_peek address len m := eq_refl;
  Compare_peek pattern address len m := eq_refl;
  CalculatePageCRC_peek address len m := eq_refl;
  WritePage_ok data address len m := eq_refl;
  WritePage_peek data address len m x := eq_refl
|}.

(** The metrics in the range of their types. *)
Definition metrics_in_range (metrics : PageStorageClass.PageHeaderMetricsStruct) : Prop :=
  0 <= PageStorageClass.TotalLength metrics < 2 ^ 32 /\
  0 <= PageStorageClass.PageOffset metrics < 2 ^ 32 /\
  0 <= PageStorageClass.PageLength metrics < 2 ^ 32 /\
  0 <= PageStorageClass.PageCrc metrics < 2 ^ 32.

End PageStorageHeader.

(** * Services/IService.h: the state of a service *)

Module ServiceState.

(** [IServiceStateStruct], with [StateType] at [uint32_t]. *)
Record IServiceStateStruct : Type := {
  Enabled : bool;
  State : Z;
  ChangedState : Z;
  LocalChangedState : Z
}.

(** [Clear()] *)
Definition Clear : M IServiceStateStruct unit := fun this =>
  (tt, {| Enabled := Enabled this; State := 0; ChangedState := 0;
          LocalChangedState := 0 |}).

(** [SetState(stateBits, stateMask, force)] *)
Definition SetState (stateBits stateMask : Z) (force : bool)
  : M IServiceStateStruct bool := fun this =>
  if negb (Enabled this) && negb force then (false, this)
  else
    let changed :=
      Z.lor (ChangedState this) (Z.land (Z.lxor (State this) stateBits) stateMask) in
    let cleared := Z.land (State this) (wrap (Z.lnot stateMask)) in
    (true, {| Enabled := Enabled this;
              State := Z.lor cleared stateBits;
              ChangedState := changed;
              LocalChangedState := LocalChangedState this |}).

(** [SetState(setBitsMask, force)], the overload of one mask. *)
Definition SetState_bits (setBitsMask : Z) (force : bool) : M IServiceStateStruct bool :=
  SetState setBitsMask setBitsMask force.

(** [SetLocalState(stateBits, force)] *)
Definition SetLocalState (stateBits : Z) (force : bool) : M IServiceStateStruct bool :=
  fun this =>
  if negb (Enabled this) && negb force then (false, this)
  else (true, {| Enabled := Enabled this; State := State this;
                 ChangedState := ChangedState this;
                 LocalChangedState := Z.lor (LocalChangedState this) stateBits |}).

(** The members are values of [uint32_t]. *)
Definition in_range (this : IServiceStateStruct) : Prop :=
  0 <= State this < 2 ^ 32 /\ 0 <= ChangedState this < 2 ^ 32 /\
  0 <= LocalChangedState this < 2 ^ 32.

End ServiceState.

(** * Services/IService.cpp: the table of services *)

Module Services.

(** An entry of the table of services in ROM.  [Name] is a pointer, and the
    functions below compare it as a pointer; they do not call the four
    callbacks of the entry, which are left out. *)
Record IServiceTableEntryStruct : Type := { Name : Z }.

(** The state with all bytes zero, as [Init] leaves every state. *)
Definition zero_state : ServiceState.IServiceStateStruct :=
  {| ServiceState.Enabled := false; ServiceState.State := 0;
     ServiceState.ChangedState := 0; ServiceState.LocalChangedState := 0 |}.

Section Tables.

(** The table between [_Services_Table_Begin] and [_Services_Table_End]. *)
Variable table : list IServiceTableEntryStruct.

(** The loop of [findIndex], from the entry of index [i] on. *)
Fixpoint findIndex_from (i : Z) (entries : list IServiceTableEntryStruct) (name : Z) : Z :=
  match entries with
  | [] => -1
  | e :: rest => if Name e =? name then i else findIndex_from (i + 1) rest name
  end.

Definition findIndex (name : Z) : Z := findIndex_from 0 table name.

(** The state of index [i] in the table of states that begins at
    [_Services_StatesTable_Begin]: the table in RAM holds one state for each
    entry of the table of services, at the same index. *)
Definition state_at (states : list ServiceState.IServiceStateStruct) (i : Z)
  : ServiceState.IServiceStateStruct :=
  default zero_state (states !! Z.to_nat i).

(** [Init()]: the table of states is filled with zero bytes. *)
Definition Init : M (list ServiceState.IServiceStateStruct) unit := fun states =>
  (tt, map (fun _ => zero_state) states).

Definition isEnabled (name : Z) : M (list ServiceState.IServiceStateStruct) bool :=
  fun states =>
  let i := findIndex name in
  if 0 <=? i then (ServiceState.Enabled (state_at states i), states)
  else (false, states).

(** [State(name)] *)
Definition State (name : Z) : M (list ServiceState.IServiceStateStruct) Z :=
  fun states =>
  let i := findIndex name in
  if i <? 0 then (0, states)
  else (ServiceState.State (state_at states i), states).

(** [SetState(name, stateBits, stateMask)] *)
Definition SetState (name stateBits stateMask : Z)
  : M (list ServiceState.IServiceStateStruct) bool := fun states =>
  let i := findIndex name in
  if i <? 0 then (false, states)
  else
    let (r, st) := ServiceState.SetState stateBits stateMask false (state_at states i) in
    (r, <[Z.to_nat i := st]> states).

(** [SetLocalState(name, stateBits)] *)
Definition SetLocalState (name stateBits : Z)
  : M (list ServiceState.IServiceStateStruct) bool := fun states =>
  let i := findIndex name in
  if i <? 0 then (false, states)
  else
    let (r, st) := ServiceState.SetLocalState stateBits false (state_at states i) in
    (r, <[Z.to_nat i := st]> states).

End Tables.

End Services.

(** * Services/Timer.cpp *)

Module Timer.

Record TimerStateStruct : Type := {
  Interval : Z;
  TimeStamp : Z;
  Enabled : bool
}.

(** [Start(interval, state, restart)], with the value read from [SystemTime];
    [state] is [None] for a null pointer, and the result is what [state]
    points to afterwards. *)
Definition Start (interval : Z) (state : option TimerStateStruct) (restart : bool)
    (SystemTime : Z) : option TimerStateStruct :=
  match state with
  | None => None
  | Some st =>
      if restart || negb (Enabled st)
      then Some {| Interval := interval;
                   TimeStamp := wrap (SystemTime + interval);
                   Enabled := true |}
      else Some st
  end.

(** [Stop(state)] *)
Definition Stop (state : option TimerStateStruct) : option TimerStateStruct :=
  match state with
  | None => None
  | Some st => Some {| Interval := Interval st; TimeStamp := TimeStamp st;
                       Enabled := false |}
  end.

(** [isStarted(state)] *)
Definition isStarted (st : TimerStateStruct) : bool := Enabled st.

(** One pass of the loop of [Tick] over the state of an entry, up to the
    call of its callback: the state it leaves, and whether the callback is
    called.  [SystemTime] is volatile and is read twice, for the test and
    for the new time stamp. *)
Definition Tick_entry (time_tested time_stamped : Z) (st : TimerStateStruct)
  : TimerStateStruct * bool :=
  if Enabled st && (TimeStamp st <=? time_tested)
  then ({| Interval := Interval st;
           TimeStamp := wrap (time_stamped + Interval st);
           Enabled := Enabled st |}, true)
  else (st, false).

End Timer.

(** * pin.h: the codes of the pin configurations *)

Module GPIO.

(** [GPIO_MAKE_PIN_CFG(__MODE_, __OTYPE_, __OSPEED_, __PUPD_)] *)
Definition GPIO_MAKE_PIN_CFG (MODE OTYPE OSPEED PUPD : Z) : Z :=
  Z.lor (Z.lor (Z.lor (Z.shiftl MODE 5) (Z.shiftl OTYPE 4)) (Z.shiftl OSPEED 2)) PUPD.

Definition GPIO_GET_PIN_CFG_MODE (VALUE : Z) : Z := Z.shiftr VALUE 5.
Definition GPIO_GET_PIN_CFG_OTYPE (VALUE : Z) : Z := Z.land (Z.shiftr VALUE 4) 1.
Definition GPIO_GET_PIN_CFG_OSPEED (VALUE : Z) : Z := Z.land (Z.shiftr VALUE 2) 3.
Definition GPIO_GET_PIN_CFG_PUPD (VALUE : Z) : Z := Z.land VALUE 3.
Definition GPIO_IS_ALTERNATE_MODE (VALUE : Z) : bool := GPIO_GET_PIN_CFG_MODE VALUE =? 2.
Definition GPIO_IS_OUTPUT_MODE (VALUE : Z) : bool := GPIO_GET_PIN_CFG_MODE VALUE =? 1.

(** [_GPIO_Set_Pull_State(gpio_base, pin, pupdy)]: the value it writes to
    the register [PUPDR], from the value it has read there. *)
Definition _GPIO_Set_Pull_State (PUPDR pin pupdy : Z) : Z :=
  let buff := PUPDR in
  let buff := Z.land buff (wrap (Z.lnot (wrap (Z.shiftl 3 (pin * 2))))) in
  Z.lor buff (wrap (Z.shiftl pupdy (pin * 2))).

(** The two bits of pin [p] in a register of two bits for each pin. *)
Definition pin_field (reg p : Z) : Z := Z.land (Z.shiftr reg (p * 2)) 3.

End GPIO.

(** * Sequences of page writes *)


(** * Properties of the page cache *)

Section PageCacheProperties.

Import PageCacheClass.

Context {Dev : Type} `{Backing Dev}.

Variable PAGE_SIZE : Z.

Local Abbreviation St := (@St Dev).
Local Abbreviation PreFlushCallbackStruct := (@PreFlushCallbackStruct Dev).

Ltac run_cache :=
  unfold Flush, Clear, setAddress, isInCache, call_Callback, call_Write, call_Read,
    Read_to_Buffer, get_Status, get_Address, get_Buffer, set_Status, set_Address,
    set_Buffer, bind, ret in *; simpl in *.

(** [Flush] on a slot that is not dirty does nothing at all. *)
Lemma Flush_not_Dirty (callback : option PreFlushCallbackStruct) (s : St) :
  m_Status (cache s) <> Dirty ->
  Flush PAGE_SIZE callback s = (true, s).
Proof.
  intros Hst. run_cache.
  rewrite bool_decide_eq_false_2 by assumption. reflexivity.
Qed.

(** [Flush] on a dirty slot: the callback, then the write of the whole page,
    then [Clear] when the write succeeded. *)
Lemma Flush_Dirty (callback : option PreFlushCallbackStruct) (s : St) :
  m_Status (cache s) = Dirty ->
  Flush PAGE_SIZE callback s =
    let buf := m_Buffer (cache s) in
    let a := m_Address (cache s) in
    let evs := match callback with
               | Some {| Callback := Some _; arg := x |} => [EvCallback buf a PAGE_SIZE x]
               | _ => []
               end in
    let (ok, d) := Write buf a PAGE_SIZE (pre_flush_dev PAGE_SIZE callback s) in
    (ok, {| cache := {| m_Address := a;
                        m_Status := if ok then Empty else Dirty;
                        m_Buffer := buf |};
            dev := d;
            log := (log s ++ evs) ++ [EvWrite buf a PAGE_SIZE] |}).
Proof.
  intros Hst. destruct s as [[a st buf] d l]. simpl in Hst. subst st.
  run_cache. unfold pre_flush_dev. simpl.
  destruct callback as [[[f|] x]|]; simpl;
    rewrite ?app_nil_r;
    match goal with |- context [Write ?b ?a ?n ?d] => destruct (Write b a n d) as [[] d'] end;
    reflexivity.
Qed.

(** C5. The pre-flush hook: a flush of a dirty slot with a callback supplied
    calls it once, with [(m_Buffer, m_Address, PAGE_SIZE, arg)], on the slot
    still dirty and unchanged, and the write of the whole page is the next
    call out; a flush of a slot that is not dirty calls nothing. *)
Theorem Flush_callback_contract (f : PreFlushCallbackType) (x : Z) (s : St) :
  let callback := Some {| Callback := Some f; arg := x |} in
  let buf := m_Buffer (cache s) in
  let a := m_Address (cache s) in
  let s' := snd (Flush PAGE_SIZE callback s) in
  (m_Status (cache s) = Dirty ->
     log s' = log s ++ [EvCallback buf a PAGE_SIZE x; EvWrite buf a PAGE_SIZE] /\
     length (filter (fun e => is_EvCallback e = true) (drop (length (log s)) (log s'))) = 1%nat /\
     Flush PAGE_SIZE callback s =
       (let* ok := call_Write buf a PAGE_SIZE in
        if negb ok then ret false else let* _ := Clear in ret true)
       (snd (call_Callback f buf a PAGE_SIZE x s)) /\
     m_Status (cache (snd (call_Callback f buf a PAGE_SIZE x s))) = Dirty) /\
  (m_Status (cache s) <> Dirty -> log s' = log s).
Proof.
  cbv zeta. split.
  - intros Hst. rewrite (Flush_Dirty _ s Hst). cbv zeta.
    destruct (Write _ _ _ _) as [ok d'] eqn:HW. simpl.
    rewrite <- app_assoc. simpl. repeat split.
    + rewrite drop_app_length. reflexivity.
    + destruct s as [[a st buf] d l]. simpl in *. subst st.
      run_cache. unfold pre_flush_dev in HW. simpl in HW. rewrite HW.
      rewrite <- app_assoc. destruct ok; reflexivity.
    + exact Hst.
  - intros Hst. rewrite (Flush_not_Dirty _ s Hst). reflexivity.
Qed.

(** Without a callback (a null [callback], or a null [Callback] in it) the
    flush of a dirty slot only writes. *)
Lemma Flush_no_callback (callback : option PreFlushCallbackStruct) (s : St) :
  match callback with Some {| Callback := Some _ |} => False | _ => True end ->
  m_Status (cache s) = Dirty ->
  log (snd (Flush PAGE_SIZE callback s)) =
    log s ++ [EvWrite (m_Buffer (cache s)) (m_Address (cache s)) PAGE_SIZE].
Proof.
  intros Hcb Hst. rewrite (Flush_Dirty _ s Hst). cbv zeta.
  destruct (Write _ _ _ _) as [ok d']. simpl.
  destruct callback as [[[f|] x]|]; [contradiction | |]; now rewrite app_nil_r.
Qed.

(** C6. A flush of a dirty slot whose write fails returns [false] and leaves
    the members of the object as they were, the status [Dirty]; a flush of a
    slot that is not dirty returns [true] and leaves object, device and log
    as they were: no write, no callback. *)
Theorem Flush_error_atomicity (callback : option PreFlushCallbackStruct) (s : St) :
  (m_Status (cache s) = Dirty ->
   fst (Write (m_Buffer (cache s)) (m_Address (cache s)) PAGE_SIZE
          (pre_flush_dev PAGE_SIZE callback s)) = false ->
   fst (Flush PAGE_SIZE callback s) = false /\
   cache (snd (Flush PAGE_SIZE callback s)) = cache s /\
   m_Status (cache (snd (Flush PAGE_SIZE callback s))) = Dirty) /\
  (m_Status (cache s) <> Dirty ->
   Flush PAGE_SIZE callback s = (true, s)).
Proof.
  split.
  - intros Hst HW. rewrite (Flush_Dirty _ s Hst). cbv zeta.
    destruct (Write _ _ _ _) as [ok d']. simpl in HW. subst ok. simpl.
    destruct s as [[a st buf] d l]. simpl in *. subst st. auto.
  - apply Flush_not_Dirty.
Qed.

(** The other way round: a flush that returns [false] was one of a dirty
    slot, and it left the object as it was. *)
Lemma Flush_false_frame (callback : option PreFlushCallbackStruct) (s : St) :
  fst (Flush PAGE_SIZE callback s) = false ->
  m_Status (cache s) = Dirty /\ cache (snd (Flush PAGE_SIZE callback s)) = cache s.
Proof.
  intros Hf. destruct (decide (m_Status (cache s) = Dirty)) as [Hst|Hst].
  - split; [assumption|]. revert Hf. rewrite (Flush_Dirty _ s Hst). cbv zeta.
    destruct (Write _ _ _ _) as [ok d']. simpl. intros ->.
    destruct s as [[a st buf] d l]. simpl in *. now subst st.
  - rewrite (Flush_not_Dirty _ s Hst) in Hf. discriminate.
Qed.

(** *** The loops end *)

(** A pass of [SetData] that goes on has consumed at least one byte. *)
Lemma SetData_body_decreases (callback : option PreFlushCallbackStruct)
    (data data' : list byte) (address address' len len' : Z) (s s' : St) :
  0 < PAGE_SIZE ->
  SetData_body PAGE_SIZE callback data address len s = (inr (data', address', len'), s') ->
  0 < len' -> len' <= len - 1.
Proof.
  intros HP Hb Hpos.
  assert (Hmod : 0 <= address mod PAGE_SIZE < PAGE_SIZE) by (apply Z.mod_pos_bound; lia).
  unfold SetData_body, bind, ret in Hb.
  destruct ((address mod PAGE_SIZE =? 0) && (PAGE_SIZE <=? len)) eqn:Hc.
  - apply andb_true_iff in Hc as [_ Hc%Z.leb_le].
    destruct (call_Write _ _ _ s) as [[] s1]; simpl in Hb; simplify_eq. lia.
  - destruct (setAddress _ _ _ s) as [[] s1]; simpl in Hb; [|discriminate].
    repeat match type of Hb with
           | (let (_, _) := ?c in _) = _ =>
               destruct c as [[] ?]; simpl in Hb; [|discriminate]
           end.
    simplify_eq. lia.
Qed.

(** [SetData] returns: the bound on the passes is never reached. *)
Lemma SetData_loop_returns (callback : option PreFlushCallbackStruct) (fuel : nat) :
  0 < PAGE_SIZE ->
  forall (data : list byte) (address len : Z) (s : St),
    (Z.to_nat len < fuel)%nat ->
    exists b, fst (SetData_loop PAGE_SIZE fuel callback data address len s) = Some b.
Proof.
  intros HP. induction fuel as [|fuel IH]; intros data address len s Hf; [lia|].
  simpl. unfold bind.
  destruct (SetData_body PAGE_SIZE callback data address len s)
    as [[b|[[data' address'] len']] s1] eqn:Hb.
  - exists b. reflexivity.
  - destruct (0 <? len') eqn:Hl.
    + apply Z.ltb_lt in Hl.
      pose proof (SetData_body_decreases _ _ _ _ _ _ _ _ _ HP Hb Hl).
      apply IH. lia.
    + exists true. reflexivity.
Qed.

Lemma SetData_returns (callback : option PreFlushCallbackStruct)
    (data : list byte) (address len : Z) (s : St) :
  0 < PAGE_SIZE ->
  exists b, fst (SetData PAGE_SIZE data address len callback s) = Some b.
Proof.
  intros HP. unfold SetData. apply SetData_loop_returns; [assumption | lia].
Qed.

(** [GetData] returns as well. *)
Lemma GetData_loop_returns (fuel : nat) :
  0 < PAGE_SIZE ->
  forall (address len : Z) (s : St),
    (Z.to_nat len < fuel)%nat ->
    exists r, fst (GetData_loop PAGE_SIZE fuel address len s) = Some r.
Proof.
  intros HP. induction fuel as [|fuel IH]; intros address len s Hf; [lia|].
  simpl. unfold bind.
  destruct (GetData_body PAGE_SIZE address len s) as [[seg|] s1].
  - assert (Hmod : 0 <= address mod PAGE_SIZE < PAGE_SIZE) by (apply Z.mod_pos_bound; lia).
    destruct (0 <? len - _) eqn:Hl.
    + apply Z.ltb_lt in Hl.
      edestruct (IH (wrap (address + Z.min (PAGE_SIZE - address mod PAGE_SIZE) len))
                    (len - Z.min (PAGE_SIZE - address mod PAGE_SIZE) len) s1) as [[ok rest] Hr];
        [lia|].
      destruct (GetData_loop _ _ _ _ s1) as [r1 s2]. simpl in Hr. subst r1.
      eexists. reflexivity.
    + eexists. reflexivity.
  - eexists. reflexivity.
Qed.

Lemma GetData_returns (address len : Z) (s : St) :
  0 < PAGE_SIZE ->
  exists r, fst (GetData PAGE_SIZE address len s) = Some r.
Proof.
  intros HP. unfold GetData. apply GetData_loop_returns; [assumption | lia].
Qed.

(** *** Writes of whole pages *)

Lemma SetData_body_bypass (callback : option PreFlushCallbackStruct)
    (data : list byte) (address len : Z) (s : St) :
  address mod PAGE_SIZE = 0 ->
  PAGE_SIZE <= len ->
  let page := take (Z.to_nat PAGE_SIZE) data in
  let w := Write page address PAGE_SIZE (dev s) in
  SetData_body PAGE_SIZE callback data address len s =
    (if fst w
     then inr (drop (Z.to_nat PAGE_SIZE) data, wrap (address + PAGE_SIZE), len - PAGE_SIZE)
     else inl false,
     {| cache := cache s; dev := snd w;
        log := log s ++ [EvWrite page address PAGE_SIZE] |}).
Proof.
  intros Ha Hl. cbv zeta. unfold SetData_body.
  rewrite Ha, Z.eqb_refl, (proj2 (Z.leb_le _ _) Hl). simpl.
  unfold bind, call_Write, ret.
  destruct (Write _ _ _ _) as [[] d']; reflexivity.
Qed.

(** C7. When the rest of the request starts at a page boundary and is at
    least a page long, the pass calls [Write] for that page on the bytes of
    the request and goes on one page further (or returns [false] when the
    write fails); status, address and buffer of the slot stay as they were. *)
Theorem SetData_aligned_page_bypass (callback : option PreFlushCallbackStruct)
    (data : list byte) (address len : Z) (s : St) :
  address mod PAGE_SIZE = 0 ->
  PAGE_SIZE <= len ->
  let page := take (Z.to_nat PAGE_SIZE) data in
  let w := Write page address PAGE_SIZE (dev s) in
  let r := SetData_body PAGE_SIZE callback data address len s in
  fst r = (if fst w
           then inr (drop (Z.to_nat PAGE_SIZE) data,
                     wrap (address + PAGE_SIZE), len - PAGE_SIZE)
           else inl false) /\
  cache (snd r) = cache s /\
  dev (snd r) = snd w /\
  log (snd r) = log s ++ [EvWrite page address PAGE_SIZE].
Proof.
  intros Ha Hl. cbv zeta.
  rewrite (SetData_body_bypass callback data address len s Ha Hl).
  cbv zeta. simpl. auto.
Qed.

(** The request of one aligned page, as a whole: one write, nothing else. *)
Lemma SetData_one_page (callback : option PreFlushCallbackStruct)
    (data : list byte) (address : Z) (s : St) :
  address mod PAGE_SIZE = 0 ->
  let page := take (Z.to_nat PAGE_SIZE) data in
  let w := Write page address PAGE_SIZE (dev s) in
  SetData PAGE_SIZE data address PAGE_SIZE callback s =
    (Some (fst w),
     {| cache := cache s; dev := snd w;
        log := log s ++ [EvWrite page address PAGE_SIZE] |}).
Proof.
  intros Ha. cbv zeta. unfold SetData. simpl. unfold bind.
  rewrite (SetData_body_bypass callback data address PAGE_SIZE s Ha) by lia.
  cbv zeta. destruct (Write _ _ _ _) as [[] d']; simpl; [|reflexivity].
  rewrite Z.sub_diag. reflexivity.
Qed.

(** *** Reads *)

(** A pass of [GetData] leaves the object alone and calls at most [Read]. *)
Lemma GetData_body_eq (address len : Z) (s : St) :
  let n := Z.min (PAGE_SIZE - address mod PAGE_SIZE) len in
  GetData_body PAGE_SIZE address len s =
    if isInCache_of PAGE_SIZE (cache s) address
    then (Some (sub_bytes (m_Buffer (cache s)) (address mod PAGE_SIZE) n), s)
    else
      let r := Read address n (dev s) in
      (if fst (fst r) then Some (snd (fst r)) else None,
       {| cache := cache s; dev := snd r; log := log s ++ [EvRead address n] |}).
Proof.
  cbv zeta. unfold GetData_body, bind, isInCache, get_Buffer, call_Read, ret.
  destruct (isInCache_of _ _ _); [reflexivity|].
  destruct (Read _ _ _) as [[[] bytes] d']; reflexivity.
Qed.

Lemma GetData_loop_frame (fuel : nat) :
  forall (address len : Z) (s : St),
    let s' := snd (GetData_loop PAGE_SIZE fuel address len s) in
    cache s' = cache s /\
    exists evs, log s' = log s ++ evs /\ Forall is_EvRead evs.
Proof.
  induction fuel as [|fuel IH]; intros address len s; cbv zeta.
  - simpl. split; [reflexivity|]. exists []. now rewrite app_nil_r.
  - simpl. unfold bind. rewrite GetData_body_eq. cbv zeta.
    destruct (isInCache_of _ _ _).
    + destruct (0 <? _).
      * specialize (IH (wrap (address + Z.min (PAGE_SIZE - address mod PAGE_SIZE) len))
                       (len - Z.min (PAGE_SIZE - address mod PAGE_SIZE) len) s).
        cbv zeta in IH. destruct (GetData_loop _ _ _ _ s) as [[[ok rest]|] s2]; exact IH.
      * simpl. split; [reflexivity|]. exists []. now rewrite app_nil_r.
    + destruct (Read _ _ _) as [[[] bytes] d']; simpl.
      * destruct (0 <? _).
        -- match goal with |- context [GetData_loop _ _ ?a ?n ?s1] =>
             specialize (IH a n s1); cbv zeta in IH;
             destruct (GetData_loop _ _ a n s1) as [[[ok rest]|] s2]
           end; simpl in *; destruct IH as [Hc (evs & Hl & Hev)];
             (split; [exact Hc|]); eexists (_ :: evs);
             (split; [rewrite Hl, <- app_assoc; reflexivity | constructor; [exact I | exact Hev]]).
        -- simpl. split; [reflexivity|]. eexists [_]. split; [reflexivity|].
           repeat constructor.
      * split; [reflexivity|]. eexists [_]. split; [reflexivity|]. repeat constructor.
Qed.

(** C8. Each pass of [GetData] copies its segment from the buffer when the
    page of the segment is the resident one, and otherwise asks the device
    for it; and [GetData] as a whole leaves status, address and buffer as they
    were and calls nothing but [Read]. *)
Theorem GetData_read_through (address len : Z) (s : St) :
  let n := Z.min (PAGE_SIZE - address mod PAGE_SIZE) len in
  let s' := snd (GetData PAGE_SIZE address len s) in
  (isInCache_of PAGE_SIZE (cache s) address = true ->
   GetData_body PAGE_SIZE address len s =
     (Some (sub_bytes (m_Buffer (cache s)) (address mod PAGE_SIZE) n), s)) /\
  (isInCache_of PAGE_SIZE (cache s) address = false ->
   GetData_body PAGE_SIZE address len s =
     (if fst (fst (Read address n (dev s)))
      then Some (snd (fst (Read address n (dev s)))) else None,
      {| cache := cache s; dev := snd (Read address n (dev s));
         log := log s ++ [EvRead address n] |})) /\
  cache s' = cache s /\
  exists evs, log s' = log s ++ evs /\ Forall is_EvRead evs.
Proof.
  cbv zeta. split; [|split].
  - intros Hin. rewrite GetData_body_eq. cbv zeta. now rewrite Hin.
  - intros Hin. rewrite GetData_body_eq. cbv zeta. now rewrite Hin.
  - apply GetData_loop_frame.
Qed.

End PageCacheProperties.

(** * Coherence of the page cache over a byte memory *)

(** ** Bytes of buffers *)

Lemma byte_at_lookup (l : list byte) (i : Z) :
  byte_at l i = default x00 (l !! Z.to_nat i).
Proof. unfold byte_at. apply nth_lookup. Qed.

Lemma byte_at_memcpy (buf src : list byte) (off n i : Z) :
  0 <= off -> 0 <= n -> 0 <= i ->
  (Z.to_nat n <= length src)%nat ->
  (Z.to_nat off <= length buf)%nat ->
  byte_at (memcpy buf off src n) i =
    if (off <=? i) && (i <? off + n) then byte_at src (i - off) else byte_at buf i.
Proof.
  intros Hoff Hn Hi Hsrc Hbuf. unfold memcpy. rewrite !byte_at_lookup.
  assert (Hlt : length (take (Z.to_nat n) src) = Z.to_nat n)
    by (rewrite length_take; lia).
  rewrite Hlt.
  destruct (Z.leb_spec off i) as [H1|H1]; simpl.
  - rewrite lookup_app_r by (rewrite length_take; lia).
    rewrite length_take, Nat.min_l by lia.
    destruct (Z.ltb_spec i (off + n)) as [H2|H2].
    + rewrite lookup_app_l by (rewrite Hlt; lia).
      rewrite lookup_take_lt by lia. f_equal. f_equal. lia.
    + rewrite lookup_app_r by (rewrite Hlt; lia).
      rewrite Hlt, lookup_drop. f_equal. f_equal. lia.
  - rewrite lookup_app_l by (rewrite length_take; lia).
    rewrite lookup_take_lt by lia. reflexivity.
Qed.

Lemma length_memcpy (buf src : list byte) (off n : Z) :
  0 <= off -> 0 <= n ->
  (Z.to_nat n <= length src)%nat ->
  (Z.to_nat off + Z.to_nat n <= length buf)%nat ->
  length (memcpy buf off src n) = length buf.
Proof.
  intros Hoff Hn Hsrc Hbuf. unfold memcpy.
  rewrite !length_app, length_drop, !length_take. lia.
Qed.

Lemma byte_at_map_seqZ (f : Z -> byte) (a n i : Z) :
  0 <= i < n -> byte_at (map f (seqZ a n)) i = f (a + i).
Proof.
  intros Hi. rewrite byte_at_lookup, list_lookup_fmap.
  rewrite lookup_seqZ_lt by lia. simpl. f_equal. lia.
Qed.

Lemma byte_at_drop (l : list byte) (n i : Z) :
  0 <= n -> 0 <= i -> byte_at (drop (Z.to_nat n) l) i = byte_at l (n + i).
Proof.
  intros Hn Hi. rewrite !byte_at_lookup, lookup_drop. f_equal. f_equal. lia.
Qed.

Lemma byte_at_take (l : list byte) (n i : Z) :
  0 <= i < n -> byte_at (take (Z.to_nat n) l) i = byte_at l i.
Proof.
  intros Hi. rewrite !byte_at_lookup, lookup_take_lt by lia. reflexivity.
Qed.

(** A list of bytes is the list of its bytes. *)
Lemma bytes_eq_map_seqZ (l : list byte) (f : Z -> byte) (a n : Z) :
  length l = Z.to_nat n ->
  (forall i, 0 <= i < n -> byte_at l i = f (a + i)) ->
  l = map f (seqZ a n).
Proof.
  intros Hlen Hf. apply list_eq. intros i.
  rewrite list_lookup_fmap.
  destruct (decide (i < length l)%nat) as [Hi|Hi].
  - rewrite lookup_seqZ_lt by lia. simpl.
    specialize (Hf (Z.of_nat i) ltac:(lia)).
    rewrite byte_at_lookup, Nat2Z.id in Hf.
    destruct (lookup_lt_is_Some_2 l i Hi) as [b Hb]. rewrite Hb in *. simpl in Hf.
    now subst b.
  - rewrite lookup_ge_None_2 by lia.
    rewrite lookup_seqZ_ge by lia. reflexivity.
Qed.

Section CacheCoherence.

Import PageCacheClass.

Context {Dev : Type} `{ByteMemory Dev}.

(** The page size is a power of two that fits the address type. *)
Variable PAGE_SIZE : Z.
Variable k : Z.
Hypothesis k_range : 0 <= k < 32.
Hypothesis PAGE_SIZE_pow2 : PAGE_SIZE = 2 ^ k.

Local Abbreviation St := (@St Dev).
Local Abbreviation view := (view PAGE_SIZE).
Local Abbreviation cache_wf := (cache_wf PAGE_SIZE).
Local Abbreviation page_start := (page_start PAGE_SIZE).

(** ** Pages *)

Lemma PAGE_SIZE_pos : 0 < PAGE_SIZE.
Proof. rewrite PAGE_SIZE_pow2. apply Z.pow_pos_nonneg; lia. Qed.

Lemma PAGE_SIZE_divides : 2 ^ 32 = PAGE_SIZE * 2 ^ (32 - k).
Proof. rewrite PAGE_SIZE_pow2, <- Z.pow_add_r by lia. f_equal. lia. Qed.

Lemma PAGE_SIZE_lt : PAGE_SIZE < 2 ^ 32.
Proof. rewrite PAGE_SIZE_pow2. apply Z.pow_lt_mono_r; lia. Qed.

(** The mask of [page_start] clears the offset within the page. *)
Lemma page_start_eq (a : Z) :
  0 <= a < 2 ^ 32 -> page_start a = a - a mod PAGE_SIZE.
Proof.
  intros Ha. pose proof PAGE_SIZE_pos as HP. pose proof PAGE_SIZE_lt as HL.
  unfold PageCacheClass.page_start, wrap.
  rewrite (Z.mod_small PAGE_SIZE) by lia.
  rewrite (Z.mod_small (PAGE_SIZE - 1)) by lia.
  rewrite PAGE_SIZE_pow2, Z.sub_1_r, <- Z.ones_equiv.
  rewrite <- (Z.land_ones _ 32), <- (Z.land_ones a k) by lia.
  symmetry. rewrite Z.sub_nocarry_ldiff.
  - apply Z.bits_inj'. intros i Hi.
    rewrite Z.ldiff_spec, !Z.land_spec, Z.lnot_spec by lia.
    destruct (Z.testbit a i) eqn:Hai; simpl; [|reflexivity].
    destruct (Z.ltb_spec i 32).
    + rewrite (Z.ones_spec_low 32) by lia. now rewrite andb_true_r.
    + exfalso. rewrite (Z.bits_above_log2 a i) in Hai; [discriminate | lia |].
      destruct (Z.eq_dec a 0) as [->|]; [simpl; lia|].
      apply Z.lt_le_trans with 32; [|lia]. apply Z.log2_lt_pow2; lia.
  - apply Z.bits_inj'. intros i Hi.
    rewrite Z.ldiff_spec, Z.land_spec, Z.bits_0.
    destruct (Z.testbit a i); simpl; [now rewrite andb_false_r | reflexivity].
Qed.

Lemma page_start_bound (a : Z) :
  0 <= a < 2 ^ 32 ->
  0 <= a - a mod PAGE_SIZE /\ a - a mod PAGE_SIZE + PAGE_SIZE <= 2 ^ 32.
Proof.
  intros Ha. pose proof PAGE_SIZE_pos as HP. pose proof PAGE_SIZE_divides as HD.
  pose proof (Z.mod_pos_bound a PAGE_SIZE HP) as Hm.
  pose proof (Z.div_mod a PAGE_SIZE ltac:(lia)) as Hdm.
  pose proof (Z.mod_le a PAGE_SIZE ltac:(lia) HP) as Hle.
  split; [lia|].
  assert (Hq : a / PAGE_SIZE < 2 ^ (32 - k))
    by (apply Z.div_lt_upper_bound; lia).
  assert (PAGE_SIZE * (a / PAGE_SIZE + 1) <= PAGE_SIZE * 2 ^ (32 - k))
    by (apply Z.mul_le_mono_nonneg_l; lia).
  lia.
Qed.

(** The addresses of the page that starts at [pg]. *)
Lemma same_page (pg x : Z) :
  pg mod PAGE_SIZE = 0 ->
  (x - x mod PAGE_SIZE = pg <-> pg <= x < pg + PAGE_SIZE).
Proof.
  intros Hpg. pose proof PAGE_SIZE_pos as HP.
  pose proof (Z.mod_pos_bound x PAGE_SIZE HP) as Hm.
  split; [lia|]. intros Hx.
  apply Z.mod_divide in Hpg; [|lia]. destruct Hpg as [q ->].
  assert (x mod PAGE_SIZE = x - q * PAGE_SIZE); [|lia].
  symmetry. apply Z.mod_unique_pos with q; lia.
Qed.

Lemma page_start_mod (a : Z) : (a - a mod PAGE_SIZE) mod PAGE_SIZE = 0.
Proof.
  pose proof PAGE_SIZE_pos as HP.
  rewrite Zminus_mod, Z.mod_mod, Z.sub_diag by lia. apply Z.mod_0_l. lia.
Qed.

Lemma mod_offset (a i : Z) :
  0 <= i -> a mod PAGE_SIZE + i < PAGE_SIZE ->
  (a + i) mod PAGE_SIZE = a mod PAGE_SIZE + i.
Proof.
  intros Hi Hlt. pose proof PAGE_SIZE_pos as HP.
  pose proof (Z.mod_pos_bound a PAGE_SIZE HP) as Hm.
  symmetry. apply Z.mod_unique_pos with (a / PAGE_SIZE); [lia|].
  pose proof (Z.div_mod a PAGE_SIZE ltac:(lia)). lia.
Qed.

(** Within a page all addresses are in the cache, or none is. *)
Lemma isInCache_same_page (c : Cache) (a x : Z) :
  0 <= a < 2 ^ 32 ->
  a - a mod PAGE_SIZE <= x < a - a mod PAGE_SIZE + PAGE_SIZE ->
  isInCache_of PAGE_SIZE c x = isInCache_of PAGE_SIZE c a.
Proof.
  intros Ha Hx. pose proof (page_start_bound a Ha) as Hb.
  unfold isInCache_of. rewrite (page_start_eq a Ha), (page_start_eq x) by lia.
  do 2 f_equal. apply same_page; [apply page_start_mod | assumption].
Qed.

(** ** Reads through the cache *)

(** One segment of [GetData] is the view of its addresses. *)
Lemma segment_view (c : Cache) (d : Dev) (a n : Z) :
  length (m_Buffer c) = Z.to_nat PAGE_SIZE ->
  0 <= a < 2 ^ 32 ->
  0 <= n <= PAGE_SIZE - a mod PAGE_SIZE ->
  (if isInCache_of PAGE_SIZE c a
   then sub_bytes (m_Buffer c) (a mod PAGE_SIZE) n
   else map (peek d) (seqZ a n)) = map (view c d) (seqZ a n).
Proof.
  intros Hlen Ha Hn. pose proof PAGE_SIZE_pos as HP.
  pose proof (Z.mod_pos_bound a PAGE_SIZE HP) as Hm.
  apply bytes_eq_map_seqZ.
  - destruct (isInCache_of PAGE_SIZE c a).
    + unfold sub_bytes. rewrite length_take, length_drop. lia.
    + rewrite length_map, length_seqZ. reflexivity.
  - intros i Hi. unfold PageCacheClass.view.
    rewrite (isInCache_same_page c a (a + i)) by lia.
    destruct (isInCache_of PAGE_SIZE c a).
    + unfold sub_bytes. rewrite byte_at_take, byte_at_drop by lia.
      f_equal. symmetry. apply mod_offset; lia.
    + apply byte_at_map_seqZ. lia.
Qed.

(** [GetData] returns the view of the range, and changes neither the object
    nor the device. *)
Lemma GetData_loop_view (fuel : nat) :
  forall (a len : Z) (s : St),
    length (m_Buffer (cache s)) = Z.to_nat PAGE_SIZE ->
    0 <= a < 2 ^ 32 -> 0 <= len -> a + len <= 2 ^ 32 ->
    (Z.to_nat len < fuel)%nat ->
    let r := GetData_loop PAGE_SIZE fuel a len s in
    fst r = Some (true, map (view (cache s) (dev s)) (seqZ a len)) /\
    cache (snd r) = cache s /\ dev (snd r) = dev s.
Proof.
  pose proof PAGE_SIZE_pos as HP.
  induction fuel as [|fuel IH]; intros a len s Hlen Ha Hl Hal Hf; [lia|].
  pose proof (Z.mod_pos_bound a PAGE_SIZE HP) as Hm.
  cbv zeta. simpl. unfold bind. rewrite GetData_body_eq. cbv zeta.
  set (n := Z.min (PAGE_SIZE - a mod PAGE_SIZE) len).
  assert (Hn : 0 <= n <= PAGE_SIZE - a mod PAGE_SIZE) by (unfold n; lia).
  assert (Hnl : n <= len) by (unfold n; lia).
  pose proof (segment_view (cache s) (dev s) a n Hlen Ha Hn) as Hseg.
  rewrite Read_peek. simpl.
  set (seg := map (view (cache s) (dev s)) (seqZ a n)) in *.
  assert (Hstep : forall s1 : St, cache s1 = cache s -> dev s1 = dev s ->
    let r := (if 0 <? len - n
              then bind (GetData_loop PAGE_SIZE fuel (wrap (a + n)) (len - n))
                     (fun r' => match r' with
                                | Some (ok, rest) => ret (Some (ok, seg ++ rest))
                                | None => ret None
                                end)
              else ret (Some (true, seg))) s1 in
    fst r = Some (true, map (view (cache s) (dev s)) (seqZ a len)) /\
    cache (snd r) = cache s /\ dev (snd r) = dev s).
  { intros s1 Hc1 Hd1. cbv zeta. destruct (Z.ltb_spec 0 (len - n)) as [Hpos|Hpos].
    - assert (Hw : wrap (a + n) = a + n) by (unfold wrap; apply Z.mod_small; lia).
      rewrite Hw. unfold bind.
      destruct (IH (a + n) (len - n) s1) as (Hr & Hc & Hd); try lia.
      { now rewrite Hc1. }
      destruct (GetData_loop PAGE_SIZE fuel (a + n) (len - n) s1) as [r' s2].
      simpl in Hr, Hc, Hd. subst r'. unfold ret. simpl.
      rewrite Hc1, Hd1 in *. repeat split; try assumption.
      do 2 f_equal. unfold seg. rewrite <- map_app. f_equal.
      replace len with (n + (len - n)) at 2 by lia.
      symmetry. apply seqZ_app; lia.
    - unfold ret, seg. simpl. replace n with len by lia. auto. }
  destruct (isInCache_of PAGE_SIZE (cache s) a); rewrite Hseg;
    apply Hstep; reflexivity.
Qed.

(** ** Writes through the cache *)

(** The buffer of an empty slot after a pass of [SetData]: the bytes of the
    request at their offset, and the bytes [f] of the device before and
    behind them. *)
Lemma filled_buffer (B data : list byte) (f : Z -> byte) (pg off n : Z) :
  length B = Z.to_nat PAGE_SIZE ->
  0 <= off < PAGE_SIZE ->
  0 <= n <= PAGE_SIZE - off ->
  (Z.to_nat n <= length data)%nat ->
  let rest := PAGE_SIZE - off in
  let B1 := if negb (pg =? pg + off) then memcpy B 0 (map f (seqZ pg off)) off else B in
  let B2 := memcpy B1 off data n in
  let B3 := if n <? rest
            then memcpy B2 (off + n) (map f (seqZ (pg + off + n) (rest - n))) (rest - n)
            else B2 in
  length B3 = Z.to_nat PAGE_SIZE /\
  forall i, 0 <= i < PAGE_SIZE ->
    byte_at B3 i = if (off <=? i) && (i <? off + n) then byte_at data (i - off)
                   else f (pg + i).
Proof.
  intros HB Hoff Hn Hdata. cbv zeta.
  set (B1 := if negb (pg =? pg + off) then memcpy B 0 (map f (seqZ pg off)) off else B).
  assert (HB1 : length B1 = Z.to_nat PAGE_SIZE /\
                forall i, 0 <= i < off -> byte_at B1 i = f (pg + i)).
  { unfold B1. destruct (Z.eqb_spec pg (pg + off)) as [He|He]; simpl.
    - split; [assumption|]. intros i Hi. lia.
    - split.
      + rewrite length_memcpy; rewrite ?length_map, ?length_seqZ; lia.
      + intros i Hi. rewrite byte_at_memcpy; rewrite ?length_map, ?length_seqZ; try lia.
        destruct (Z.leb_spec 0 i); [|lia]. destruct (Z.ltb_spec i (0 + off)); [|lia].
        simpl. rewrite Z.sub_0_r. apply byte_at_map_seqZ. lia. }
  destruct HB1 as [HL1 HB1].
  set (B2 := memcpy B1 off data n).
  assert (HL2 : length B2 = Z.to_nat PAGE_SIZE)
    by (unfold B2; rewrite length_memcpy; lia).
  assert (HB2 : forall i, 0 <= i < off + n ->
            byte_at B2 i = if (off <=? i) && (i <? off + n) then byte_at data (i - off)
                           else f (pg + i)).
  { intros i Hi. unfold B2. rewrite byte_at_memcpy by lia.
    destruct (Z.leb_spec off i); destruct (Z.ltb_spec i (off + n)); simpl;
      try reflexivity; try lia. apply HB1. lia. }
  destruct (Z.ltb_spec n (PAGE_SIZE - off)) as [Hlt|Hge].
  - split.
    + rewrite length_memcpy; rewrite ?length_map, ?length_seqZ; lia.
    + intros i Hi. rewrite byte_at_memcpy; rewrite ?length_map, ?length_seqZ; try lia.
      destruct (Z.leb_spec (off + n) i) as [H1|H1].
      * destruct (Z.ltb_spec i (off + n + (PAGE_SIZE - off - n))); [|lia]. simpl.
        rewrite byte_at_map_seqZ by lia.
        destruct (Z.leb_spec off i); destruct (Z.ltb_spec i (off + n)); simpl; try lia.
        f_equal. lia.
      * simpl. apply HB2. lia.
  - split; [assumption|]. intros i Hi. apply HB2. lia.
Qed.

(** The view of an address of the resident page, and of any other. *)
Lemma view_resident (c : Cache) (d : Dev) (x : Z) :
  m_Status c = Dirty -> m_Address c mod PAGE_SIZE = 0 ->
  0 <= x < 2 ^ 32 ->
  view c d x =
    if (m_Address c <=? x) && (x <? m_Address c + PAGE_SIZE)
    then byte_at (m_Buffer c) (x - m_Address c) else peek d x.
Proof.
  intros Hst Hal Hx. unfold PageCacheClass.view, isInCache_of.
  rewrite Hst, (page_start_eq x Hx). simpl.
  pose proof (same_page (m_Address c) x Hal) as Hsp.
  destruct (Z.eqb_spec (m_Address c) (x - x mod PAGE_SIZE)) as [He|He].
  - destruct (proj1 Hsp (eq_sym He)) as [H1 H2].
    rewrite (proj2 (Z.leb_le _ _) H1), (proj2 (Z.ltb_lt _ _) H2). simpl.
    f_equal. lia.
  - destruct (Z.leb_spec (m_Address c) x); destruct (Z.ltb_spec x (m_Address c + PAGE_SIZE));
      simpl; try reflexivity.
    exfalso. apply He. symmetry. apply Hsp. lia.
Qed.

Lemma view_Empty (c : Cache) (d : Dev) (x : Z) :
  m_Status c = Empty -> view c d x = peek d x.
Proof.
  intros Hst. unfold PageCacheClass.view, isInCache_of. now rewrite Hst.
Qed.

(** [setAddress] without a callback over a byte memory: either the page of
    [a] is resident and dirty, and nothing changes; or the slot is empty
    afterwards, at the page of [a], and the device holds what a read through
    the cache found before. *)
Lemma setAddress_view (a : Z) (s : St) :
  cache_wf (cache s) ->
  0 <= a < 2 ^ 32 ->
  let r := setAddress PAGE_SIZE a None s in
  fst r = true /\
  ((cache (snd r) = cache s /\ dev (snd r) = dev s /\
    m_Status (cache s) = Dirty /\ m_Address (cache s) = a - a mod PAGE_SIZE) \/
   (m_Status (cache (snd r)) = Empty /\
    m_Address (cache (snd r)) = a - a mod PAGE_SIZE /\
    m_Buffer (cache (snd r)) = m_Buffer (cache s) /\
    forall x, 0 <= x < 2 ^ 32 -> peek (dev (snd r)) x = view (cache s) (dev s) x)).
Proof.
  intros (Hlen & Hst & Hd) Ha. cbv zeta.
  pose proof (page_start_eq a Ha) as Hps.
  destruct s as [[A st B] d l]. simpl in *.
  destruct st; [| contradiction |].
  - (* Empty *)
    unfold setAddress, bind, get_Status, isInCache, set_Address, ret. simpl.
    split; [reflexivity|]. right. repeat split; try assumption.
  - (* Dirty *)
    destruct (Hd eq_refl) as [HA Hal].
    unfold setAddress, bind, get_Status, isInCache, isInCache_of. simpl.
    destruct (Z.eqb_spec A (PageCacheClass.page_start PAGE_SIZE a)) as [He|He]; simpl.
    + unfold set_Address, ret. simpl. split; [reflexivity|]. left.
      rewrite <- He. repeat split. congruence.
    + rewrite Flush_Dirty by reflexivity. cbv zeta. simpl.
      pose proof (Write_ok B A PAGE_SIZE d) as Hok.
      pose proof (Write_peek B A PAGE_SIZE d) as Hpk.
      destruct (Write B A PAGE_SIZE d) as [ok d']. simpl in Hok, Hpk. subst ok. simpl.
      unfold set_Address, ret. simpl. split; [reflexivity|]. right.
      repeat split; try assumption.
      intros x Hx. rewrite Hpk.
      rewrite (view_resident {| m_Address := A; m_Status := Dirty; m_Buffer := B |} d x);
        [reflexivity | reflexivity | exact Hal | exact Hx].
Qed.

(** A pass of [SetData] through the buffer. *)
Lemma SetData_body_cache_view (data : list byte) (a len : Z) (s : St) :
  cache_wf (cache s) ->
  0 <= a < 2 ^ 32 -> 0 <= len -> a + len <= 2 ^ 32 ->
  (Z.to_nat len <= length data)%nat ->
  (a mod PAGE_SIZE =? 0) && (PAGE_SIZE <=? len) = false ->
  let n := Z.min (PAGE_SIZE - a mod PAGE_SIZE) len in
  exists s2 : St,
    SetData_body PAGE_SIZE None data a len s =
      (inr (drop (Z.to_nat n) data, wrap (a + n), len - n), s2) /\
    cache_wf (cache s2) /\
    m_Status (cache s2) = Dirty /\
    m_Address (cache s2) = a - a mod PAGE_SIZE /\
    forall x, 0 <= x < 2 ^ 32 ->
      view (cache s2) (dev s2) x =
        if (a <=? x) && (x <? a + n) then byte_at data (x - a)
        else view (cache s) (dev s) x.
Proof.
  intros Hwf Ha Hl Hal Hdata Hc. cbv zeta.
  pose proof PAGE_SIZE_pos as HP.
  pose proof (Z.mod_pos_bound a PAGE_SIZE HP) as Hm.
  pose proof (page_start_bound a Ha) as Hpb.
  pose proof (page_start_mod a) as Hpm.
  set (off := a mod PAGE_SIZE) in *.
  set (pg := a - off) in *.
  set (n := Z.min (PAGE_SIZE - off) len).
  assert (Hn : 0 <= n <= PAGE_SIZE - off) by (unfold n; lia).
  assert (Hnl : n <= len) by (unfold n; lia).
  unfold SetData_body. fold off. rewrite Hc. unfold bind at 1.
  destruct (setAddress_view a s Hwf Ha) as [Hok Hcases]. cbv zeta in Hok, Hcases.
  fold off pg in Hcases.
  destruct (setAddress PAGE_SIZE a None s) as [ok s1]. simpl in Hok, Hcases. subst ok.
  simpl negb. cbv iota.
  destruct Hwf as (Hlen & Hnh & Hdirty).
  destruct Hcases as [(Hc1 & Hd1 & Hst & HA) | (Hst1 & HA1 & HB1 & Hpk)].
  - (* the page is resident and dirty *)
    destruct s1 as [c1 d1 l1]. simpl in Hc1, Hd1. subst c1 d1.
    destruct (cache s) as [A st B] eqn:Hcs. simpl in *. subst st A.
    unfold bind, get_Status, get_Address, get_Buffer, set_Buffer, set_Status, ret. simpl.
    fold n. eexists. split; [reflexivity|]. simpl.
    assert (HL : length (memcpy B off data n) = Z.to_nat PAGE_SIZE)
      by (rewrite length_memcpy; lia).
    split; [|split; [reflexivity | split; [reflexivity|]]].
    { repeat split; simpl; try assumption; try discriminate; lia. }
    intros x Hx.
    rewrite (view_resident {| m_Address := pg; m_Status := Dirty;
                              m_Buffer := memcpy B off data n |} (dev s) x)
      by (try reflexivity; assumption).
    rewrite (view_resident {| m_Address := pg; m_Status := Dirty; m_Buffer := B |} (dev s) x)
      by (try reflexivity; assumption).
    simpl.
    destruct (Z.leb_spec pg x); destruct (Z.ltb_spec x (pg + PAGE_SIZE)); simpl;
      destruct (Z.leb_spec a x); destruct (Z.ltb_spec x (a + n)); simpl;
      try reflexivity; try lia.
    all: rewrite byte_at_memcpy by lia.
    all: destruct (Z.leb_spec off (x - pg)); destruct (Z.ltb_spec (x - pg) (off + n)); simpl;
      try reflexivity; try lia.
    f_equal. lia.
  - (* the slot is empty: the page is filled from the device *)
    destruct s1 as [[A1 st1 B1] d1 l1]. simpl in Hst1, HA1, HB1, Hpk. subst st1 A1 B1.
    set (B := m_Buffer (cache s)) in *.
    destruct (filled_buffer B data (peek d1) pg off n Hlen ltac:(lia) Hn ltac:(lia))
      as [HL3 HB3].
    replace (pg + off) with a in HL3, HB3 by (unfold pg; lia).
    assert (Hw : n < PAGE_SIZE - off -> wrap (wrap (pg + off) + n) = a + n).
    { intros Hlt. replace (pg + off) with a by (unfold pg; lia).
      unfold wrap. rewrite (Z.mod_small a) by lia. apply Z.mod_small. unfold pg in *. lia. }
    unfold bind, get_Status, get_Address, get_Buffer, set_Buffer, set_Status,
      Read_to_Buffer, call_Read, ret. simpl. fold n.
    destruct (Z.eqb_spec pg a) as [He|He];
      destruct (Z.ltb_spec n (PAGE_SIZE - off)) as [Hlt|Hge];
      unfold bind; simpl; rewrite ?Read_peek; simpl;
      rewrite ?(proj2 (Z.ltb_lt _ _) Hlt), ?(proj2 (Z.ltb_ge _ _) Hge); simpl;
      rewrite ?Read_peek; simpl;
      simpl in HL3, HB3; try rewrite (Hw Hlt);
      (eexists; split; [reflexivity|]); simpl;
      (split; [repeat split; simpl; try assumption; try discriminate; try lia|]);
      (split; [reflexivity | split; [reflexivity|]]).
    all: try (intros x Hx;
      match goal with
      | |- view ?c ?d x = _ => rewrite (view_resident c d x) by (try reflexivity; assumption)
      end; simpl;
      rewrite <- (Hpk x Hx);
      destruct (Z.leb_spec pg x); destruct (Z.ltb_spec x (pg + PAGE_SIZE)); simpl;
      [ rewrite HB3 by lia;
        destruct (Z.leb_spec off (x - pg)); destruct (Z.ltb_spec (x - pg) (off + n)); simpl;
        destruct (Z.leb_spec a x); destruct (Z.ltb_spec x (a + n)); simpl;
        try lia; f_equal; lia
      | destruct (Z.leb_spec a x); destruct (Z.ltb_spec x (a + n)); simpl;
        try lia; reflexivity .. ]).
Qed.

(** A pass of [SetData] over a byte memory, through the buffer or past it:
    it goes on, after [n] bytes, with an object that shows the [n] bytes
    written and every other byte as before. *)
Lemma SetData_body_view (data : list byte) (a len : Z) (s : St) :
  cache_wf (cache s) ->
  0 <= a < 2 ^ 32 -> 0 <= len -> a + len <= 2 ^ 32 ->
  (Z.to_nat len <= length data)%nat ->
  off_resident_page PAGE_SIZE (cache s) a len ->
  exists (n : Z) (s1 : St),
    0 <= n <= len /\ (0 < len -> 0 < n) /\
    SetData_body PAGE_SIZE None data a len s =
      (inr (drop (Z.to_nat n) data, wrap (a + n), len - n), s1) /\
    cache_wf (cache s1) /\
    (0 < len - n -> off_resident_page PAGE_SIZE (cache s1) (a + n) (len - n)) /\
    forall x, 0 <= x < 2 ^ 32 ->
      view (cache s1) (dev s1) x =
        if (a <=? x) && (x <? a + n) then byte_at data (x - a)
        else view (cache s) (dev s) x.
Proof.
  intros Hwf Ha Hl Hal Hdata Hoff.
  pose proof PAGE_SIZE_pos as HP.
  pose proof (Z.mod_pos_bound a PAGE_SIZE HP) as Hm.
  destruct ((a mod PAGE_SIZE =? 0) && (PAGE_SIZE <=? len)) eqn:Hc.
  - (* a whole page, past the buffer *)
    apply andb_true_iff in Hc as [Hal0%Z.eqb_eq HPl%Z.leb_le].
    rewrite (SetData_body_bypass PAGE_SIZE None data a len s Hal0 HPl). cbv zeta.
    pose proof (Write_ok (take (Z.to_nat PAGE_SIZE) data) a PAGE_SIZE (dev s)) as Hok.
    pose proof (Write_peek (take (Z.to_nat PAGE_SIZE) data) a PAGE_SIZE (dev s)) as Hpk.
    destruct (Write _ a PAGE_SIZE (dev s)) as [ok d']. simpl in Hok, Hpk. subst ok. simpl.
    exists PAGE_SIZE. eexists.
    split; [lia|]. split; [lia|].
    split; [reflexivity|]. simpl.
    split; [assumption|]. split.
    + intros _. destruct Hoff as [He | [Hne | [Hlt | Hlt]]];
        unfold off_resident_page; [tauto | contradiction | right; right; left; lia
                                  | right; right; right; lia].
    + intros x Hx.
      assert (Hin : a <= x < a + PAGE_SIZE -> isInCache_of PAGE_SIZE (cache s) x = false).
      { intros Hxa. unfold isInCache_of. rewrite (page_start_eq x Hx).
        destruct Hoff as [He | [Hne | Hlt]]; [now rewrite He | contradiction |].
        apply andb_false_iff. right. apply Z.eqb_neq.
        rewrite (proj2 (same_page a x Hal0) Hxa). lia. }
      unfold PageCacheClass.view. simpl. rewrite Hpk.
      destruct (Z.leb_spec a x); destruct (Z.ltb_spec x (a + PAGE_SIZE)); simpl;
        try reflexivity.
      rewrite Hin by lia. apply byte_at_take. lia.
  - (* through the buffer *)
    destruct (SetData_body_cache_view data a len s Hwf Ha Hl Hal Hdata Hc)
      as (s2 & Hb & Hwf2 & Hst2 & HA2 & Hv2).
    cbv zeta in Hb. set (n := Z.min (PAGE_SIZE - a mod PAGE_SIZE) len) in *.
    exists n, s2.
    split; [unfold n; lia|]. split; [unfold n; lia|].
    split; [exact Hb|]. split; [exact Hwf2|]. split; [|exact Hv2].
    intros Hpos. unfold off_resident_page. right. right. left.
    rewrite HA2. unfold n in *. lia.
Qed.

(** [SetData] over a byte memory returns [true], and afterwards a read
    through the cache finds the bytes written in the range of the request and
    what it found before everywhere else. *)
Lemma SetData_loop_view (fuel : nat) :
  forall (data : list byte) (a len : Z) (s : St),
    cache_wf (cache s) ->
    0 <= a < 2 ^ 32 -> 0 <= len -> a + len <= 2 ^ 32 ->
    (Z.to_nat len <= length data)%nat ->
    off_resident_page PAGE_SIZE (cache s) a len ->
    (Z.to_nat len < fuel)%nat ->
    let r := SetData_loop PAGE_SIZE fuel None data a len s in
    fst r = Some true /\
    cache_wf (cache (snd r)) /\
    forall x, 0 <= x < 2 ^ 32 ->
      view (cache (snd r)) (dev (snd r)) x =
        if (a <=? x) && (x <? a + len) then byte_at data (x - a)
        else view (cache s) (dev s) x.
Proof.
  induction fuel as [|fuel IH]; intros data a len s Hwf Ha Hl Hal Hdata Hoff Hf; [lia|].
  cbv zeta. simpl. unfold bind.
  destruct (SetData_body_view data a len s Hwf Ha Hl Hal Hdata Hoff)
    as (n & s1 & Hn & Hnpos & Hb & Hwf1 & Hoff1 & Hv1).
  rewrite Hb.
  destruct (Z.ltb_spec 0 (len - n)) as [Hpos|Hpos].
  - assert (Hw : wrap (a + n) = a + n) by (unfold wrap; apply Z.mod_small; lia).
    rewrite Hw.
    destruct (IH (drop (Z.to_nat n) data) (a + n) (len - n) s1) as (Hr & Hwf2 & Hv2);
      try assumption; try lia.
    { rewrite length_drop. lia. }
    { auto. }
    split; [exact Hr|]. split; [exact Hwf2|].
    intros x Hx. rewrite (Hv2 x Hx), (Hv1 x Hx).
    destruct (Z.leb_spec (a + n) x); destruct (Z.ltb_spec x (a + n + (len - n))); simpl;
      destruct (Z.leb_spec a x); destruct (Z.ltb_spec x (a + n)); simpl;
      destruct (Z.ltb_spec x (a + len)); simpl; try reflexivity; try lia.
    rewrite byte_at_drop by lia. f_equal. lia.
  - unfold ret. simpl. split; [reflexivity|]. split; [exact Hwf1|].
    intros x Hx. rewrite (Hv1 x Hx). replace n with len by lia. reflexivity.
Qed.

(** ** Write, then read *)

(** C1, as the code has it.  Over a byte memory and without a callback, a
    request that does not write the resident page as a whole page past the
    buffer returns [true]; then [GetData] over the range of the request
    returns the bytes written, and [GetData] of any byte outside the range
    returns what it returned before the write, which is the byte of the
    device when the slot was empty. *)
Theorem SetData_GetData_coherence (data : list byte) (a len : Z) (s : St) :
  cache_wf (cache s) ->
  0 <= a < 2 ^ 32 -> 0 <= len -> a + len <= 2 ^ 32 ->
  length data = Z.to_nat len ->
  off_resident_page PAGE_SIZE (cache s) a len ->
  let r := SetData PAGE_SIZE data a len None s in
  fst r = Some true /\
  fst (GetData PAGE_SIZE a len (snd r)) = Some (true, data) /\
  (forall x, 0 <= x < 2 ^ 32 -> ~ (a <= x < a + len) ->
     fst (GetData PAGE_SIZE x 1 (snd r)) = fst (GetData PAGE_SIZE x 1 s) /\
     fst (GetData PAGE_SIZE x 1 s) = Some (true, [view (cache s) (dev s) x])) /\
  (m_Status (cache s) = Empty ->
   forall x, view (cache s) (dev s) x = peek (dev s) x).
Proof.
  intros Hwf Ha Hl Hal Hdata Hoff. cbv zeta. unfold SetData.
  destruct (SetData_loop_view (S (Z.to_nat len)) data a len s Hwf Ha Hl Hal
              ltac:(lia) Hoff ltac:(lia)) as (Hr & Hwf' & Hv).
  set (r := SetData_loop PAGE_SIZE (S (Z.to_nat len)) None data a len s) in *.
  split; [exact Hr|]. split; [|split].
  - unfold GetData.
    destruct (GetData_loop_view (S (Z.to_nat len)) a len (snd r) (proj1 Hwf') Ha Hl Hal
                ltac:(lia)) as (Hg & _ & _).
    rewrite Hg. do 3 f_equal. symmetry. apply bytes_eq_map_seqZ; [assumption|].
    intros i Hi. rewrite Hv by lia.
    destruct (Z.leb_spec a (a + i)); destruct (Z.ltb_spec (a + i) (a + len)); simpl; try lia.
    f_equal. lia.
  - intros x Hx Hout. unfold GetData.
    destruct (GetData_loop_view (S (Z.to_nat 1)) x 1 (snd r) (proj1 Hwf') Hx
                ltac:(lia) ltac:(lia) ltac:(lia)) as (Hg & _ & _).
    destruct (GetData_loop_view (S (Z.to_nat 1)) x 1 s (proj1 Hwf) Hx
                ltac:(lia) ltac:(lia) ltac:(lia)) as (Hg0 & _ & _).
    rewrite Hg, Hg0. split; [|reflexivity].
    change (seqZ x 1) with [x]. simpl. do 3 f_equal. rewrite Hv by lia.
    destruct (Z.leb_spec a x); destruct (Z.ltb_spec x (a + len)); simpl; try lia; reflexivity.
  - intros Hst x. apply view_Empty. exact Hst.
Qed.

End CacheCoherence.

(** * The bytes that [Clear] discards *)

Lemma length_memcpy_le (buf src : list byte) (off n : Z) :
  0 <= off -> 0 <= n ->
  (Z.to_nat off + Z.to_nat n <= length buf)%nat ->
  length (memcpy buf off src n) = length buf.
Proof.
  intros Hoff Hn Hbuf. unfold memcpy.
  rewrite !length_app, length_drop, !length_take. lia.
Qed.

Lemma bytes_ext (l1 l2 : list byte) (n : Z) :
  length l1 = Z.to_nat n -> length l2 = Z.to_nat n ->
  (forall i, 0 <= i < n -> byte_at l1 i = byte_at l2 i) ->
  l1 = l2.
Proof.
  intros H1 H2 Hb.
  rewrite (bytes_eq_map_seqZ l1 (byte_at l2) 0 n H1) by (intros i Hi; now apply Hb).
  symmetry. apply bytes_eq_map_seqZ; [assumption | reflexivity].
Qed.

(** A pass of [SetData] on an empty slot overwrites the whole buffer: with
    the bytes [pre] read before the request (when it does not start the
    page), the bytes of the request, and the bytes [suf] read behind it (when
    it does not end the page). *)
Lemma overwritten_buffer (P : Z) (B1 B2 data pre suf : list byte)
    (with_pre with_suf : bool) (off n : Z) :
  length B1 = Z.to_nat P -> length B2 = Z.to_nat P ->
  0 <= off < P -> 0 <= n <= P - off ->
  (Z.to_nat n <= length data)%nat ->
  (if with_pre then length pre = Z.to_nat off else off = 0) ->
  (if with_suf then length suf = Z.to_nat (P - off - n) else n = P - off) ->
  let fill B :=
    let B' := if with_pre then memcpy B 0 pre off else B in
    let B'' := memcpy B' off data n in
    if with_suf then memcpy B'' (off + n) suf (P - off - n) else B'' in
  fill B1 = fill B2.
Proof.
  intros HB1 HB2 Hoff Hn Hdata Hpre Hsuf fill.
  assert (Hfill : forall B, length B = Z.to_nat P ->
    length (fill B) = Z.to_nat P /\
    forall i, 0 <= i < P ->
      byte_at (fill B) i =
        if i <? off then byte_at pre i
        else if i <? off + n then byte_at data (i - off)
        else byte_at suf (i - (off + n))).
  { intros B HB. unfold fill.
    set (B' := if with_pre then memcpy B 0 pre off else B).
    assert (HL' : length B' = Z.to_nat P)
      by (unfold B'; destruct with_pre; [rewrite length_memcpy_le; lia | assumption]).
    assert (HB' : forall i, 0 <= i < off -> byte_at B' i = byte_at pre i).
    { intros i Hi. unfold B'. destruct with_pre; [|lia].
      rewrite byte_at_memcpy by lia.
      destruct (Z.leb_spec 0 i); [|lia]. destruct (Z.ltb_spec i (0 + off)); [|lia].
      simpl. f_equal. lia. }
    set (B'' := memcpy B' off data n).
    assert (HL'' : length B'' = Z.to_nat P)
      by (unfold B''; rewrite length_memcpy_le; lia).
    assert (HB'' : forall i, 0 <= i < off + n ->
              byte_at B'' i = if i <? off then byte_at pre i else byte_at data (i - off)).
    { intros i Hi. unfold B''. rewrite byte_at_memcpy by lia.
      destruct (Z.leb_spec off i); destruct (Z.ltb_spec i (off + n));
        destruct (Z.ltb_spec i off); simpl; try reflexivity; try lia.
      apply HB'. lia. }
    destruct with_suf.
    - split; [rewrite length_memcpy_le; lia|].
      intros i Hi. rewrite byte_at_memcpy by lia.
      destruct (Z.leb_spec (off + n) i).
      + destruct (Z.ltb_spec i (off + n + (P - off - n))); [|lia]. simpl.
        destruct (Z.ltb_spec i off); [lia|]. destruct (Z.ltb_spec i (off + n)); [lia|].
        reflexivity.
      + simpl. rewrite HB'' by lia.
        destruct (Z.ltb_spec i off); [reflexivity|].
        destruct (Z.ltb_spec i (off + n)); [reflexivity | lia].
    - split; [assumption|].
      intros i Hi. rewrite HB'' by lia.
      destruct (Z.ltb_spec i off); [reflexivity|].
      destruct (Z.ltb_spec i (off + n)); [reflexivity | lia]. }
  destruct (Hfill B1 HB1) as [HL1 Hb1]. destruct (Hfill B2 HB2) as [HL2 Hb2].
  apply (bytes_ext _ _ P HL1 HL2). intros i Hi. now rewrite Hb1, Hb2.
Qed.

Section Discard.

Import PageCacheClass.

Context {Dev : Type} `{Backing Dev}.

Variable PAGE_SIZE : Z.
Variable k : Z.
Hypothesis k_range : 0 <= k < 32.
Hypothesis PAGE_SIZE_pow2 : PAGE_SIZE = 2 ^ k.

(** A read that succeeds stores as many bytes as it was asked for. *)
Hypothesis Read_fills : forall (address len : Z) (d : Dev),
  0 <= len -> fst (fst (Read address len d)) = true ->
  length (snd (fst (Read address len d))) = Z.to_nat len.

Local Abbreviation St := (@St Dev).
Local Abbreviation same_but_discarded := (@same_but_discarded Dev PAGE_SIZE).

Lemma same_but_discarded_refl (s : St) : same_but_discarded s s.
Proof. repeat split. now left. Qed.

Lemma same_but_discarded_eq (s1 s2 : St) :
  dev s1 = dev s2 -> log s1 = log s2 -> cache s1 = cache s2 -> s1 = s2.
Proof. destruct s1, s2. simpl. now intros -> -> ->. Qed.

Lemma Flush_discarded (callback : option PreFlushCallbackStruct) (s1 s2 : St) :
  same_but_discarded s1 s2 ->
  fst (Flush PAGE_SIZE callback s1) = fst (Flush PAGE_SIZE callback s2) /\
  same_but_discarded (snd (Flush PAGE_SIZE callback s1)) (snd (Flush PAGE_SIZE callback s2)).
Proof.
  intros (Hd & Hl & [Hc | (E1 & E2 & L1 & L2)]).
  - rewrite (same_but_discarded_eq s1 s2 Hd Hl Hc).
    split; [reflexivity | apply same_but_discarded_refl].
  - rewrite !Flush_not_Dirty by congruence. simpl.
    split; [reflexivity|]. repeat split; auto.
Qed.

Lemma GetData_loop_discarded (fuel : nat) :
  forall (address len : Z) (s1 s2 : St),
    same_but_discarded s1 s2 ->
    fst (GetData_loop PAGE_SIZE fuel address len s1)
      = fst (GetData_loop PAGE_SIZE fuel address len s2) /\
    same_but_discarded (snd (GetData_loop PAGE_SIZE fuel address len s1))
                       (snd (GetData_loop PAGE_SIZE fuel address len s2)).
Proof.
  induction fuel as [|fuel IH]; intros address len s1 s2 Hs.
  - simpl. split; [reflexivity | exact Hs].
  - destruct Hs as (Hd & Hl & [Hc | (E1 & E2 & L1 & L2)]).
    + rewrite (same_but_discarded_eq s1 s2 Hd Hl Hc).
      split; [reflexivity | apply same_but_discarded_refl].
    + simpl. unfold bind. rewrite !GetData_body_eq. cbv zeta.
      unfold isInCache_of. rewrite E1, E2. simpl. rewrite Hd, Hl.
      destruct (Read address _ (dev s2)) as [[[] bytes] d']; simpl.
      * destruct (0 <? _).
        -- match goal with
           | |- context [GetData_loop _ _ ?a ?n {| cache := cache s1; dev := ?d; log := ?l |}] =>
               destruct (IH a n {| cache := cache s1; dev := d; log := l |}
                                {| cache := cache s2; dev := d; log := l |}) as [Hr Hs']
           end.
           { repeat split. right. simpl. auto. }
           destruct (GetData_loop _ _ _ _ {| cache := cache s1 |}) as [r1 t1].
           destruct (GetData_loop _ _ _ _ {| cache := cache s2 |}) as [r2 t2].
           simpl in Hr, Hs'. subst r2.
           destruct r1 as [[ok rest]|]; simpl; split; auto.
        -- simpl. split; [reflexivity|]. repeat split. right. simpl. auto.
      * split; [reflexivity|]. repeat split. right. simpl. auto.
Qed.

Lemma SetData_body_discarded (callback : option PreFlushCallbackStruct)
    (data : list byte) (a len : Z) (s1 s2 : St) :
  same_but_discarded s1 s2 ->
  0 <= a < 2 ^ 32 -> 0 <= len -> (Z.to_nat len <= length data)%nat ->
  fst (SetData_body PAGE_SIZE callback data a len s1)
    = fst (SetData_body PAGE_SIZE callback data a len s2) /\
  same_but_discarded (snd (SetData_body PAGE_SIZE callback data a len s1))
                     (snd (SetData_body PAGE_SIZE callback data a len s2)).
Proof.
  intros (Hd & Hl & [Hc | (E1 & E2 & L1 & L2)]) Ha Hlen Hdata.
  { rewrite (same_but_discarded_eq s1 s2 Hd Hl Hc).
    split; [reflexivity | apply same_but_discarded_refl]. }
  pose proof (PAGE_SIZE_pos PAGE_SIZE k k_range PAGE_SIZE_pow2) as HP.
  pose proof (Z.mod_pos_bound a PAGE_SIZE HP) as Hm.
  pose proof (page_start_eq PAGE_SIZE k k_range PAGE_SIZE_pow2 a Ha) as Hps.
  destruct s1 as [[A1 st1 B1] d1 l1], s2 as [[A2 st2 B2] d2 l2]. simpl in *.
  subst st1 st2 d1 l1.
  unfold SetData_body.
  destruct ((a mod PAGE_SIZE =? 0) && (PAGE_SIZE <=? len)) eqn:Hcond.
  - unfold bind, call_Write, ret. simpl.
    destruct (Write _ a PAGE_SIZE d2) as [[] d']; simpl;
      (split; [reflexivity|]); repeat split; right; simpl; auto.
  - unfold setAddress, bind, get_Status, isInCache, isInCache_of, set_Address,
      get_Address, get_Buffer, set_Buffer, set_Status, Read_to_Buffer, call_Read, ret.
    simpl. rewrite Hps.
    set (off := a mod PAGE_SIZE) in *.
    set (n := Z.min (PAGE_SIZE - off) len).
    assert (Hn : 0 <= n <= PAGE_SIZE - off) by (unfold n; lia).
    assert (Hnl : n <= len) by (unfold n; lia).
    (* the read before the request *)
    assert (Hpre : exists (with_pre ok1 : bool) (pre : list byte) (d' : Dev) (l' : list Event),
      (if with_pre then ok1 = true -> length pre = Z.to_nat off else off = 0 /\ ok1 = true) /\
      forall B : list byte,
        (if negb (a - off =? a)
         then bind (fun s : St =>
                      let '(ok, bytes, d) := Read (a - off) off (dev s) in
                      (ok, bytes, {| cache := cache s; dev := d;
                                     log := log s ++ [EvRead (a - off) off] |}))
                   (fun r => bind get_Buffer
                      (fun b => bind (set_Buffer (memcpy b 0 (snd r) off))
                         (fun _ s => (fst r, s))))
         else fun s => (true, s))
          {| cache := {| m_Address := a - off; m_Status := Empty; m_Buffer := B |};
             dev := d2; log := l2 |}
        = (ok1, {| cache := {| m_Address := a - off; m_Status := Empty;
                               m_Buffer := if with_pre then memcpy B 0 pre off else B |};
                   dev := d'; log := l' |})).
    { destruct (Z.eqb_spec (a - off) a) as [He|He]; simpl.
      - exists false, true, [], d2, l2. split; [split; [lia | reflexivity]|].
        intros B. reflexivity.
      - pose proof (Read_fills (a - off) off d2 ltac:(lia)) as Hf.
        destruct (Read (a - off) off d2) as [[ok1 pre] d'] eqn:HR. simpl in Hf.
        exists true, ok1, pre, d', (l2 ++ [EvRead (a - off) off]).
        split; [exact Hf|]. intros B.
        unfold bind, get_Buffer, set_Buffer. simpl. rewrite HR. reflexivity. }
    destruct Hpre as (with_pre & ok1 & pre & d' & l' & Hpre & Hrun).
    rewrite !Hrun. clear Hrun.
    destruct ok1; simpl.
    2:{ split; [reflexivity|]. repeat split. right. simpl.
        destruct with_pre; [|destruct Hpre; discriminate].
        rewrite !length_memcpy_le by lia. auto. }
    (* the read behind the request *)
    set (a' := wrap (wrap (a - off + off) + n)).
    destruct (Z.ltb_spec n (PAGE_SIZE - off)) as [Hlt|Hge].
    + pose proof (Read_fills a' (PAGE_SIZE - off - n) d' ltac:(lia)) as Hf.
      unfold bind, get_Buffer, set_Buffer. simpl.
      destruct (Read a' (PAGE_SIZE - off - n) d') as [[ok2 suf] d''] eqn:HR. simpl in Hf.
      simpl. destruct ok2; simpl.
      * split; [reflexivity|]. repeat split. left. simpl. f_equal.
        apply (overwritten_buffer PAGE_SIZE B1 B2 data pre suf with_pre true off n);
          try assumption; try lia; try (now apply Hf).
        destruct with_pre; [auto | tauto].
      * split; [reflexivity|]. repeat split. right. simpl.
        assert (HLB : forall B, length B = Z.to_nat PAGE_SIZE ->
          length (memcpy (memcpy (if with_pre then memcpy B 0 pre off else B) off data n)
                    (off + n) suf (PAGE_SIZE - off - n)) = Z.to_nat PAGE_SIZE).
        { intros B HB.
          assert (length (if with_pre then memcpy B 0 pre off else B) = Z.to_nat PAGE_SIZE)
            by (destruct with_pre; [rewrite length_memcpy_le; lia | assumption]).
          rewrite !length_memcpy_le; rewrite ?length_memcpy_le; lia. }
        auto.
    + simpl. split; [reflexivity|]. repeat split. left. simpl. f_equal.
      apply (overwritten_buffer PAGE_SIZE B1 B2 data pre [] with_pre false off n);
        try assumption; try lia.
      destruct with_pre; [auto | tauto].
Qed.

(** What a pass of [SetData] goes on with. *)
Lemma SetData_body_next (callback : option PreFlushCallbackStruct)
    (data data' : list byte) (a a' len len' : Z) (s s' : St) :
  0 <= len ->
  SetData_body PAGE_SIZE callback data a len s = (inr (data', a', len'), s') ->
  exists n, 0 <= n <= len /\
    data' = drop (Z.to_nat n) data /\ a' = wrap (a + n) /\ len' = len - n.
Proof.
  intros Hlen Hb.
  pose proof (PAGE_SIZE_pos PAGE_SIZE k k_range PAGE_SIZE_pow2) as HP.
  pose proof (Z.mod_pos_bound a PAGE_SIZE HP) as Hm.
  clear k_range PAGE_SIZE_pow2 Read_fills.
  unfold SetData_body, bind, ret in Hb.
  destruct ((a mod PAGE_SIZE =? 0) && (PAGE_SIZE <=? len)) eqn:Hc.
  - apply andb_true_iff in Hc as [_ Hc%Z.leb_le].
    destruct (call_Write _ _ _ s) as [[] s1]; simpl in Hb; simplify_eq.
    exists PAGE_SIZE. repeat split; lia.
  - destruct (setAddress _ _ _ s) as [[] s1]; simpl in Hb; [|discriminate].
    repeat match type of Hb with
           | (let (_, _) := ?c in _) = _ =>
               destruct c as [[] ?]; simpl in Hb; [|discriminate]
           end.
    simplify_eq. eexists. split; [|repeat split]. lia.
Qed.

Lemma SetData_loop_discarded (callback : option PreFlushCallbackStruct) (fuel : nat) :
  forall (data : list byte) (a len : Z) (s1 s2 : St),
    same_but_discarded s1 s2 ->
    0 <= a < 2 ^ 32 -> 0 <= len -> (Z.to_nat len <= length data)%nat ->
    fst (SetData_loop PAGE_SIZE fuel callback data a len s1)
      = fst (SetData_loop PAGE_SIZE fuel callback data a len s2) /\
    same_but_discarded (snd (SetData_loop PAGE_SIZE fuel callback data a len s1))
                       (snd (SetData_loop PAGE_SIZE fuel callback data a len s2)).
Proof.
  induction fuel as [|fuel IH]; intros data a len s1 s2 Hs Ha Hlen Hdata.
  - simpl. split; [reflexivity | exact Hs].
  - simpl. unfold bind.
    destruct (SetData_body_discarded callback data a len s1 s2 Hs Ha Hlen Hdata)
      as [Hr Hs'].
    destruct (SetData_body PAGE_SIZE callback data a len s1) as [r1 t1] eqn:Hb1.
    destruct (SetData_body PAGE_SIZE callback data a len s2) as [r2 t2] eqn:Hb2.
    simpl in Hr, Hs'. subst r2.
    destruct r1 as [b | [[data' a'] len']].
    + simpl. split; [reflexivity | exact Hs'].
    + destruct (0 <? len').
      * destruct (SetData_body_next _ _ _ _ _ _ _ _ _ Hlen Hb1) as (n & Hn & -> & -> & ->).
        apply IH; try assumption; try lia.
        -- unfold wrap. apply Z.mod_pos_bound. lia.
        -- rewrite length_drop. lia.
      * simpl. split; [reflexivity | exact Hs'].
Qed.

(** The replies to a sequence of calls, and what the calls do to the device,
    do not depend on the bytes of an empty buffer. *)
Lemma serve_discarded (q : Request) (s1 s2 : St) :
  same_but_discarded s1 s2 -> Request_ok q ->
  fst (serve PAGE_SIZE q s1) = fst (serve PAGE_SIZE q s2) /\
  same_but_discarded (snd (serve PAGE_SIZE q s1)) (snd (serve PAGE_SIZE q s2)).
Proof.
  intros Hs Hq. destruct q as [data a len callback | a len | callback |]; simpl; unfold bind.
  - destruct Hq as (Ha & Hlen & Hdata).
    destruct (SetData_loop_discarded callback (S (Z.to_nat len)) data a len s1 s2
                Hs Ha Hlen Hdata) as [Hr Hs'].
    unfold SetData.
    destruct (SetData_loop _ _ _ _ _ _ s1) as [r1 t1].
    destruct (SetData_loop _ _ _ _ _ _ s2) as [r2 t2].
    simpl in *. now subst.
  - destruct (GetData_loop_discarded (S (Z.to_nat len)) a len s1 s2 Hs) as [Hr Hs'].
    unfold GetData.
    destruct (GetData_loop _ _ _ _ s1) as [r1 t1].
    destruct (GetData_loop _ _ _ _ s2) as [r2 t2].
    simpl in *. now subst.
  - destruct (Flush_discarded callback s1 s2 Hs) as [Hr Hs'].
    destruct (Flush _ _ s1) as [r1 t1]. destruct (Flush _ _ s2) as [r2 t2].
    simpl in *. now subst.
  - unfold Clear, set_Status, ret. simpl. split; [reflexivity|].
    destruct Hs as (Hd & Hl & [Hc | (E1 & E2 & L1 & L2)]);
      (split; [exact Hd | split; [exact Hl|]]); simpl.
    + left. now rewrite Hc.
    + right. auto.
Qed.

Lemma serve_all_discarded (qs : list Request) :
  forall s1 s2 : St,
    same_but_discarded s1 s2 -> Forall Request_ok qs ->
    fst (serve_all PAGE_SIZE qs s1) = fst (serve_all PAGE_SIZE qs s2) /\
    same_but_discarded (snd (serve_all PAGE_SIZE qs s1)) (snd (serve_all PAGE_SIZE qs s2)).
Proof.
  induction qs as [|q qs IH]; intros s1 s2 Hs Hqs.
  - simpl. split; [reflexivity | exact Hs].
  - apply Forall_cons in Hqs as [Hq Hqs']. simpl. unfold bind.
    destruct (serve_discarded q s1 s2 Hs Hq) as [Hr Hs'].
    destruct (serve PAGE_SIZE q s1) as [r1 t1]. destruct (serve PAGE_SIZE q s2) as [r2 t2].
    simpl in Hr, Hs'. subst r2.
    destruct (IH t1 t2 Hs' Hqs') as [Hrs Hs''].
    destruct (serve_all PAGE_SIZE qs t1) as [rs1 u1].
    destruct (serve_all PAGE_SIZE qs t2) as [rs2 u2].
    simpl in *. now subst.
Qed.

End Discard.

Section ClearProperties.

Import PageCacheClass.

Context {Dev : Type} `{Backing Dev}.

Variable PAGE_SIZE : Z.

Local Abbreviation St := (@St Dev).

(** C10. [Clear] takes the object to [Empty] from any status, touches
    neither the device nor the log, keeps address and buffer, and has no
    failure to report.  The bytes it leaves in the buffer are discarded: the
    next [Flush] writes nothing, no address is in the cache, and (for a page
    size that is a power of two and reads that store what they are asked for)
    the replies to any calls that follow, the device and the calls out are
    what they would be with any other bytes [B] in the buffer. *)
Theorem Clear_discards (s : St) :
  let s' := snd (Clear s) in
  m_Status (cache s') = Empty /\
  m_Address (cache s') = m_Address (cache s) /\
  m_Buffer (cache s') = m_Buffer (cache s) /\
  dev s' = dev s /\
  log s' = log s /\
  (forall callback, Flush PAGE_SIZE callback s' = (true, s')) /\
  (forall address, isInCache_of PAGE_SIZE (cache s') address = false) /\
  (forall k : Z, 0 <= k < 32 -> PAGE_SIZE = 2 ^ k ->
   (forall (address len : Z) (d : Dev),
      0 <= len -> fst (fst (Read address len d)) = true ->
      length (snd (fst (Read address len d))) = Z.to_nat len) ->
   length (m_Buffer (cache s)) = Z.to_nat PAGE_SIZE ->
   forall (B : list byte) (qs : list Request),
     length B = Z.to_nat PAGE_SIZE -> Forall Request_ok qs ->
     let t := {| cache := {| m_Address := m_Address (cache s); m_Status := Empty;
                             m_Buffer := B |};
                 dev := dev s; log := log s |} in
     fst (serve_all PAGE_SIZE qs s') = fst (serve_all PAGE_SIZE qs t) /\
     dev (snd (serve_all PAGE_SIZE qs s')) = dev (snd (serve_all PAGE_SIZE qs t)) /\
     log (snd (serve_all PAGE_SIZE qs s')) = log (snd (serve_all PAGE_SIZE qs t))).
Proof.
  cbv zeta. unfold Clear, set_Status. simpl.
  do 5 (split; [reflexivity|]). split; [|split].
  - intros callback. apply Flush_not_Dirty. simpl. discriminate.
  - intros address. reflexivity.
  - intros k Hk HP Hfills HL B qs HB Hqs.
    match goal with
    | |- fst (serve_all _ _ ?s1) = fst (serve_all _ _ ?s2) /\ _ =>
        destruct (serve_all_discarded PAGE_SIZE k Hk HP Hfills qs s1 s2) as (Hr & Hd & Hl & _)
    end; [|assumption|auto].
    repeat split. right. simpl. auto.
Qed.

End ClearProperties.

(** ** The cache on concrete devices *)

Section CacheRuns.

Import PageCacheClass.

Example one_byte_written_state :
  cache one_byte_written =
    {| m_Address := 0; m_Status := Dirty; m_Buffer := [x00; x07; x00; x00] |} /\
  log one_byte_written = [EvRead 0 1; EvRead 2 2] /\
  peek (dev one_byte_written) 1 = x00.
Proof. repeat split. Qed.

(** C1 fails as the specification words it.  Page 0 is resident and dirty
    with the byte [07] at address 1, which the device does not hold yet; a
    write of one byte at address 2 succeeds, and the read of address 1, not
    written and in the page written, returns [07]: not the byte [00] that the
    device held before the write. *)
Lemma write_read_coherence_unflushed :
  ~ write_read_coherence 4 one_byte_written [x09] 2 1.
Proof.
  unfold write_read_coherence. cbv zeta. intros Hc.
  destruct (Hc eq_refl) as [_ Hx].
  specialize (Hx 1 2 ltac:(lia) ltac:(lia) eq_refl ltac:(lia)).
  vm_compute in Hx. discriminate Hx.
Qed.

(** The case that the coherence theorem leaves out: the request writes the
    resident, dirty page as a whole page.  The bytes go to the device, the
    buffer keeps the old ones, and the read returns the old ones. *)
Example SetData_whole_page_resident :
  let r := SetData 4 [x01; x02; x03; x04] 0 4 None one_byte_written in
  fst r = Some true /\
  cache (snd r) = cache one_byte_written /\
  fst (GetData 4 0 4 (snd r)) = Some (true, [x00; x07; x00; x00]) /\
  map (peek (dev (snd r))) [0; 1; 2; 3] = [x01; x02; x03; x04].
Proof. repeat split. Qed.

(** A request over three pages on the new object: the last byte of page 0,
    page 1 as a whole, two bytes of page 2. *)
Lemma SetData_GetData_coherence_witness :
  let data := [x11; x12; x13; x14; x15; x16; x17] in
  let r := SetData 4 data 3 7 None power_on in
  fst r = Some true /\
  fst (GetData 4 3 7 (snd r)) = Some (true, data) /\
  (forall x, 0 <= x < 2 ^ 32 -> ~ (3 <= x < 3 + 7) ->
     fst (GetData 4 x 1 (snd r)) = fst (GetData 4 x 1 power_on) /\
     fst (GetData 4 x 1 power_on)
       = Some (true, [view 4 (cache power_on) (dev power_on) x])) /\
  (m_Status (cache power_on) = Empty ->
   forall x, view 4 (cache power_on) (dev power_on) x = peek (dev power_on) x).
Proof.
  apply (SetData_GetData_coherence 4 2); try reflexivity; try lia.
  - repeat split; simpl; try lia; discriminate.
  - left. reflexivity.
Defined.

(** A whole page at address 4 on the new object. *)
Lemma SetData_aligned_page_bypass_witness :
  let data := [x01; x02; x03; x04] in
  let r := SetData_body 4 None data 4 4 power_on in
  fst r = inr ([], 8, 0) /\
  cache (snd r) = cache power_on /\
  map (peek (dev (snd r))) [4; 5; 6; 7] = data /\
  log (snd r) = [EvWrite data 4 4].
Proof.
  destruct (SetData_aligned_page_bypass 4 None [x01; x02; x03; x04] 4 4 power_on
              eq_refl ltac:(lia)) as (H1 & H2 & H3 & H4).
  cbv zeta. rewrite H1, H2, H3, H4. repeat split.
Defined.

(** A flush with a callback on a dirty slot over the memory, and a flush on
    the device that fails. *)
Example Flush_with_callback :
  log (snd (Flush 4 (Some {| Callback := Some (fun _ _ _ _ d => d); arg := 99 |})
              one_byte_written))
    = [EvRead 0 1; EvRead 2 2;
       EvCallback [x00; x07; x00; x00] 0 4 99;
       EvWrite [x00; x07; x00; x00] 0 4].
Proof. reflexivity. Qed.

(** [Clear] on the dirty slot, a write of another byte of the page and a
    flush: the byte [07] that was in the buffer does not reach the device. *)
Example Clear_then_write :
  let r := serve_all 4 [ReqClear; ReqSetData [x09] 2 1 None; ReqFlush None]
             one_byte_written in
  fst r = [RepClear; RepSetData (Some true); RepFlush true] /\
  map (peek (dev (snd r))) [0; 1; 2; 3] = [x00; x00; x09; x00].
Proof. repeat split. Qed.

Example Flush_on_Broken :
  let s := {| cache := cache one_byte_written; dev := broken; log := [] |} in
  Flush 4 None s
    = (false, {| cache := cache s; dev := broken;
                 log := [EvWrite [x00; x07; x00; x00] 0 4] |}).
Proof. reflexivity. Qed.

(** A read over the resident page and the next one: four bytes from the
    buffer, four from the device. *)
Example GetData_across_pages :
  GetData 4 0 8 one_byte_written
    = (Some (true, [x00; x07; x00; x00; x00; x00; x00; x00]),
       {| cache := cache one_byte_written; dev := dev one_byte_written;
          log := [EvRead 0 1; EvRead 2 2; EvRead 4 4] |}).
Proof. reflexivity. Qed.

End CacheRuns.

(** * Properties of the single-region reader *)

Section StorageReaderProperties.

Import StorageReaderClass.

Context {Dev : Type} `{Device Dev}.

Variable d : Dev.

(** C3. [IsStorageCorrect] checks in a fixed order and returns at the first
    check that fails: the magic at [address] ([NoStorage]), the data UUID
    sixteen bytes further ([AnotherStorage]), the reads of [Length] and of
    [StorageCrc] ([DeviceError]), the CRC over [Length] bytes behind the
    header ([StorageError]); when none fails it returns [Ok] and [address] is
    the address of the object from then on. *)
Theorem IsStorageCorrect_order (address : Z) (uuid : UUID) (this : Reader) :
  let magic := Compare StorageUUID address sizeof_UUID d in
  let ident := Compare uuid (wrap (address + offsetof_DataUuid)) sizeof_UUID d in
  let len := getLength d address in
  let crc := getCrc d address in
  let sum := CalculateCRC (wrap (address + sizeof_StorageHeaderStruct)) (snd len) d in
  let r := IsStorageCorrect d address uuid this in
  (magic = false -> r = (NoStorage, this)) /\
  (magic = true -> ident = false -> r = (AnotherStorage, this)) /\
  (magic = true -> ident = true -> fst len = false \/ fst crc = false ->
   r = (DeviceError, this)) /\
  (magic = true -> ident = true -> fst len = true -> fst crc = true ->
   snd crc <> sum -> r = (StorageError, this)) /\
  (magic = true -> ident = true -> fst len = true -> fst crc = true ->
   snd crc = sum -> r = (Ok, {| m_Address := address |})).
Proof.
  cbv zeta. unfold IsStorageCorrect, ret.
  destruct (Compare StorageUUID address sizeof_UUID d);
    destruct (Compare uuid _ sizeof_UUID d);
    destruct (getLength d address) as [[] len];
    destruct (getCrc d address) as [[] crc]; simpl;
    try destruct (Z.eqb_spec crc (CalculateCRC (wrap (address + sizeof_StorageHeaderStruct)) len d));
    repeat split; intros; try reflexivity; try discriminate; try congruence;
    repeat match goal with H : _ \/ _ |- _ => destruct H end; try discriminate.
Qed.

(** The outcome [Ok] and the assignment of [m_Address] go together. *)
Lemma IsStorageCorrect_frame (address : Z) (uuid : UUID) (this : Reader) :
  let r := IsStorageCorrect d address uuid this in
  (fst r <> Ok -> snd r = this) /\
  (fst r = Ok -> snd r = {| m_Address := address |}).
Proof.
  cbv zeta. unfold IsStorageCorrect, ret.
  destruct (Compare StorageUUID address sizeof_UUID d); simpl;
    [|split; [reflexivity | discriminate]].
  destruct (Compare uuid _ sizeof_UUID d); simpl;
    [|split; [reflexivity | discriminate]].
  destruct (getLength d address) as [[] len]; simpl;
    [|split; [reflexivity | discriminate]].
  destruct (getCrc d address) as [[] crc]; simpl;
    [|split; [reflexivity | discriminate]].
  destruct (crc =? _); simpl; split; try reflexivity; try discriminate; congruence.
Qed.

(** What [GetData] does when it does not fail: it reads [len + offset] bytes
    from the first byte of the header. *)
Lemma GetData_reads_from_base (this : Reader) (len offset : Z) :
  fst (getLength d (m_Address this)) = true ->
  wrap (len + offset) <= snd (getLength d (m_Address this)) ->
  GetData d this len offset = Read (m_Address this) (wrap (len + offset)) d.
Proof.
  intros Hok Hle. unfold GetData.
  destruct (getLength d (m_Address this)) as [ok n]. simpl in *. subst ok. simpl.
  destruct (Z.gtb_spec (wrap (len + offset)) n); [lia | reflexivity].
Qed.

(** X18. [GetData(data, len, offset)] with [len + offset] past the stored
    [Length], when the sum does not wrap, fails, whatever the device: it
    returns false and stores nothing at [data]. *)
Lemma GetData_out_of_bound (this : Reader) (len offset : Z) :
  0 <= len + offset < 2 ^ 32 ->
  snd (getLength d (m_Address this)) < len + offset ->
  GetData d this len offset = (false, []).
Proof.
  intros Hr Hgt. unfold GetData.
  destruct (getLength d (m_Address this)) as [[] n]; simpl in *; [|reflexivity].
  unfold wrap. rewrite Z.mod_small by lia.
  destruct (Z.gtb_spec (len + offset) n); [reflexivity | lia].
Qed.

End StorageReaderProperties.

Section ReaderRuns.

Import StorageReaderClass.

(** The five outcomes of the check on images: the region, an image of
    zeroes, the region asked for under another UUID, the region cut in its
    [Length] field, and the region with a payload byte changed. *)
Example IsStorageCorrect_outcomes :
  let this := {| m_Address := 7 |} in
  IsStorageCorrect region_image 0 region_uuid this = (Ok, {| m_Address := 0 |}) /\
  IsStorageCorrect (replicate 44 x00) 0 region_uuid this = (NoStorage, this) /\
  IsStorageCorrect region_image 0 StorageUUID this = (AnotherStorage, this) /\
  IsStorageCorrect (take 34 region_image) 0 region_uuid this = (DeviceError, this) /\
  IsStorageCorrect (take 43 region_image ++ [x45]) 0 region_uuid this
    = (StorageError, this).
Proof. repeat split. Qed.

(** C2, on that region: the check accepts it at address 0; then
    [GetData(data, 2, 1)] returns [true] with the first three bytes of the
    magic stored at [data], and not the two payload bytes at offset 1. *)
Theorem GetData_reads_header :
  IsStorageCorrect region_image 0 region_uuid {| m_Address := 7 |}
    = (Ok, {| m_Address := 0 |}) /\
  GetData region_image {| m_Address := 0 |} 2 1 = (true, [xb0; x24; xf2]) /\
  GetData_spec region_image {| m_Address := 0 |} 2 1 = (true, [x22; x33]).
Proof. repeat split. Qed.

End ReaderRuns.

(** * Properties of the page check *)

Section PageStorageProperties.

Import PageStorageClass.

Context {Dev : Type} `{Device Dev}.

Variable d : Dev.

(** X17. [getMetrics] fails exactly when one of its four reads, of
    [TotalLength], [PageOffset], [PageLength] and [PageCrc], fails. *)
Lemma getMetrics_None (address : Z) :
  getMetrics d address = None <->
  Exists (fun off => fst (Read (wrap (address + off)) 4 d) = false)
    [offsetof_TotalLength; offsetof_PageOffset; offsetof_PageLength; offsetof_PageCrc].
Proof.
  unfold getMetrics. rewrite !Exists_cons, Exists_nil.
  destruct (Read (wrap (address + offsetof_TotalLength)) 4 d) as [[] b1];
    destruct (Read (wrap (address + offsetof_PageOffset)) 4 d) as [[] b2];
    destruct (Read (wrap (address + offsetof_PageLength)) 4 d) as [[] b3];
    destruct (Read (wrap (address + offsetof_PageCrc)) 4 d) as [[] b4];
    simpl; split; intros; try discriminate; try tauto;
    repeat match goal with H : _ \/ _ |- _ => destruct H end;
    try discriminate; try contradiction.
Qed.

(** C4. After the magic and the data UUID have matched: with
    [DontCheckMetrics] clear, a failed read of the metrics gives
    [DeviceError] and metrics out of one of the three bounds give [Error];
    with [DontCheckCrc] clear as well, a CRC over [PageLength] bytes behind
    the header that differs from [PageCrc] gives [Error]; with
    [DontCheckMetrics] set neither the metrics nor the CRC are looked at.
    The first bound is [getMaxPageLength pageLen], which is
    [pageLen - sizeof(PageHeaderStruct)] for a [pageLen] of at least the
    header, as the parameter is documented. *)
Theorem isPageCorrect_option_gating (address pageLen : Z) (options : CheckOptions)
    (this : PageStorage) :
  Compare PageStorageUUID address sizeof_UUID d = true ->
  Compare (m_Uuid this) (wrap (address + offsetof_DataUuid)) sizeof_UUID d = true ->
  let r := isPageCorrect d address pageLen options this in
  let accepted := (Ok, {| m_Uuid := m_Uuid this; m_Address := address |}) in
  let sum m := CalculatePageCRC (wrap (address + sizeof_PageHeaderStruct)) (PageLength m) d in
  (DontCheckMetrics options = false ->
   getMetrics d address = None -> r = (DeviceError, this)) /\
  (forall m, DontCheckMetrics options = false ->
   getMetrics d address = Some m ->
   ~ metrics_in_bounds m pageLen -> r = (Error, this)) /\
  (forall m, DontCheckMetrics options = false ->
   getMetrics d address = Some m ->
   metrics_in_bounds m pageLen ->
   DontCheckCrc options = false -> PageCrc m <> sum m -> r = (Error, this)) /\
  (forall m, DontCheckMetrics options = false ->
   getMetrics d address = Some m ->
   metrics_in_bounds m pageLen ->
   DontCheckCrc options = true \/ PageCrc m = sum m -> r = accepted) /\
  (DontCheckMetrics options = true -> r = accepted) /\
  (sizeof_PageHeaderStruct <= pageLen < 2 ^ 32 ->
   getMaxPageLength pageLen = pageLen - sizeof_PageHeaderStruct).
Proof.
  intros Hmagic Hident. cbv zeta. unfold isPageCorrect, metrics_in_bounds.
  rewrite Hmagic, Hident. simpl.
  repeat split.
  - intros -> ->. reflexivity.
  - intros m -> -> Hb. simpl.
    destruct (Z.gtb_spec (PageLength m) (getMaxPageLength pageLen)); [reflexivity|].
    destruct (Z.gtb_spec (PageLength m) (TotalLength m)); [reflexivity|].
    destruct (Z.gtb_spec (PageOffset m) (TotalLength m)); [reflexivity|].
    exfalso. apply Hb. lia.
  - intros m -> -> (H1 & H2 & H3) -> Hcrc. simpl.
    destruct (Z.gtb_spec (PageLength m) (getMaxPageLength pageLen)); [lia|].
    destruct (Z.gtb_spec (PageLength m) (TotalLength m)); [lia|].
    destruct (Z.gtb_spec (PageOffset m) (TotalLength m)); [lia|]. simpl.
    destruct (Z.eqb_spec (PageCrc m)
                (CalculatePageCRC (wrap (address + sizeof_PageHeaderStruct)) (PageLength m) d));
      [contradiction | reflexivity].
  - intros m -> -> (H1 & H2 & H3) Hcrc. simpl.
    destruct (Z.gtb_spec (PageLength m) (getMaxPageLength pageLen)); [lia|].
    destruct (Z.gtb_spec (PageLength m) (TotalLength m)); [lia|].
    destruct (Z.gtb_spec (PageOffset m) (TotalLength m)); [lia|]. simpl.
    destruct Hcrc as [-> | ->]; simpl; [reflexivity|].
    rewrite Z.eqb_refl. now rewrite andb_false_r.
  - intros ->. reflexivity.
  - intros Hp. unfold getMaxPageLength, wrap. apply Z.mod_small.
    unfold sizeof_PageHeaderStruct in *. lia.
Qed.

(** The outcome [Ok] and the assignment of [m_Address] go together. *)
Lemma isPageCorrect_frame (address pageLen : Z) (options : CheckOptions)
    (this : PageStorage) :
  let r := isPageCorrect d address pageLen options this in
  (fst r <> Ok -> snd r = this) /\
  (fst r = Ok -> snd r = {| m_Uuid := m_Uuid this; m_Address := address |}).
Proof.
  cbv zeta. unfold isPageCorrect.
  destruct (Compare PageStorageUUID address sizeof_UUID d); simpl;
    [|split; [reflexivity | discriminate]].
  destruct (Compare (m_Uuid this) _ sizeof_UUID d); simpl;
    [|split; [reflexivity | discriminate]].
  destruct (DontCheckMetrics options); simpl;
    [split; [intros []; reflexivity | reflexivity]|].
  destruct (getMetrics d address) as [m|]; [|split; [reflexivity | discriminate]].
  destruct (_ || _); [split; [reflexivity | discriminate]|].
  destruct (_ && _); simpl; split; try reflexivity; try discriminate.
  intros []; reflexivity.
Qed.

End PageStorageProperties.

Section PageRuns.

Import PageStorageClass.

(** The page of [page_image] in a page of 64 bytes, under the default
    options. *)
Lemma isPageCorrect_option_gating_witness :
  let this := {| m_Uuid := StorageReaderClass.region_uuid; m_Address := 7 |} in
  isPageCorrect page_image 0 64 CheckOptions_default this
    = (Ok, {| m_Uuid := StorageReaderClass.region_uuid; m_Address := 0 |}) /\
  isPageCorrect page_image_long 0 64 CheckOptions_default this = (Error, this) /\
  isPageCorrect page_image_long 0 64
      {| DontCheckCrc := false; DontCheckMetrics := true |} this
    = (Ok, {| m_Uuid := StorageReaderClass.region_uuid; m_Address := 0 |}) /\
  getMaxPageLength 64 = 64 - sizeof_PageHeaderStruct.
Proof.
  cbv zeta.
  destruct (@isPageCorrect_option_gating _ Image_Device page_image 0 64 CheckOptions_default
              {| m_Uuid := StorageReaderClass.region_uuid; m_Address := 7 |}
              eq_refl eq_refl) as (_ & _ & _ & Hok & _ & Hmax).
  destruct (@isPageCorrect_option_gating _ Image_Device page_image_long 0 64 CheckOptions_default
              {| m_Uuid := StorageReaderClass.region_uuid; m_Address := 7 |}
              eq_refl eq_refl) as (_ & Herr & _).
  destruct (@isPageCorrect_option_gating _ Image_Device page_image_long 0 64
              {| DontCheckCrc := false; DontCheckMetrics := true |}
              {| m_Uuid := StorageReaderClass.region_uuid; m_Address := 7 |}
              eq_refl eq_refl) as (_ & _ & _ & _ & Hskip & _).
  split; [|split; [|split]].
  - apply (Hok {| TotalLength := 4; PageOffset := 0; PageLength := 4; PageCrc := 170 |});
      [reflexivity | reflexivity | | right; reflexivity].
    unfold metrics_in_bounds. simpl. vm_compute. repeat split; discriminate.
  - apply (Herr {| TotalLength := 4; PageOffset := 0; PageLength := 5; PageCrc := 170 |});
      [reflexivity | reflexivity |].
    unfold metrics_in_bounds. simpl. lia.
  - apply Hskip. reflexivity.
  - apply Hmax. unfold sizeof_PageHeaderStruct. lia.
Defined.

End PageRuns.

(** C9. Both checks assign the address of the object when they return [Ok]
    and only then: after every other outcome the object is the one it was
    before the call. *)
Theorem validators_failure_frame
    {Dev1 : Type} `{StorageReaderClass.Device Dev1}
    {Dev2 : Type} `{PageStorageClass.Device Dev2} :
  (forall (d : Dev1) (address : Z) (uuid : UUID) (this : StorageReaderClass.Reader),
     let r := StorageReaderClass.IsStorageCorrect d address uuid this in
     (fst r <> StorageReaderClass.Ok -> snd r = this) /\
     (fst r = StorageReaderClass.Ok ->
      snd r = {| StorageReaderClass.m_Address := address |})) /\
  (forall (d : Dev2) (address pageLen : Z) (options : PageStorageClass.CheckOptions)
          (this : PageStorageClass.PageStorage),
     let r := PageStorageClass.isPageCorrect d address pageLen options this in
     (fst r <> PageStorageClass.Ok -> snd r = this) /\
     (fst r = PageStorageClass.Ok ->
      snd r = {| PageStorageClass.m_Uuid := PageStorageClass.m_Uuid this;
                 PageStorageClass.m_Address := address |})).
Proof.
  split.
  - intros. apply IsStorageCorrect_frame.
  - intros. apply isPageCorrect_frame.
Qed.

(** * The writer of a region, and the reader on what it wrote *)

Lemma Z_of_byte_of_Z (z : Z) : Z_of_byte (byte_of_Z z) = z mod 256.
Proof.
  unfold Z_of_byte, byte_of_Z.
  assert (Hm : 0 <= z mod 256 < 256) by (apply Z.mod_pos_bound; lia).
  destruct (Byte.of_N (Z.to_N (z mod 256))) as [b|] eqn:E; simpl.
  - apply Byte.to_of_N in E. rewrite E. apply Z2N.id. lia.
  - apply Byte.of_N_None_iff in E. lia.
Qed.

Lemma length_le_encode (n : nat) (v : Z) : length (le_encode n v) = n.
Proof. revert v. induction n as [|n IH]; intros v; simpl; [reflexivity | now rewrite IH]. Qed.

Lemma le_decode_encode (n : nat) (v : Z) :
  0 <= v < 256 ^ Z.of_nat n -> le_decode (le_encode n v) = v.
Proof.
  revert v. induction n as [|n IH]; intros v Hv.
  - simpl in *. lia.
  - simpl le_encode. simpl le_decode. rewrite Z_of_byte_of_Z, IH.
    + pose proof (Z.div_mod v 256 ltac:(lia)). lia.
    + rewrite Nat2Z.inj_succ, Z.pow_succ_r in Hv by lia.
      split; [apply Z.div_pos; lia | apply Z.div_lt_upper_bound; lia].
Qed.

Lemma le_uint32_encode (v : Z) : 0 <= v < 2 ^ 32 -> le_uint32 (le_encode 4 v) = v.
Proof.
  intros Hv. unfold le_uint32.
  rewrite take_ge by (rewrite length_le_encode; lia).
  apply le_decode_encode. exact Hv.
Qed.

(** The bytes that a memory holds where the bytes of [l] were stored. *)
Lemma stored_bytes (f : Z -> byte) (l : list byte) (a n : Z) :
  (Z.to_nat n <= length l)%nat ->
  (forall i, 0 <= i < n -> f (a + i) = byte_at l i) ->
  map f (seqZ a n) = take (Z.to_nat n) l.
Proof.
  intros Hl Hf. symmetry. apply bytes_eq_map_seqZ.
  - rewrite length_take. lia.
  - intros i Hi. rewrite byte_at_take by lia. symmetry. now apply Hf.
Qed.

Lemma take_map_seqZ {A : Type} (f : Z -> A) (a m k : Z) :
  0 <= k <= m -> take (Z.to_nat k) (map f (seqZ a m)) = map f (seqZ a k).
Proof.
  intros Hk. replace m with (k + (m - k)) by lia.
  rewrite seqZ_app by lia. rewrite map_app.
  apply take_app_length'. rewrite length_map, length_seqZ. reflexivity.
Qed.

Section WriterProperties.

Import StorageWriterClass.

Context {Dev : Type} `{StorageReaderClass.Device Dev} `{Device Dev}.

Local Abbreviation St := (@St Dev).


End WriterProperties.

Section WriterReader.

Import StorageWriterClass.

Context {Dev : Type} `{Memory Dev}.

Local Abbreviation St := (@St Dev).

Lemma call_Write_Memory (data : list byte) (len address : Z) (s : St) :
  call_Write data len address s =
    (true, {| dev := snd (Write data len address (dev s));
              log := log s ++ [{| call_data := data; call_len := len;
                                  call_address := address |}] |}).
Proof.
  unfold call_Write. pose proof (Write_ok data len address (dev s)) as Hok.
  destruct (Write data len address (dev s)) as [ok d]. simpl in Hok. now subst ok.
Qed.

Local Ltac split_ranges :=
  repeat match goal with
         | |- context [(?p <=? ?q) && (?u <? ?v)] =>
             destruct (Z.leb_spec p q); destruct (Z.ltb_spec u v);
             cbn [andb]; try lia
         end.

(** The region as the five writes leave it. *)
Lemma SetData_region (this : Writer) (data : list byte) (len crc : Z) (s : St) :
  length (m_Uuid this) = 16%nat ->
  0 <= m_Address this -> 0 <= len ->
  m_Address this + 40 + len < 2 ^ 32 ->
  (Z.to_nat len <= length data)%nat ->
  let a := m_Address this in
  let r := SetData this data len crc s in
  fst r = true /\
  log (snd r) = log s ++ SetData_calls this data len crc /\
  map (peek (dev (snd r))) (seqZ a 16) = StorageReaderClass.StorageUUID /\
  map (peek (dev (snd r))) (seqZ (a + 16) 16) = m_Uuid this /\
  map (peek (dev (snd r))) (seqZ (a + 32) 4) = le_encode 4 len /\
  map (peek (dev (snd r))) (seqZ (a + 36) 4) = le_encode 4 crc /\
  map (peek (dev (snd r))) (seqZ (a + 40) len) = take (Z.to_nat len) data /\
  forall x, ~ (a <= x < a + 40 + len) -> peek (dev (snd r)) x = peek (dev s) x.
Proof.
  intros Hu Ha Hlen Hend Hdata. cbv zeta.
  set (a := m_Address this) in *.
  assert (Hw : forall o, 0 <= o <= 40 -> wrap (a + o) = a + o)
    by (intros o Ho; unfold wrap; apply Z.mod_small; lia).
  unfold SetData, SetData_calls, bind, ret.
  unfold StorageReaderClass.offsetof_DataUuid, StorageReaderClass.offsetof_Length,
    StorageReaderClass.offsetof_StorageCrc, StorageReaderClass.sizeof_StorageHeaderStruct,
    sizeof_UUID. fold a.
  rewrite !Hw by lia.
  rewrite !call_Write_Memory. cbn [negb fst snd dev log].
  rewrite !call_Write_Memory. cbn [negb fst snd dev log].
  rewrite !call_Write_Memory. cbn [negb fst snd dev log].
  rewrite !call_Write_Memory. cbn [negb fst snd dev log].
  rewrite !call_Write_Memory. cbn [negb fst snd dev log].
  split; [reflexivity|]. split; [now rewrite <- !app_assoc|].
  assert (HS : length StorageReaderClass.StorageUUID = 16%nat) by reflexivity.
  repeat split.
  - rewrite <- (take_ge StorageReaderClass.StorageUUID (Z.to_nat 16)) at 2 by lia.
    apply stored_bytes; [lia|]. intros i Hi. rewrite !Write_peek.
    split_ranges. f_equal. lia.
  - rewrite <- (take_ge (m_Uuid this) (Z.to_nat 16)) at 2 by lia.
    apply stored_bytes; [lia|]. intros i Hi. rewrite !Write_peek.
    split_ranges. f_equal. lia.
  - rewrite <- (take_ge (le_encode 4 len) (Z.to_nat 4)) at 2
      by (rewrite length_le_encode; lia).
    apply stored_bytes; [rewrite length_le_encode; lia|]. intros i Hi.
    rewrite !Write_peek. split_ranges. f_equal. lia.
  - rewrite <- (take_ge (le_encode 4 crc) (Z.to_nat 4)) at 2
      by (rewrite length_le_encode; lia).
    apply stored_bytes; [rewrite length_le_encode; lia|]. intros i Hi.
    rewrite !Write_peek. split_ranges. f_equal. lia.
  - apply stored_bytes; [lia|]. intros i Hi. rewrite !Write_peek.
    split_ranges. f_equal. lia.
  - intros x Hx. rewrite !Write_peek. split_ranges; reflexivity.
Qed.

(** X1. On a device that is a memory of bytes, [SetData] returns true and
    the reader's [IsStorageCorrect] at the writer's address then answers by
    what was written: [AnotherStorage] for any other UUID, [Ok] with the
    reader bound to the address when [crc] is the device's checksum of the
    [len] bytes of [data], and [StorageError] for any other [crc]. *)
Theorem SetData_IsStorageCorrect (this : Writer) (data : list byte) (len crc : Z)
    (uuid : UUID) (reader : StorageReaderClass.Reader) (s : St) :
  length (m_Uuid this) = 16%nat -> length uuid = 16%nat ->
  0 <= m_Address this -> 0 <= len ->
  m_Address this + 40 + len < 2 ^ 32 ->
  (Z.to_nat len <= length data)%nat ->
  0 <= crc < 2 ^ 32 ->
  let r := SetData this data len crc s in
  fst r = true /\
  StorageReaderClass.IsStorageCorrect (dev (snd r)) (m_Address this) uuid reader =
    if bool_decide (uuid = m_Uuid this)
    then if crc =? crc_of (take (Z.to_nat len) data)
         then (StorageReaderClass.Ok,
               {| StorageReaderClass.m_Address := m_Address this |})
         else (StorageReaderClass.StorageError, reader)
    else (StorageReaderClass.AnotherStorage, reader).
Proof.
  intros Hu Huuid Ha Hlen Hend Hdata Hcrc.
  destruct (SetData_region this data len crc s Hu Ha Hlen Hend Hdata)
    as (Hok & _ & Hmagic & Hid & Hl & Hc & Hd & _).
  cbv zeta. split; [exact Hok|].
  set (d := dev (snd (SetData this data len crc s))) in *.
  set (a := m_Address this) in *.
  assert (Hw : forall o, 0 <= o <= 40 -> wrap (a + o) = a + o)
    by (intros o Ho; unfold wrap; apply Z.mod_small; lia).
  unfold StorageReaderClass.IsStorageCorrect, StorageReaderClass.getLength,
    StorageReaderClass.getCrc.
  unfold StorageReaderClass.offsetof_DataUuid, StorageReaderClass.offsetof_Length,
    StorageReaderClass.offsetof_StorageCrc, StorageReaderClass.sizeof_StorageHeaderStruct,
    sizeof_UUID.
  rewrite !Hw by lia. rewrite !Compare_peek, !Read_peek, CalculateCRC_peek.
  rewrite Hmagic, Hid, Hl, Hc.
  rewrite !le_uint32_encode by lia. rewrite Hd.
  rewrite bool_decide_true by reflexivity. cbn [negb].
  rewrite (take_ge uuid) by lia.
  destruct (bool_decide_reflect (m_Uuid this = uuid)) as [E|E].
  - subst uuid. rewrite ?bool_decide_true by reflexivity. cbn [negb].
    destruct (crc =? crc_of (take (Z.to_nat len) data)); reflexivity.
  - rewrite ?bool_decide_false by (intros E'; now apply E). reflexivity.
Qed.

(** X2. After that [SetData], the reader's [GetData(data, n, off)] fails
    when [n + off] exceeds [len]; otherwise it returns true with the
    [n + off] bytes from the start of the header, so what it hands back
    begins with the magic UUID and not with the data written. *)
Theorem SetData_GetData_header (this : Writer) (data : list byte) (len crc n off : Z)
    (s : St) :
  length (m_Uuid this) = 16%nat ->
  0 <= m_Address this -> 0 <= len ->
  m_Address this + 40 + len < 2 ^ 32 ->
  (Z.to_nat len <= length data)%nat ->
  0 <= n -> 0 <= off -> n + off < 2 ^ 32 ->
  let d := dev (snd (SetData this data len crc s)) in
  let reader := {| StorageReaderClass.m_Address := m_Address this |} in
  let got := map (peek d) (seqZ (m_Address this) (n + off)) in
  StorageReaderClass.GetData d reader n off =
    (if n + off >? len then (false, []) else (true, got)) /\
  take 16 got = take (Z.to_nat (n + off)) StorageReaderClass.StorageUUID.
Proof.
  intros Hu Ha Hlen Hend Hdata Hn Hoff Hsum.
  destruct (SetData_region this data len crc s Hu Ha Hlen Hend Hdata)
    as (_ & _ & Hmagic & _ & Hl & _).
  cbv zeta.
  set (d := dev (snd (SetData this data len crc s))) in *.
  set (a := m_Address this) in *.
  split.
  - unfold StorageReaderClass.GetData, StorageReaderClass.getLength,
      StorageReaderClass.offsetof_Length. cbn [StorageReaderClass.m_Address].
    replace (wrap (a + 32)) with (a + 32)
      by (unfold wrap; symmetry; apply Z.mod_small; lia).
    replace (wrap (n + off)) with (n + off)
      by (unfold wrap; symmetry; apply Z.mod_small; lia).
    rewrite !Read_peek, Hl, le_uint32_encode by lia. cbn [negb].
    destruct (n + off >? len); reflexivity.
  - destruct (Z_le_gt_dec (n + off) 16) as [Hle|Hgt].
    + rewrite take_ge by (rewrite length_map, length_seqZ; lia).
      rewrite <- Hmagic. symmetry. apply take_map_seqZ. lia.
    + rewrite (take_ge StorageReaderClass.StorageUUID) by (simpl; lia).
      rewrite <- Hmagic. apply (take_map_seqZ (peek d) a (n + off) 16). lia.
Qed.

End WriterReader.

Section HeaderCalls.

Import PageStorageClass PageStorageHeader.

Context {Dev : Type} `{Device Dev}.

Local Abbreviation St := (@St Dev).



End HeaderCalls.

Section HeaderProperties.

Import PageStorageClass PageStorageHeader.

Context {Dev : Type} `{Memory Dev}.

Local Abbreviation St := (@St Dev).

Lemma call_WritePage_Memory (data : list byte) (address len : Z) (s : St) :
  call_WritePage data address len s =
    (true, {| dev := snd (WritePage data address len (dev s));
              log := log s ++ [{| call_data := data; call_address := address;
                                  call_len := len |}] |}).
Proof.
  unfold call_WritePage. pose proof (WritePage_ok data address len (dev s)) as Hok.
  destruct (WritePage data address len (dev s)) as [ok d]. simpl in Hok. now subst ok.
Qed.

Local Ltac split_ranges :=
  repeat match goal with
         | |- context [(?p <=? ?q) && (?u <? ?v)] =>
             destruct (Z.leb_spec p q); destruct (Z.ltb_spec u v);
             cbn [andb]; try lia
         end.

Local Ltac field_bytes l :=
  rewrite <- (take_ge l (Z.to_nat 4)) at 2 by (rewrite length_le_encode; lia);
  apply stored_bytes; [rewrite length_le_encode; lia|];
  intros i Hi; rewrite !WritePage_peek; split_ranges; f_equal; lia.

(** The header as the six writes leave it. *)
Lemma SetHeader_region (this : PageStorage) (metrics : PageHeaderMetricsStruct) (s : St) :
  length (m_Uuid this) = 16%nat ->
  0 <= m_Address this -> m_Address this + 48 <= 2 ^ 32 ->
  let a := m_Address this in
  let r := SetHeader this metrics s in
  fst r = true /\
  map (peek (dev (snd r))) (seqZ a 16) = PageStorageUUID /\
  map (peek (dev (snd r))) (seqZ (a + 16) 16) = m_Uuid this /\
  map (peek (dev (snd r))) (seqZ (a + 32) 4) = le_encode 4 (TotalLength metrics) /\
  map (peek (dev (snd r))) (seqZ (a + 36) 4) = le_encode 4 (PageOffset metrics) /\
  map (peek (dev (snd r))) (seqZ (a + 40) 4) = le_encode 4 (PageLength metrics) /\
  map (peek (dev (snd r))) (seqZ (a + 44) 4) = le_encode 4 (PageCrc metrics) /\
  forall x, ~ (a <= x < a + 48) -> peek (dev (snd r)) x = peek (dev s) x.
Proof.
  intros Hu Ha Hend. cbv zeta.
  set (a := m_Address this) in *.
  assert (Hw : forall o, 0 <= o < 48 -> wrap (a + o) = a + o)
    by (intros o Ho; unfold wrap; apply Z.mod_small; lia).
  unfold SetHeader, bind, ret. cbv zeta. fold a.
  unfold offsetof_DataUuid, offsetof_TotalLength, offsetof_PageOffset,
    offsetof_PageLength, offsetof_PageCrc, sizeof_UUID.
  rewrite !Hw by lia.
  do 6 (rewrite !call_WritePage_Memory; cbn [negb fst snd dev log]).
  split; [reflexivity|].
  assert (HS : length PageStorageUUID = 16%nat) by reflexivity.
  repeat split.
  - rewrite <- (take_ge PageStorageUUID (Z.to_nat 16)) at 2 by lia.
    apply stored_bytes; [lia|]. intros i Hi. rewrite !WritePage_peek.
    split_ranges. f_equal. lia.
  - rewrite <- (take_ge (m_Uuid this) (Z.to_nat 16)) at 2 by lia.
    apply stored_bytes; [lia|]. intros i Hi. rewrite !WritePage_peek.
    split_ranges. f_equal. lia.
  - field_bytes (le_encode 4 (TotalLength metrics)).
  - field_bytes (le_encode 4 (PageOffset metrics)).
  - field_bytes (le_encode 4 (PageLength metrics)).
  - field_bytes (le_encode 4 (PageCrc metrics)).
  - intros x Hx. rewrite !WritePage_peek. split_ranges; reflexivity.
Qed.

(** X4. On a device that is a memory of bytes, [SetHeader] returns true
    and [getMetrics] at the same address then returns the metrics that were
    written. *)
Theorem SetHeader_getMetrics (this : PageStorage) (metrics : PageHeaderMetricsStruct)
    (s : St) :
  length (m_Uuid this) = 16%nat ->
  0 <= m_Address this -> m_Address this + 48 <= 2 ^ 32 ->
  metrics_in_range metrics ->
  let r := SetHeader this metrics s in
  fst r = true /\ getMetrics (dev (snd r)) (m_Address this) = Some metrics.
Proof.
  intros Hu Ha Hend (Ht & Ho & Hl & Hc).
  destruct (SetHeader_region this metrics s Hu Ha Hend)
    as (Hok & _ & _ & Htot & Hoff & Hlen & Hcrc & _).
  cbv zeta. split; [exact Hok|].
  set (d := dev (snd (SetHeader this metrics s))) in *.
  set (a := m_Address this) in *.
  assert (Hw : forall o, 0 <= o < 48 -> wrap (a + o) = a + o)
    by (intros o Ho'; unfold wrap; apply Z.mod_small; lia).
  unfold getMetrics, offsetof_TotalLength, offsetof_PageOffset, offsetof_PageLength,
    offsetof_PageCrc.
  rewrite !Hw by lia. rewrite !Read_peek. cbn [negb].
  rewrite Htot, Hoff, Hlen, Hcrc, !le_uint32_encode by lia.
  now destruct metrics.
Qed.

(** X5. After [SetHeader], [isPageCorrect] at that address answers by the
    header written and the bytes behind it, which [SetHeader] leaves as they
    were: [AnotherStorage] for an object of another UUID; [Ok] without a
    look at the metrics under [DontCheckMetrics]; [Error] when the metrics
    break one of the three bounds, or when the CRC is checked and is not the
    device's checksum of the [PageLength] bytes behind the header; [Ok]
    otherwise, with the object bound to the address. *)
Theorem SetHeader_isPageCorrect (this that : PageStorage)
    (metrics : PageHeaderMetricsStruct) (pageLen : Z) (options : CheckOptions) (s : St) :
  length (m_Uuid this) = 16%nat -> length (m_Uuid that) = 16%nat ->
  0 <= m_Address this -> m_Address this + 48 < 2 ^ 32 ->
  metrics_in_range metrics ->
  let a := m_Address this in
  let d := dev (snd (SetHeader this metrics s)) in
  let payload := map (peek (dev s)) (seqZ (a + 48) (PageLength metrics)) in
  let accept := (Ok, {| m_Uuid := m_Uuid that; m_Address := a |}) in
  isPageCorrect d a pageLen options that =
    if bool_decide (m_Uuid that = m_Uuid this) then
      if DontCheckMetrics options then accept
      else if (PageLength metrics >? getMaxPageLength pageLen)
              || (PageLength metrics >? TotalLength metrics)
              || (PageOffset metrics >? TotalLength metrics)
      then (Error, that)
      else if negb (DontCheckCrc options) && negb (PageCrc metrics =? crc_of payload)
      then (Error, that)
      else accept
    else (AnotherStorage, that).
Proof.
  intros Hu Hv Ha Hend (Ht & Ho & Hl & Hc).
  destruct (SetHeader_region this metrics s Hu Ha ltac:(lia))
    as (_ & Hmagic & Hid & Htot & Hoff & Hlen & Hcrc & Hframe).
  cbv zeta.
  set (d := dev (snd (SetHeader this metrics s))) in *.
  set (a := m_Address this) in *.
  assert (Hw : forall o, 0 <= o <= 48 -> wrap (a + o) = a + o)
    by (intros o Ho'; unfold wrap; apply Z.mod_small; lia).
  assert (Hm : getMetrics d a = Some metrics).
  { unfold getMetrics, offsetof_TotalLength, offsetof_PageOffset, offsetof_PageLength,
      offsetof_PageCrc.
    rewrite !Hw by lia. rewrite !Read_peek. cbn [negb].
    rewrite Htot, Hoff, Hlen, Hcrc, !le_uint32_encode by lia.
    now destruct metrics. }
  assert (Hp : map (peek d) (seqZ (a + 48) (PageLength metrics))
               = map (peek (dev s)) (seqZ (a + 48) (PageLength metrics))).
  { apply map_ext_Forall, Forall_seqZ. intros x Hx. apply Hframe. lia. }
  unfold isPageCorrect. rewrite Hm.
  unfold offsetof_DataUuid, sizeof_PageHeaderStruct, sizeof_UUID.
  rewrite !Hw by lia. rewrite !Compare_peek, CalculatePageCRC_peek.
  rewrite Hmagic, Hid, Hp.
  rewrite bool_decide_true by reflexivity. cbn [negb].
  rewrite (take_ge (m_Uuid that)) by lia.
  destruct (decide (m_Uuid this = m_Uuid that)) as [E|E].
  - rewrite (bool_decide_true (m_Uuid that = m_Uuid this)) by easy.
    rewrite (bool_decide_true (m_Uuid this = m_Uuid that)) by easy. cbn [negb].
    destruct (DontCheckMetrics options); reflexivity.
  - rewrite (bool_decide_false (m_Uuid that = m_Uuid this))
      by (intros E'; now apply E).
    rewrite (bool_decide_false (m_Uuid this = m_Uuid that)) by easy.
    reflexivity.
Qed.

(** X6. [getMaxPageLength] below the size of the header: for a [pageLen]
    under 48 the subtraction wraps, the bound is [2^32 - 48 + pageLen], and
    the first of the three bounds of [isPageCorrect] holds for page lengths
    far above [pageLen]; from 48 on the bound is [pageLen - 48]. *)
Theorem getMaxPageLength_wraps (pageLen : Z) (metrics : PageHeaderMetricsStruct) :
  0 <= pageLen < 2 ^ 32 ->
  getMaxPageLength pageLen =
    (if pageLen <? 48 then 2 ^ 32 - 48 + pageLen else pageLen - 48) /\
  (pageLen < 48 ->
   PageLength metrics < 2 ^ 32 - 48 ->
   PageLength metrics <= TotalLength metrics ->
   PageOffset metrics <= TotalLength metrics ->
   metrics_in_bounds metrics pageLen).
Proof.
  intros Hp.
  assert (Hmax : getMaxPageLength pageLen =
                 if pageLen <? 48 then 2 ^ 32 - 48 + pageLen else pageLen - 48).
  { unfold getMaxPageLength, sizeof_PageHeaderStruct, wrap.
    destruct (Z.ltb_spec pageLen 48).
    - replace (pageLen - 48) with (2 ^ 32 - 48 + pageLen + (-1) * 2 ^ 32) by lia.
      rewrite Z.mod_add by lia. apply Z.mod_small. lia.
    - apply Z.mod_small. lia. }
  split; [exact Hmax|].
  intros Hsmall Hlen Ht Ho. unfold metrics_in_bounds. rewrite Hmax.
  destruct (Z.ltb_spec pageLen 48); lia.
Qed.

End HeaderProperties.

Section WriterRuns.

Import StorageWriterClass.

(** Three bytes written at address 8 of an erased memory, with their sum as
    the checksum, and the region checked from a reader bound elsewhere. *)
Lemma SetData_IsStorageCorrect_witness :
  let this := {| m_Address := 8; m_Uuid := StorageReaderClass.region_uuid |} in
  let r := SetData this [x01; x02; x03] 3 6 {| dev := flash_zero; log := [] |} in
  fst r = true /\
  StorageReaderClass.IsStorageCorrect (dev (snd r)) 8 StorageReaderClass.region_uuid
      {| StorageReaderClass.m_Address := 0 |}
    = (StorageReaderClass.Ok, {| StorageReaderClass.m_Address := 8 |}).
Proof.
  cbv zeta.
  destruct (SetData_IsStorageCorrect (Dev := Flash)
              {| m_Address := 8; m_Uuid := StorageReaderClass.region_uuid |}
              [x01; x02; x03] 3 6 StorageReaderClass.region_uuid
              {| StorageReaderClass.m_Address := 0 |}
              {| dev := flash_zero; log := [] |}
              eq_refl eq_refl ltac:(simpl; lia) ltac:(lia) ltac:(simpl; lia)
              ltac:(simpl; lia) ltac:(lia)) as [Hok Hcheck].
  split; [exact Hok|]. cbn [m_Address] in Hcheck. rewrite Hcheck. reflexivity.
Defined.

(** The same write, then two bytes asked from offset 1: the first three
    bytes of the magic come back. *)
Lemma SetData_GetData_header_witness :
  let this := {| m_Address := 8; m_Uuid := StorageReaderClass.region_uuid |} in
  let d := dev (snd (SetData this [x01; x02; x03] 3 6
                       {| dev := flash_zero; log := [] |})) in
  StorageReaderClass.GetData d {| StorageReaderClass.m_Address := 8 |} 2 1
    = (true, [xb0; x24; xf2]).
Proof.
  cbv zeta.
  destruct (SetData_GetData_header (Dev := Flash)
              {| m_Address := 8; m_Uuid := StorageReaderClass.region_uuid |}
              [x01; x02; x03] 3 6 2 1
              {| dev := flash_zero; log := [] |}
              eq_refl ltac:(simpl; lia) ltac:(lia) ltac:(simpl; lia)
              ltac:(simpl; lia) ltac:(lia) ltac:(lia) ltac:(lia)) as [Hget _].
  cbn [m_Address] in Hget. rewrite Hget. reflexivity.
Defined.

End WriterRuns.

Section HeaderRuns.

Import PageStorageClass PageStorageHeader.

(** A header written at address 16 of an erased memory and read back. *)
Lemma SetHeader_getMetrics_witness :
  let this := {| m_Uuid := StorageReaderClass.region_uuid; m_Address := 16 |} in
  let metrics := {| TotalLength := 9; PageOffset := 5; PageLength := 4; PageCrc := 170 |} in
  let r := SetHeader this metrics {| dev := StorageWriterClass.flash_zero; log := [] |} in
  fst r = true /\ getMetrics (dev (snd r)) 16 = Some metrics.
Proof.
  cbv zeta.
  apply (SetHeader_getMetrics (Dev := StorageWriterClass.Flash)
           {| m_Uuid := StorageReaderClass.region_uuid; m_Address := 16 |}
           {| TotalLength := 9; PageOffset := 5; PageLength := 4; PageCrc := 170 |}
           {| dev := StorageWriterClass.flash_zero; log := [] |}
           eq_refl ltac:(simpl; lia) ltac:(simpl; lia)
           ltac:(unfold metrics_in_range; simpl; lia)).
Defined.

(** The same header over four erased bytes, whose checksum is 0: the page
    is in order under a CRC of 0 and in error under any other. *)
Lemma SetHeader_isPageCorrect_witness :
  let this := {| m_Uuid := StorageReaderClass.region_uuid; m_Address := 16 |} in
  let that := {| m_Uuid := StorageReaderClass.region_uuid; m_Address := 0 |} in
  let s := {| dev := StorageWriterClass.flash_zero; log := [] |} in
  let good := {| TotalLength := 9; PageOffset := 5; PageLength := 4; PageCrc := 0 |} in
  let bad := {| TotalLength := 9; PageOffset := 5; PageLength := 4; PageCrc := 170 |} in
  isPageCorrect (dev (snd (SetHeader this good s))) 16 64 CheckOptions_default that
    = (Ok, this) /\
  isPageCorrect (dev (snd (SetHeader this bad s))) 16 64 CheckOptions_default that
    = (Error, that).
Proof.
  cbv zeta. split.
  - rewrite (SetHeader_isPageCorrect (Dev := StorageWriterClass.Flash)
               {| m_Uuid := StorageReaderClass.region_uuid; m_Address := 16 |}
               {| m_Uuid := StorageReaderClass.region_uuid; m_Address := 0 |}
               {| TotalLength := 9; PageOffset := 5; PageLength := 4; PageCrc := 0 |}
               64 CheckOptions_default
               {| dev := StorageWriterClass.flash_zero; log := [] |}
               eq_refl eq_refl ltac:(simpl; lia) ltac:(simpl; lia)
               ltac:(unfold metrics_in_range; simpl; lia)).
    reflexivity.
  - rewrite (SetHeader_isPageCorrect (Dev := StorageWriterClass.Flash)
               {| m_Uuid := StorageReaderClass.region_uuid; m_Address := 16 |}
               {| m_Uuid := StorageReaderClass.region_uuid; m_Address := 0 |}
               {| TotalLength := 9; PageOffset := 5; PageLength := 4; PageCrc := 170 |}
               64 CheckOptions_default
               {| dev := StorageWriterClass.flash_zero; log := [] |}
               eq_refl eq_refl ltac:(simpl; lia) ltac:(simpl; lia)
               ltac:(unfold metrics_in_range; simpl; lia)).
    reflexivity.
Defined.

(** A page of 10 bytes, shorter than a header: a page length of 1000 is
    within the bounds. *)
Lemma getMaxPageLength_wraps_witness :
  let metrics := {| TotalLength := 1000; PageOffset := 0; PageLength := 1000;
                    PageCrc := 0 |} in
  getMaxPageLength 10 = 2 ^ 32 - 38 /\ metrics_in_bounds metrics 10.
Proof.
  cbv zeta.
  destruct (getMaxPageLength_wraps 10
              {| TotalLength := 1000; PageOffset := 0; PageLength := 1000; PageCrc := 0 |}
              ltac:(lia)) as [Hmax Hin].
  split; [exact Hmax|]. apply Hin; simpl; lia.
Defined.

End HeaderRuns.


(** * More of the page cache *)

Section CacheInvariant.

Import PageCacheClass.

Context {Dev : Type} `{Backing Dev}.

Variable PAGE_SIZE : Z.
Variable k : Z.
Hypothesis k_range : 0 <= k < 32.
Hypothesis PAGE_SIZE_pow2 : PAGE_SIZE = 2 ^ k.

Local Abbreviation St := (@St Dev).
Local Abbreviation PreFlushCallbackStruct := (@PreFlushCallbackStruct Dev).
Local Abbreviation cache_wf := (cache_wf PAGE_SIZE).

Lemma length_memcpy_page (B src : list byte) (off n : Z) :
  length B = Z.to_nat PAGE_SIZE -> 0 <= off -> 0 <= n -> off + n <= PAGE_SIZE ->
  length (memcpy B off src n) = Z.to_nat PAGE_SIZE.
Proof.
  intros HB Hoff Hn Hle. rewrite length_memcpy_le by lia. exact HB.
Qed.

Lemma Flush_wf (callback : option PreFlushCallbackStruct) (s : St) :
  cache_wf (cache s) -> cache_wf (cache (snd (Flush PAGE_SIZE callback s))).
Proof.
  intros Hwf. destruct (decide (m_Status (cache s) = Dirty)) as [Hst|Hst].
  - rewrite (Flush_Dirty PAGE_SIZE callback s Hst). cbv zeta.
    destruct (Write _ _ _ _) as [[] d']; simpl.
    + destruct Hwf as (Hl & _ & _). split; [exact Hl|]. split; [discriminate|].
      discriminate.
    + destruct Hwf as (Hl & Hh & Hd). split; [exact Hl|]. split; [discriminate|].
      intros _. exact (Hd Hst).
  - rewrite (Flush_not_Dirty PAGE_SIZE callback s Hst). exact Hwf.
Qed.

Lemma setAddress_wf (callback : option PreFlushCallbackStruct) (a : Z) (s : St) :
  cache_wf (cache s) -> 0 <= a < 2 ^ 32 ->
  let r := setAddress PAGE_SIZE a callback s in
  cache_wf (cache (snd r)) /\
  (fst r = true -> m_Address (cache (snd r)) = a - a mod PAGE_SIZE).
Proof.
  intros Hwf Ha. cbv zeta.
  pose proof (page_start_eq PAGE_SIZE k k_range PAGE_SIZE_pow2 a Ha) as Hps.
  pose proof (page_start_bound PAGE_SIZE k k_range PAGE_SIZE_pow2 a Ha) as Hpb.
  pose proof (page_start_mod PAGE_SIZE k k_range PAGE_SIZE_pow2 a) as Hpm.
  pose proof (PAGE_SIZE_pos PAGE_SIZE k k_range PAGE_SIZE_pow2) as HP.
  unfold setAddress, bind, get_Status, isInCache, set_Address, ret.
  destruct (bool_decide (m_Status (cache s) = Dirty)
            && negb (isInCache_of PAGE_SIZE (cache s) a)) eqn:Hc.
  - pose proof (Flush_wf callback s Hwf) as Hf.
    destruct (Flush PAGE_SIZE callback s) as [[] s1] eqn:HF; simpl in *.
    + rewrite Hps. split; [|reflexivity].
      apply andb_true_iff in Hc as [Hd _]. apply bool_decide_eq_true in Hd.
      rewrite (Flush_Dirty PAGE_SIZE callback s Hd) in HF. cbv zeta in HF.
      destruct (Write _ _ _ _) as [[] d']; [|discriminate].
      injection HF as <-. simpl in *.
      destruct Hf as (Hl & _ & _). split; [exact Hl|]. split; discriminate.
    + split; [exact Hf | discriminate].
  - simpl. rewrite Hps. split; [|reflexivity].
    destruct Hwf as (Hl & Hh & Hd). split; [exact Hl|]. split; [exact Hh|].
    intros _. cbn [m_Address cache snd]. split; [lia | exact Hpm].
Qed.

Lemma SetData_body_wf (callback : option PreFlushCallbackStruct)
    (data : list byte) (a len : Z) (s : St) :
  cache_wf (cache s) -> 0 <= a < 2 ^ 32 -> 0 <= len ->
  cache_wf (cache (snd (SetData_body PAGE_SIZE callback data a len s))).
Proof.
  intros Hwf Ha Hlen.
  pose proof (page_start_bound PAGE_SIZE k k_range PAGE_SIZE_pow2 a Ha) as Hpb.
  pose proof (page_start_mod PAGE_SIZE k k_range PAGE_SIZE_pow2 a) as Hpm.
  pose proof (PAGE_SIZE_pos PAGE_SIZE k k_range PAGE_SIZE_pow2) as HP.
  pose proof (Z.mod_pos_bound a PAGE_SIZE HP) as Hoff.
  unfold SetData_body.
  destruct ((a mod PAGE_SIZE =? 0) && (PAGE_SIZE <=? len)).
  - unfold bind, call_Write, ret. destruct (Write _ _ _ _) as [[] d']; exact Hwf.
  - unfold bind at 1.
    pose proof (setAddress_wf callback a s Hwf Ha) as Hset. cbv zeta in Hset.
    destruct (setAddress PAGE_SIZE a callback s) as [[] s1]; simpl in Hset;
      destruct Hset as [Hwf1 Haddr]; [|exact Hwf1].
    specialize (Haddr eq_refl).
    destruct s1 as [[A st B] d l]. simpl in Haddr. subst A.
    destruct Hwf1 as (Hl & Hh & _). simpl in Hl, Hh.
    unfold Read_to_Buffer, bind, get_Status, get_Address, get_Buffer, set_Buffer,
      set_Status, call_Read, ret.
    set (off := a mod PAGE_SIZE) in *.
    set (n := Z.min (PAGE_SIZE - off) len).
    assert (Hn : 0 <= n <= PAGE_SIZE - off) by lia.
    destruct st; [|congruence|];
      repeat first
        [ progress cbn [cache dev log m_Status m_Address m_Buffer negb fst snd andb]
        | match goal with
          | |- context [bool_decide (Empty = Empty)] =>
              rewrite (bool_decide_true (Empty = Empty)) by reflexivity
          | |- context [bool_decide (Dirty = Empty)] =>
              rewrite (bool_decide_false (Dirty = Empty)) by discriminate
          | |- context [negb (?p =? ?q)] => destruct (p =? q)
          | |- context [n <? ?q] => destruct (n <? q)
          | |- context [Read ?x ?y ?z] => destruct (Read x y z) as [[[] ?] ?]
          end ];
      (split;
       [ cbn [m_Buffer cache snd];
         repeat (apply length_memcpy_page; [|lia|lia|lia]); exact Hl
       | split;
         [ cbn [m_Status cache snd]; congruence
         | cbn [m_Status m_Address cache snd]; intros _; split; [lia | exact Hpm] ] ]).
Qed.

Lemma SetData_loop_wf (callback : option PreFlushCallbackStruct) (fuel : nat) :
  forall (data : list byte) (a len : Z) (s : St),
    cache_wf (cache s) -> 0 <= a < 2 ^ 32 -> 0 <= len ->
    cache_wf (cache (snd (SetData_loop PAGE_SIZE fuel callback data a len s))).
Proof.
  induction fuel as [|fuel IH]; intros data a len s Hwf Ha Hlen; simpl.
  - exact Hwf.
  - unfold bind.
    pose proof (SetData_body_wf callback data a len s Hwf Ha Hlen) as Hb.
    destruct (SetData_body PAGE_SIZE callback data a len s)
      as [[b|[[data' a'] len']] s1] eqn:Hbody; simpl in Hb.
    + exact Hb.
    + destruct (SetData_body_next PAGE_SIZE k k_range PAGE_SIZE_pow2
                  callback data data' a a' len len' s s1 Hlen Hbody)
        as (n & Hn & _ & Ha' & Hlen').
      destruct (0 <? len'); [|exact Hb].
      apply IH; [exact Hb | | lia].
      rewrite Ha'. unfold wrap. apply Z.mod_pos_bound. lia.
Qed.

Lemma serve_wf (q : Request) (s : St) :
  cache_wf (cache s) -> Request_ok q ->
  cache_wf (cache (snd (serve PAGE_SIZE q s))).
Proof.
  intros Hwf Hq. destruct q as [data a len callback|a len|callback|]; simpl; unfold bind.
  - destruct Hq as (Ha & Hlen & _).
    pose proof (SetData_loop_wf callback (S (Z.to_nat len)) data a len s Hwf Ha Hlen) as Hs.
    unfold SetData. destruct (SetData_loop _ _ _ _ _ _ s) as [r s1]. exact Hs.
  - destruct (GetData_loop_frame PAGE_SIZE (S (Z.to_nat len)) a len s) as [Hc _].
    unfold GetData. destruct (GetData_loop _ _ _ _ s) as [r s1]. simpl in *.
    now rewrite Hc.
  - pose proof (Flush_wf callback s Hwf) as Hf.
    destruct (Flush PAGE_SIZE callback s) as [r s1]. exact Hf.
  - destruct Hwf as (Hl & _ & _). simpl. split; [exact Hl|]. split; discriminate.
Qed.

(** X8. The members of the object keep their shape through every sequence
    of calls of [SetData], [GetData], [Flush] and [Clear], whatever the
    device and the callbacks do and whichever calls fail: the buffer holds
    [PAGE_SIZE] bytes, the status is [Empty] or [Dirty] and never
    [HasData], and the address of a dirty slot is the start of a page. *)
Theorem serve_all_cache_wf (qs : list Request) (s : St) :
  cache_wf (cache s) -> Forall Request_ok qs ->
  let c := cache (snd (serve_all PAGE_SIZE qs s)) in
  length (m_Buffer c) = Z.to_nat PAGE_SIZE /\
  (m_Status c = Empty \/ m_Status c = Dirty) /\
  (m_Status c = Dirty ->
   0 <= m_Address c < 2 ^ 32 /\ m_Address c mod PAGE_SIZE = 0).
Proof.
  intros Hwf Hqs. cbv zeta.
  assert (Hinv : cache_wf (cache (snd (serve_all PAGE_SIZE qs s)))).
  { revert s Hwf. induction qs as [|q qs IH]; intros s Hwf; simpl.
    - exact Hwf.
    - apply Forall_cons in Hqs as [Hq Hqs]. unfold bind.
      pose proof (serve_wf q s Hwf Hq) as H1.
      destruct (serve PAGE_SIZE q s) as [r s1]. simpl in H1.
      specialize (IH Hqs s1 H1).
      destruct (serve_all PAGE_SIZE qs s1) as [rs s2]. exact IH. }
  destruct Hinv as (Hl & Hh & Hd). split; [exact Hl|]. split; [|exact Hd].
  destruct (m_Status _); [now left | congruence | now right].
Qed.

End CacheInvariant.

Section CacheCalls.

Import PageCacheClass.

Context {Dev : Type} `{Backing Dev}.

Variable PAGE_SIZE : Z.

Local Abbreviation St := (@St Dev).
Local Abbreviation PreFlushCallbackStruct := (@PreFlushCallbackStruct Dev).

(** X9. A write that falls into the resident page, and is not one of a
    whole page, calls neither the device nor the callback: it copies the
    bytes into the buffer, marks the slot dirty and returns true. *)
Theorem SetData_resident_page (callback : option PreFlushCallbackStruct)
    (data : list byte) (a len : Z) (s : St) :
  isInCache_of PAGE_SIZE (cache s) a = true ->
  (a mod PAGE_SIZE =? 0) && (PAGE_SIZE <=? len) = false ->
  0 <= len <= PAGE_SIZE - a mod PAGE_SIZE ->
  SetData PAGE_SIZE data a len callback s =
    (Some true,
     {| cache := {| m_Address := m_Address (cache s);
                    m_Status := Dirty;
                    m_Buffer := memcpy (m_Buffer (cache s)) (a mod PAGE_SIZE) data len |};
        dev := dev s; log := log s |}).
Proof.
  intros Hin Hby Hlen.
  destruct s as [[A st B] d l]. unfold isInCache_of in Hin. simpl in Hin.
  apply andb_true_iff in Hin as [Hst HA].
  apply bool_decide_eq_true in Hst. apply Z.eqb_eq in HA.
  unfold SetData. cbn [SetData_loop]. unfold bind at 1.
  unfold SetData_body. rewrite Hby.
  unfold setAddress, Flush, Read_to_Buffer, isInCache, isInCache_of, bind, get_Status,
    get_Address, get_Buffer, set_Address, set_Buffer, set_Status, ret.
  rewrite <- HA. rewrite Z.min_r by lia. rewrite Z.sub_diag.
  destruct st; [congruence| |];
    cbn [cache dev log m_Status m_Address m_Buffer fst snd bool_decide decide
         decide_rel StatusEnum_eq_dec StatusEnum_rec StatusEnum_rect andb negb];
    rewrite ?Z.eqb_refl; reflexivity.
Qed.

(** X10. A write that has to evict the dirty page of another address and
    whose write-back fails returns false when that [Write] has returned:
    the callback has run before it, nothing is read, and the object is as it
    was, the page still dirty and none of the new bytes in the buffer. *)
Theorem SetData_eviction_fails (callback : option PreFlushCallbackStruct)
    (data : list byte) (a len : Z) (s : St) :
  m_Status (cache s) = Dirty ->
  isInCache_of PAGE_SIZE (cache s) a = false ->
  (a mod PAGE_SIZE =? 0) && (PAGE_SIZE <=? len) = false ->
  let buf := m_Buffer (cache s) in
  let w := Write buf (m_Address (cache s)) PAGE_SIZE (pre_flush_dev PAGE_SIZE callback s) in
  let evs := match callback with
             | Some {| Callback := Some _; arg := x |} =>
                 [EvCallback buf (m_Address (cache s)) PAGE_SIZE x]
             | _ => []
             end in
  fst w = false ->
  SetData PAGE_SIZE data a len callback s =
    (Some false,
     {| cache := cache s; dev := snd w;
        log := (log s ++ evs) ++ [EvWrite buf (m_Address (cache s)) PAGE_SIZE] |}).
Proof.
  intros Hst Hin Hby. cbv zeta. intros Hw.
  unfold SetData. cbn [SetData_loop]. unfold bind at 1.
  unfold SetData_body. rewrite Hby. unfold bind at 1.
  unfold setAddress. unfold bind at 1. unfold get_Status at 1.
  unfold bind at 1. unfold isInCache at 1. rewrite Hin, Hst.
  rewrite bool_decide_true by reflexivity. cbn [andb negb]. unfold bind at 1.
  rewrite (Flush_Dirty PAGE_SIZE callback s Hst). cbv zeta.
  destruct (Write _ _ _ _) as [ok d']. simpl in Hw. subst ok.
  cbn [negb]. unfold ret.
  destruct s as [[A st B] d l]. simpl in *. subst st. reflexivity.
Qed.


(** X12. With a page size above zero, every call of [SetData] and of
    [GetData] returns: each pass of their loops takes at least one byte off
    [len]. *)
Theorem requests_return (q : Request) (s : St) :
  0 < PAGE_SIZE ->
  match fst (serve PAGE_SIZE q s) with
  | RepSetData None | RepGetData None => False
  | _ => True
  end.
Proof.
  intros HP. destruct q as [data a len callback|a len|callback|]; simpl; unfold bind.
  - destruct (SetData_returns PAGE_SIZE callback data a len s HP) as [b Hb].
    destruct (SetData PAGE_SIZE data a len callback s) as [r s1].
    simpl in *. now subst r.
  - destruct (GetData_returns PAGE_SIZE a len s HP) as [b Hb].
    destruct (GetData PAGE_SIZE a len s) as [r s1]. simpl in *. now subst r.
  - now destruct (Flush PAGE_SIZE callback s).
  - exact I.
Qed.

End CacheCalls.

Section PageMask.

Import PageCacheClass.

Variable PAGE_SIZE : Z.
Variable k : Z.
Hypothesis k_range : 0 <= k < 32.
Hypothesis PAGE_SIZE_pow2 : PAGE_SIZE = 2 ^ k.

(** X13. For a page size that is a power of two below [2^32], the mask
    [address & ~(PAGE_SIZE - 1)] of [setAddress] and [isInCache] and the
    remainder [address % PAGE_SIZE] of [SetData] and [GetData] name the same
    page: the masked address is [address - address % PAGE_SIZE], the start
    of the page that holds [address], and [isInCache] holds exactly when the
    slot is not empty and its address is that start. *)
Theorem page_start_modulo (c : Cache) (a : Z) :
  0 <= a < 2 ^ 32 ->
  page_start PAGE_SIZE a = a - a mod PAGE_SIZE /\
  page_start PAGE_SIZE a mod PAGE_SIZE = 0 /\
  page_start PAGE_SIZE a <= a < page_start PAGE_SIZE a + PAGE_SIZE /\
  0 <= page_start PAGE_SIZE a /\ page_start PAGE_SIZE a + PAGE_SIZE <= 2 ^ 32 /\
  (isInCache_of PAGE_SIZE c a = true <->
   m_Status c <> Empty /\ m_Address c = a - a mod PAGE_SIZE).
Proof.
  intros Ha.
  pose proof (page_start_eq PAGE_SIZE k k_range PAGE_SIZE_pow2 a Ha) as Hps.
  pose proof (page_start_bound PAGE_SIZE k k_range PAGE_SIZE_pow2 a Ha) as Hpb.
  pose proof (page_start_mod PAGE_SIZE k k_range PAGE_SIZE_pow2 a) as Hpm.
  pose proof (PAGE_SIZE_pos PAGE_SIZE k k_range PAGE_SIZE_pow2) as HP.
  pose proof (Z.mod_pos_bound a PAGE_SIZE HP) as Hoff.
  unfold isInCache_of. rewrite Hps.
  split; [reflexivity|]. split; [exact Hpm|]. split; [lia|].
  split; [lia|]. split; [lia|].
  rewrite andb_true_iff, bool_decide_eq_true, Z.eqb_eq. reflexivity.
Qed.

End PageMask.

Section CacheMemory.

Import PageCacheClass.

Context {Dev : Type} `{ByteMemory Dev}.

Variable PAGE_SIZE : Z.
Variable k : Z.
Hypothesis k_range : 0 <= k < 32.
Hypothesis PAGE_SIZE_pow2 : PAGE_SIZE = 2 ^ k.

Local Abbreviation St := (@St Dev).
Local Abbreviation view := (view PAGE_SIZE).
Local Abbreviation cache_wf := (cache_wf PAGE_SIZE).

(** What [Flush] leaves on the device is what the reads through the cache
    saw before. *)
Lemma Flush_view (s : St) :
  cache_wf (cache s) ->
  let r := Flush PAGE_SIZE None s in
  fst r = true /\
  m_Status (cache (snd r)) = Empty /\
  m_Buffer (cache (snd r)) = m_Buffer (cache s) /\
  forall x, 0 <= x < 2 ^ 32 -> peek (dev (snd r)) x = view (cache s) (dev s) x.
Proof.
  intros (Hlen & Hst & Hd). cbv zeta.
  destruct s as [[A st B] d l]. simpl in *.
  destruct st; [| contradiction |].
  - rewrite Flush_not_Dirty by (simpl; discriminate). simpl.
    split; [reflexivity|]. split; [reflexivity|]. split; [reflexivity|].
    intros x Hx. symmetry. now apply view_Empty.
  - destruct (Hd eq_refl) as [HA Hal].
    rewrite Flush_Dirty by reflexivity. cbv zeta. simpl.
    pose proof (Write_ok B A PAGE_SIZE d) as Hok.
    pose proof (Write_peek B A PAGE_SIZE d) as Hpk.
    destruct (Write B A PAGE_SIZE d) as [ok d']. simpl in Hok, Hpk. subst ok. simpl.
    split; [reflexivity|]. split; [reflexivity|]. split; [reflexivity|].
    intros x Hx. rewrite Hpk.
    rewrite (view_resident PAGE_SIZE k k_range PAGE_SIZE_pow2
               {| m_Address := A; m_Status := Dirty; m_Buffer := B |} d x);
      [reflexivity | reflexivity | exact Hal | exact Hx].
Qed.

(** X14. A write followed by a flush is on the device: after
    [SetData(data, a, len)] has gone through the cache and [Flush()] has
    written the page back, the device holds the bytes of [data] over the
    range of the request, and everywhere else the bytes that the reads
    through the cache returned before the write; the slot is empty. *)
Theorem SetData_Flush_durable (data : list byte) (a len : Z) (s : St) :
  cache_wf (cache s) ->
  0 <= a < 2 ^ 32 -> 0 <= len -> a + len <= 2 ^ 32 ->
  (Z.to_nat len <= length data)%nat ->
  off_resident_page PAGE_SIZE (cache s) a len ->
  let r := SetData PAGE_SIZE data a len None s in
  let f := Flush PAGE_SIZE None (snd r) in
  fst r = Some true /\ fst f = true /\
  m_Status (cache (snd f)) = Empty /\
  forall x, 0 <= x < 2 ^ 32 ->
    peek (dev (snd f)) x =
      if (a <=? x) && (x <? a + len) then byte_at data (x - a)
      else view (cache s) (dev s) x.
Proof.
  intros Hwf Ha Hlen Hend Hdata Hoff. cbv zeta.
  destruct (SetData_loop_view PAGE_SIZE k k_range PAGE_SIZE_pow2 (S (Z.to_nat len))
              data a len s Hwf Ha Hlen Hend Hdata Hoff ltac:(lia))
    as (Hr & Hwf1 & Hview).
  fold (SetData PAGE_SIZE data a len None s) in Hr, Hwf1, Hview.
  destruct (Flush_view (snd (SetData PAGE_SIZE data a len None s)) Hwf1)
    as (Hf & Hst & _ & Hpk).
  split; [exact Hr|]. split; [exact Hf|]. split; [exact Hst|].
  intros x Hx. rewrite (Hpk x Hx). apply Hview. exact Hx.
Qed.

(** X15. A write of the whole resident dirty page goes to the device past
    the buffer and is lost: [SetData] returns true and leaves the object as
    it was, the device holds the bytes of [data], [GetData] over the page
    goes on to return the bytes of the buffer, and the next [Flush] writes
    the buffer over what was written. *)
Theorem SetData_resident_whole_page (data : list byte) (s : St) :
  cache_wf (cache s) -> m_Status (cache s) = Dirty ->
  (Z.to_nat PAGE_SIZE <= length data)%nat ->
  let a := m_Address (cache s) in
  let r := SetData PAGE_SIZE data a PAGE_SIZE None s in
  let f := Flush PAGE_SIZE None (snd r) in
  fst r = Some true /\
  cache (snd r) = cache s /\
  map (peek (dev (snd r))) (seqZ a PAGE_SIZE) = take (Z.to_nat PAGE_SIZE) data /\
  fst (GetData PAGE_SIZE a PAGE_SIZE (snd r)) = Some (true, m_Buffer (cache s)) /\
  map (peek (dev (snd f))) (seqZ a PAGE_SIZE) = m_Buffer (cache s).
Proof.
  intros Hwf Hst Hdata. cbv zeta.
  pose proof Hwf as (Hlen & Hnh & Hd). destruct (Hd Hst) as [HA Hal].
  pose proof (PAGE_SIZE_pos PAGE_SIZE k k_range PAGE_SIZE_pow2) as HP.
  pose proof (page_start_bound PAGE_SIZE k k_range PAGE_SIZE_pow2 _ HA) as Hpb.
  rewrite Hal, Z.sub_0_r in Hpb.
  rewrite (SetData_one_page PAGE_SIZE None data (m_Address (cache s)) s Hal). cbv zeta.
  pose proof (Write_ok (take (Z.to_nat PAGE_SIZE) data) (m_Address (cache s))
                PAGE_SIZE (dev s)) as Hok.
  pose proof (Write_peek (take (Z.to_nat PAGE_SIZE) data) (m_Address (cache s))
                PAGE_SIZE (dev s)) as Hpk.
  destruct (Write _ _ _ (dev s)) as [ok d']. simpl in Hok, Hpk. subst ok.
  cbn [fst snd cache dev].
  set (s1 := {| cache := cache s; dev := d'; log := _ |}).
  assert (Hbuf : forall d i, 0 <= i < PAGE_SIZE ->
            view (cache s) d (m_Address (cache s) + i) = byte_at (m_Buffer (cache s)) i).
  { intros d i Hi.
    rewrite (view_resident PAGE_SIZE k k_range PAGE_SIZE_pow2 (cache s) d _ Hst Hal)
      by lia.
    destruct (Z.leb_spec (m_Address (cache s)) (m_Address (cache s) + i));
      destruct (Z.ltb_spec (m_Address (cache s) + i) (m_Address (cache s) + PAGE_SIZE));
      cbn [andb]; try lia.
    f_equal. lia. }
  split; [reflexivity|]. split; [reflexivity|]. split; [|split].
  - apply stored_bytes; [exact Hdata|].
    intros i Hi. rewrite Hpk.
    destruct (Z.leb_spec (m_Address (cache s)) (m_Address (cache s) + i));
      destruct (Z.ltb_spec (m_Address (cache s) + i) (m_Address (cache s) + PAGE_SIZE));
      cbn [andb]; try lia.
    replace (m_Address (cache s) + i - m_Address (cache s)) with i by lia.
    apply byte_at_take. exact Hi.
  - destruct (GetData_loop_view PAGE_SIZE k k_range PAGE_SIZE_pow2 (S (Z.to_nat PAGE_SIZE))
                (m_Address (cache s)) PAGE_SIZE s1 Hlen HA ltac:(lia) ltac:(lia) ltac:(lia))
      as (Hg & _).
    unfold GetData. rewrite Hg. do 2 f_equal. symmetry.
    apply bytes_eq_map_seqZ; [exact Hlen|].
    intros i Hi. symmetry. apply Hbuf. exact Hi.
  - destruct (Flush_view s1 Hwf) as (_ & _ & _ & Hf).
    symmetry. apply bytes_eq_map_seqZ; [exact Hlen|].
    intros i Hi. rewrite Hf by lia. symmetry. apply Hbuf. exact Hi.
Qed.


End CacheMemory.

Section CacheMoreRuns.

Import PageCacheClass.

Local Ltac wf_now :=
  split; [reflexivity | split; [vm_compute; discriminate|]];
  vm_compute; intuition (first [discriminate | reflexivity]).

Local Ltac arith_now :=
  first [ lia | vm_compute; lia | vm_compute; intuition discriminate ].

Local Ltac requests_ok :=
  repeat (apply Forall_cons; split); try apply Forall_nil;
  try exact I; unfold Request_ok; repeat split; first [lia | vm_compute; lia].

(** Five calls on the new object over the memory of zeroes. *)
Lemma serve_all_cache_wf_witness :
  let qs := [ReqSetData [x07] 1 1 None; ReqGetData 0 4; ReqFlush None;
             ReqSetData [x01; x02] 6 2 None; ReqClear] in
  let c := cache (snd (serve_all 4 qs power_on)) in
  length (m_Buffer c) = Z.to_nat 4 /\
  (m_Status c = Empty \/ m_Status c = Dirty) /\
  (m_Status c = Dirty -> 0 <= m_Address c < 2 ^ 32 /\ m_Address c mod 4 = 0).
Proof.
  exact (serve_all_cache_wf (Dev := Ram) 4 2 ltac:(lia) eq_refl
           [ReqSetData [x07] 1 1 None; ReqGetData 0 4; ReqFlush None;
            ReqSetData [x01; x02] 6 2 None; ReqClear]
           power_on ltac:(wf_now) ltac:(requests_ok)).
Defined.

(** A second byte written into the resident page 0. *)
Lemma SetData_resident_page_witness :
  SetData 4 [x09] 2 1 None one_byte_written =
    (Some true,
     {| cache := {| m_Address := 0; m_Status := Dirty;
                    m_Buffer := [x00; x07; x09; x00] |};
        dev := dev one_byte_written; log := log one_byte_written |}).
Proof.
  exact (SetData_resident_page (Dev := Ram) 4 None [x09] 2 1 one_byte_written
           eq_refl eq_refl ltac:(arith_now)).
Defined.

(** A dirty page 0 over the device that fails, and a byte for page 1. *)
Lemma SetData_eviction_fails_witness :
  let c := {| m_Address := 0; m_Status := Dirty; m_Buffer := [x00; x07; x00; x00] |} in
  SetData 4 [x09] 5 1 None {| cache := c; dev := broken; log := [] |} =
    (Some false,
     {| cache := c; dev := broken; log := [EvWrite [x00; x07; x00; x00] 0 4] |}).
Proof.
  exact (SetData_eviction_fails (Dev := Broken) 4 None [x09] 5 1
           {| cache := {| m_Address := 0; m_Status := Dirty;
                          m_Buffer := [x00; x07; x00; x00] |};
              dev := broken; log := [] |}
           eq_refl eq_refl eq_refl eq_refl).
Defined.


(** A write across three pages of four bytes. *)
Lemma requests_return_witness :
  match fst (serve 4 (ReqSetData [x01; x02; x03; x04; x05; x06] 3 6 None) power_on) with
  | RepSetData None | RepGetData None => False
  | _ => True
  end.
Proof.
  exact (requests_return (Dev := Ram) 4
           (ReqSetData [x01; x02; x03; x04; x05; x06] 3 6 None) power_on ltac:(lia)).
Defined.

(** Pages of 16 bytes, and the address 37 in the page at 32. *)
Lemma page_start_modulo_witness :
  page_start 16 37 = 37 - 37 mod 16 /\ page_start 16 37 = 32.
Proof.
  destruct (page_start_modulo 16 4 ltac:(lia) eq_refl (cache power_on) 37 ltac:(lia))
    as [Heq _].
  split; [exact Heq | reflexivity].
Defined.

(** Seven bytes across three pages, written and flushed. *)
Lemma SetData_Flush_durable_witness :
  let data := [x11; x12; x13; x14; x15; x16; x17] in
  let r := SetData 4 data 3 7 None one_byte_written in
  let f := Flush 4 None (snd r) in
  fst r = Some true /\ fst f = true /\
  m_Status (cache (snd f)) = Empty /\
  forall x, 0 <= x < 2 ^ 32 ->
    peek (dev (snd f)) x =
      if (3 <=? x) && (x <? 3 + 7) then byte_at data (x - 3)
      else view 4 (cache one_byte_written) (dev one_byte_written) x.
Proof.
  exact (SetData_Flush_durable (Dev := Ram) 4 2 ltac:(lia) eq_refl
           [x11; x12; x13; x14; x15; x16; x17] 3 7 one_byte_written
           ltac:(wf_now) ltac:(lia) ltac:(lia) ltac:(lia) ltac:(arith_now)
           ltac:(right; left; vm_compute; discriminate)).
Defined.

(** The whole of the resident page 0 written over the byte [07]. *)
Lemma SetData_resident_whole_page_witness :
  let r := SetData 4 [x01; x02; x03; x04] 0 4 None one_byte_written in
  let f := Flush 4 None (snd r) in
  fst r = Some true /\
  cache (snd r) = cache one_byte_written /\
  map (peek (dev (snd r))) (seqZ 0 4) = [x01; x02; x03; x04] /\
  fst (GetData 4 0 4 (snd r)) = Some (true, [x00; x07; x00; x00]) /\
  map (peek (dev (snd f))) (seqZ 0 4) = [x00; x07; x00; x00].
Proof.
  exact (SetData_resident_whole_page (Dev := Ram) 4 2 ltac:(lia) eq_refl
           [x01; x02; x03; x04] one_byte_written
           ltac:(wf_now) eq_refl ltac:(arith_now)).
Defined.


End CacheMoreRuns.

(** * More of the reader *)

Section ReaderEdges.

Import StorageReaderClass.

Context {Dev : Type} `{Device Dev}.

Variable d : Dev.

(** X19. The bound of [GetData] is tested on [len + offset] as an
    [unsigned int]: when the sum passes [2^32] it wraps, the test is made on
    [len + offset - 2^32], and a request that reaches far beyond the data is
    answered with true and that many bytes from the start of the header. *)
Theorem GetData_sum_wraps (this : Reader) (len offset : Z) :
  0 <= len < 2 ^ 32 -> 0 <= offset < 2 ^ 32 ->
  2 ^ 32 <= len + offset ->
  fst (getLength d (m_Address this)) = true ->
  len + offset - 2 ^ 32 <= snd (getLength d (m_Address this)) ->
  GetData d this len offset = Read (m_Address this) (len + offset - 2 ^ 32) d.
Proof.
  intros Hl Ho Hsum Hok Hle. unfold GetData.
  assert (Hw : wrap (len + offset) = len + offset - 2 ^ 32).
  { unfold wrap.
    replace (len + offset) with (len + offset - 2 ^ 32 + 1 * 2 ^ 32) at 1 by lia.
    rewrite Z.mod_add by lia. apply Z.mod_small. lia. }
  rewrite Hw.
  destruct (getLength d (m_Address this)) as [ok n]. simpl in Hok, Hle. subst ok.
  cbn [negb]. destruct (Z.gtb_spec (len + offset - 2 ^ 32) n); [lia | reflexivity].
Qed.

End ReaderEdges.

Section ReaderEdgeRuns.

Import StorageReaderClass.

(** Five bytes asked of the region of four. *)
Lemma GetData_out_of_bound_witness :
  GetData region_image {| m_Address := 0 |} 3 2 = (false, []).
Proof.
  exact (@GetData_out_of_bound Image Image_Device region_image {| m_Address := 0 |} 3 2
           ltac:(lia) ltac:(vm_compute; reflexivity)).
Defined.

(** [2^32 - 1] bytes asked from offset 2 of the region of four: the sum
    wraps to 1, and the first byte of the magic comes back. *)
Lemma GetData_sum_wraps_witness :
  GetData region_image {| m_Address := 0 |} (2 ^ 32 - 1) 2 = (true, [xb0]).
Proof.
  rewrite (@GetData_sum_wraps Image Image_Device region_image {| m_Address := 0 |}
             (2 ^ 32 - 1) 2 ltac:(lia) ltac:(lia) ltac:(lia) eq_refl
             ltac:(vm_compute; discriminate)).
  reflexivity.
Defined.

End ReaderEdgeRuns.


(** * Words of 32 bits, bit by bit *)

Lemma testbit_wrap (x n : Z) :
  0 <= n -> Z.testbit (wrap x) n = (n <? 32) && Z.testbit x n.
Proof.
  intros Hn. unfold wrap. destruct (Z.ltb_spec n 32); cbn [andb].
  - apply Z.mod_pow2_bits_low. lia.
  - apply Z.mod_pow2_bits_high. lia.
Qed.

Lemma testbit_uint32_high (x n : Z) :
  0 <= x < 2 ^ 32 -> 32 <= n -> Z.testbit x n = false.
Proof.
  intros Hx Hn. rewrite <- (Z.mod_small x (2 ^ 32)) by lia.
  apply Z.mod_pow2_bits_high. lia.
Qed.

Lemma uint32_of_bits (x : Z) :
  (forall n, 32 <= n -> Z.testbit x n = false) -> 0 <= x < 2 ^ 32.
Proof.
  intros Hhigh. assert (Hw : wrap x = x).
  { apply Z.bits_inj'. intros n Hn. rewrite testbit_wrap by lia.
    destruct (Z.ltb_spec n 32); cbn [andb]; [reflexivity|].
    symmetry. apply Hhigh. lia. }
  rewrite <- Hw. unfold wrap. apply Z.mod_pos_bound. lia.
Qed.

Lemma testbit_within (bits mask n : Z) :
  Z.land bits mask = bits -> Z.testbit bits n = true -> Z.testbit mask n = true.
Proof.
  intros Hin Hb. rewrite <- Hin, Z.land_spec in Hb.
  now apply andb_true_iff in Hb.
Qed.

(** * The state of a service *)

Section ServiceStateProperties.

Import ServiceState.

Local Ltac bitwise n Hn :=
  apply Z.bits_inj'; intros n Hn;
  rewrite ?Z.lor_spec, ?Z.land_spec, ?Z.lxor_spec, ?Z.ldiff_spec, ?Z.lor_spec,
    ?Z.land_spec, ?Z.lxor_spec, ?Z.ldiff_spec;
  rewrite ?testbit_wrap by lia; rewrite ?Z.lnot_spec by lia.

(** X20. A [SetState(stateBits, stateMask)] that is let through, with
    [stateBits] inside [stateMask]: [State] takes the bits of [stateBits]
    under the mask and keeps its own outside, and [ChangedState] gains
    exactly the bits of [State] that the call has changed. *)
Theorem SetState_records_changes (this : IServiceStateStruct)
    (stateBits stateMask : Z) (force : bool) :
  in_range this ->
  0 <= stateBits < 2 ^ 32 -> 0 <= stateMask < 2 ^ 32 ->
  Z.land stateBits stateMask = stateBits ->
  Enabled this = true \/ force = true ->
  let r := SetState stateBits stateMask force this in
  fst r = true /\
  Z.land (State (snd r)) stateMask = stateBits /\
  Z.ldiff (State (snd r)) stateMask = Z.ldiff (State this) stateMask /\
  ChangedState (snd r) =
    Z.lor (ChangedState this) (Z.lxor (State this) (State (snd r))) /\
  in_range (snd r).
Proof.
  intros (HS & HC & HL) Hb Hm Hin Hen. cbv zeta. unfold SetState.
  assert (Hgo : negb (Enabled this) && negb force = false)
    by (destruct Hen as [-> | ->]; [reflexivity | apply andb_false_r]).
  rewrite Hgo. cbn [fst snd State ChangedState LocalChangedState].
  pose proof (testbit_within stateBits stateMask) as Hw.
  split; [reflexivity|]. split; [|split; [|split]].
  - bitwise n Hn. specialize (Hw n Hin).
    destruct (Z.ltb_spec n 32);
      [| rewrite (testbit_uint32_high stateBits n), (testbit_uint32_high stateMask n)
           by lia; now rewrite andb_false_r ].
    destruct (Z.testbit stateBits n), (Z.testbit stateMask n),
      (Z.testbit (State this) n); try reflexivity; discriminate (Hw eq_refl).
  - bitwise n Hn. specialize (Hw n Hin).
    destruct (Z.ltb_spec n 32);
      [| rewrite (testbit_uint32_high stateBits n), (testbit_uint32_high (State this) n)
           by lia; reflexivity ].
    destruct (Z.testbit stateBits n), (Z.testbit stateMask n),
      (Z.testbit (State this) n); try reflexivity; discriminate (Hw eq_refl).
  - bitwise n Hn. specialize (Hw n Hin).
    destruct (Z.ltb_spec n 32);
      [| rewrite (testbit_uint32_high stateBits n), (testbit_uint32_high stateMask n),
           (testbit_uint32_high (State this) n) by lia; reflexivity ].
    destruct (Z.testbit stateBits n), (Z.testbit stateMask n),
      (Z.testbit (State this) n), (Z.testbit (ChangedState this) n);
      try reflexivity; discriminate (Hw eq_refl).
  - unfold in_range. cbn [State ChangedState LocalChangedState].
    split; [|split; [|exact HL]]; apply uint32_of_bits; intros n Hn;
      rewrite ?Z.lor_spec, ?Z.land_spec, ?Z.lxor_spec;
      rewrite ?(testbit_uint32_high stateBits n), ?(testbit_uint32_high stateMask n),
        ?(testbit_uint32_high (State this) n), ?(testbit_uint32_high (ChangedState this) n)
        by lia;
      rewrite ?andb_false_r; reflexivity.
Qed.

(** X21. A bit of [stateBits] outside [stateMask] that is clear in [State]
    is set by [SetState] all the same, and [ChangedState] does not record
    it: the mask guards what is cleared and what is recorded, not what is
    set. *)
Theorem SetState_outside_mask (this : IServiceStateStruct)
    (stateBits stateMask : Z) (force : bool) (n : Z) :
  0 <= n < 32 ->
  Enabled this = true \/ force = true ->
  Z.testbit stateBits n = true -> Z.testbit stateMask n = false ->
  Z.testbit (State this) n = false ->
  let r := SetState stateBits stateMask force this in
  fst r = true /\
  Z.testbit (State (snd r)) n = true /\
  Z.testbit (ChangedState (snd r)) n = Z.testbit (ChangedState this) n.
Proof.
  intros Hn Hen Hb Hm Hs. cbv zeta. unfold SetState.
  assert (Hgo : negb (Enabled this) && negb force = false)
    by (destruct Hen as [-> | ->]; [reflexivity | apply andb_false_r]).
  rewrite Hgo. cbn [fst snd State ChangedState].
  split; [reflexivity|].
  rewrite !Z.lor_spec, !Z.land_spec, Z.lxor_spec, Hb, Hm, Hs.
  split; [apply orb_true_r|]. now rewrite andb_false_r, orb_false_r.
Qed.

(** X22. A second [SetState] with the same arguments changes nothing: with
    [stateBits] inside [stateMask], the state after two calls is the state
    after one. *)
Theorem SetState_twice (this : IServiceStateStruct)
    (stateBits stateMask : Z) (force : bool) :
  0 <= stateBits < 2 ^ 32 -> 0 <= stateMask < 2 ^ 32 ->
  Z.land stateBits stateMask = stateBits ->
  let once := snd (SetState stateBits stateMask force this) in
  SetState stateBits stateMask force once = (fst (SetState stateBits stateMask force this), once).
Proof.
  intros Hb Hm Hin. cbv zeta. unfold SetState.
  destruct (negb (Enabled this) && negb force) eqn:Hgo; cbn [fst snd].
  - rewrite Hgo. reflexivity.
  - cbn [Enabled State ChangedState LocalChangedState]. rewrite Hgo.
    pose proof (testbit_within stateBits stateMask) as Hw.
    f_equal. f_equal.
    + bitwise n Hn. specialize (Hw n Hin).
      destruct (Z.ltb_spec n 32); cbn [andb];
        destruct (Z.testbit stateBits n), (Z.testbit stateMask n),
          (Z.testbit (State this) n); reflexivity.
    + bitwise n Hn. specialize (Hw n Hin).
      destruct (Z.ltb_spec n 32); cbn [andb];
        [| rewrite (testbit_uint32_high stateBits n), (testbit_uint32_high stateMask n)
             by lia ];
        destruct (Z.testbit stateBits n), (Z.testbit stateMask n),
          (Z.testbit (State this) n), (Z.testbit (ChangedState this) n);
        try reflexivity; discriminate (Hw eq_refl).
Qed.

End ServiceStateProperties.

(** * The table of services *)

Section ServicesProperties.

Import Services.

Variable table : list IServiceTableEntryStruct.

Lemma findIndex_from_None (entries : list IServiceTableEntryStruct) (i name : Z) :
  Forall (fun e => Name e <> name) entries ->
  findIndex_from i entries name = -1.
Proof.
  revert i. induction entries as [|e rest IH]; intros i Hall; simpl; [reflexivity|].
  apply Forall_cons in Hall as [He Hrest].
  destruct (Z.eqb_spec (Name e) name); [contradiction|]. now apply IH.
Qed.

Lemma findIndex_from_first (entries : list IServiceTableEntryStruct) (i name : Z)
    (j : nat) (e : IServiceTableEntryStruct) :
  entries !! j = Some e -> Name e = name ->
  (forall (j' : nat) (e' : IServiceTableEntryStruct),
     (j' < j)%nat -> entries !! j' = Some e' -> Name e' <> name) ->
  findIndex_from i entries name = i + Z.of_nat j.
Proof.
  revert i j. induction entries as [|e0 rest IH]; intros i j Hj He Hfirst;
    [discriminate|].
  destruct j as [|j]; simpl in Hj |- *.
  - injection Hj as ->. rewrite (proj2 (Z.eqb_eq _ _) He). lia.
  - destruct (Z.eqb_spec (Name e0) name) as [E|E].
    + exfalso. apply (Hfirst 0%nat e0); [lia | reflexivity | exact E].
    + rewrite (IH (i + 1) j Hj He); [lia|].
      intros j' e' Hlt Hj'. apply (Hfirst (S j') e'); [lia | exact Hj'].
Qed.

(** X23. [SetState(name, stateBits, stateMask)] acts on the state of the
    first entry of the table whose [Name] is the pointer [name], and on no
    other state: it returns what [SetState] of that state returns, without
    [force], so that it refuses a service that is not enabled and leaves the
    table of states as it was; [State(name)] then reads the state bits of
    that entry. *)
Theorem SetState_first_entry (states : list ServiceState.IServiceStateStruct)
    (name stateBits stateMask : Z) (j : nat) (e : IServiceTableEntryStruct) :
  table !! j = Some e -> Name e = name ->
  (forall (j' : nat) (e' : IServiceTableEntryStruct),
     (j' < j)%nat -> table !! j' = Some e' -> Name e' <> name) ->
  (j < length states)%nat ->
  let st := state_at states (Z.of_nat j) in
  let r := ServiceState.SetState stateBits stateMask false st in
  SetState table name stateBits stateMask states = (fst r, <[j := snd r]> states) /\
  State table name (<[j := snd r]> states)
    = (ServiceState.State (snd r), <[j := snd r]> states) /\
  (ServiceState.Enabled st = false ->
   SetState table name stateBits stateMask states = (false, states)).
Proof.
  intros Hj He Hfirst Hlen. cbv zeta.
  pose proof (findIndex_from_first table 0 name j e Hj He Hfirst) as Hi.
  rewrite Z.add_0_l in Hi.
  assert (Hst : states !! j = Some (state_at states (Z.of_nat j))).
  { unfold state_at. rewrite Nat2Z.id.
    destruct (states !! j) eqn:E; [reflexivity|].
    apply lookup_ge_None in E. lia. }
  unfold SetState, State, findIndex. rewrite Hi.
  destruct (Z.ltb_spec (Z.of_nat j) 0) as [Hneg|_]; [lia|].
  rewrite Nat2Z.id.
  destruct (ServiceState.SetState stateBits stateMask false
              (state_at states (Z.of_nat j))) as [r st'] eqn:Hr.
  cbn [fst snd]. split; [reflexivity|]. split.
  - unfold state_at at 1. rewrite Nat2Z.id, list_lookup_insert_eq by exact Hlen.
    reflexivity.
  - intros Hoff. unfold ServiceState.SetState in Hr. rewrite Hoff in Hr.
    cbn [negb andb] in Hr. injection Hr as <- <-.
    now rewrite list_insert_id.
Qed.

(** X24. A [name] that is the [Name] of no entry of the table: [findIndex]
    returns -1, [SetState] and [SetLocalState] return false and leave the
    table of states as it was, [State] returns 0 and [isEnabled] false. *)
Theorem unknown_service (states : list ServiceState.IServiceStateStruct)
    (name stateBits stateMask : Z) :
  Forall (fun e => Name e <> name) table ->
  findIndex table name = -1 /\
  SetState table name stateBits stateMask states = (false, states) /\
  SetLocalState table name stateBits states = (false, states) /\
  State table name states = (0, states) /\
  isEnabled table name states = (false, states).
Proof.
  intros Hall. pose proof (findIndex_from_None table 0 name Hall) as Hi.
  unfold SetState, SetLocalState, State, isEnabled, findIndex. rewrite Hi.
  repeat split.
Qed.

(** X25. After [Init] no service is enabled, and [SetState] and
    [SetLocalState] return false for every name and leave the table of
    states as [Init] has left it. *)
Theorem Init_then_SetState (states : list ServiceState.IServiceStateStruct)
    (name stateBits stateMask : Z) :
  let cleared := snd (Init states) in
  SetState table name stateBits stateMask cleared = (false, cleared) /\
  SetLocalState table name stateBits cleared = (false, cleared) /\
  isEnabled table name cleared = (false, cleared) /\
  State table name cleared = (0, cleared).
Proof.
  cbv zeta. unfold Init. cbn [snd].
  assert (Hz : forall i, state_at (map (fun _ => zero_state) states) i = zero_state).
  { intros i. unfold state_at. rewrite list_lookup_fmap.
    now destruct (states !! Z.to_nat i). }
  assert (Hid : forall i : nat,
            <[i := zero_state]> (map (fun _ => zero_state) states)
            = map (fun _ : ServiceState.IServiceStateStruct => zero_state) states).
  { intros i. destruct (decide (i < length states)%nat) as [Hlt|Hge].
    - apply list_insert_id. rewrite list_lookup_fmap.
      destruct (states !! i) eqn:E; [reflexivity|].
      apply lookup_ge_None in E. lia.
    - apply list_insert_ge. rewrite length_map. lia. }
  unfold SetState, SetLocalState, isEnabled, State.
  destruct (Z.ltb_spec (findIndex table name) 0) as [Hneg|Hpos].
  - destruct (Z.leb_spec 0 (findIndex table name)); [lia|]. repeat split.
  - destruct (Z.leb_spec 0 (findIndex table name)); [|lia].
    rewrite !Hz. cbn. rewrite Hid. repeat split.
Qed.

End ServicesProperties.

(** * The timers *)

Section TimerProperties.

Import Timer.

(** X26. A timer started at [SystemTime = now], when [now + interval] does
    not pass [2^32]: it is enabled with that interval, a pass of [Tick] at a
    time [t] from [now] on calls its callback exactly when [t] has reached
    [now + interval], and that pass sets the next time stamp to [interval]
    after [t]. *)
Theorem Start_then_Tick (interval now t : Z) (st : TimerStateStruct) (restart : bool) :
  0 <= now -> 0 <= interval -> now + interval < 2 ^ 32 ->
  restart = true \/ Enabled st = false ->
  now <= t < 2 ^ 32 ->
  exists st' : TimerStateStruct,
    Start interval (Some st) restart now = Some st' /\
    Interval st' = interval /\ isStarted st' = true /\
    snd (Tick_entry t t st') = (now + interval <=? t) /\
    (now + interval <= t ->
     fst (Tick_entry t t st') =
       {| Interval := interval; TimeStamp := wrap (t + interval); Enabled := true |}).
Proof.
  intros Hnow Hint Hsum Hgo Ht.
  assert (Hc : restart || negb (Enabled st) = true)
    by (destruct Hgo as [-> | ->]; [reflexivity | apply orb_true_r]).
  assert (Hw : wrap (now + interval) = now + interval)
    by (unfold wrap; apply Z.mod_small; lia).
  unfold Start. rewrite Hc, Hw. eexists. split; [reflexivity|].
  unfold Tick_entry, isStarted. cbn [Interval TimeStamp Enabled andb].
  split; [reflexivity|]. split; [reflexivity|].
  destruct (Z.leb_spec (now + interval) t); cbn [fst snd]; split;
    try reflexivity; intros; try reflexivity; lia.
Qed.

(** X27. A timer started when [now + interval] passes [2^32]: the time
    stamp wraps to [now + interval - 2^32], which is behind [now], and the
    pass of [Tick] at the time of the start calls the callback at once. *)
Theorem Start_near_wrap (interval now : Z) (st : TimerStateStruct) (restart : bool) :
  0 <= now < 2 ^ 32 -> 0 <= interval < 2 ^ 32 -> 2 ^ 32 <= now + interval ->
  restart = true \/ Enabled st = false ->
  exists st' : TimerStateStruct,
    Start interval (Some st) restart now = Some st' /\
    TimeStamp st' = now + interval - 2 ^ 32 /\
    TimeStamp st' < now /\
    snd (Tick_entry now now st') = true.
Proof.
  intros Hnow Hint Hsum Hgo.
  assert (Hc : restart || negb (Enabled st) = true)
    by (destruct Hgo as [-> | ->]; [reflexivity | apply orb_true_r]).
  assert (Hw : wrap (now + interval) = now + interval - 2 ^ 32).
  { unfold wrap.
    replace (now + interval) with (now + interval - 2 ^ 32 + 1 * 2 ^ 32) at 1 by lia.
    rewrite Z.mod_add by lia. apply Z.mod_small. lia. }
  unfold Start. rewrite Hc, Hw. eexists. split; [reflexivity|].
  unfold Tick_entry. cbn [Interval TimeStamp Enabled andb].
  split; [reflexivity|]. split; [lia|].
  destruct (Z.leb_spec (now + interval - 2 ^ 32) now); [reflexivity | lia].
Qed.

End TimerProperties.

(** * The codes of the pin configurations *)

Section GPIOProperties.

Import GPIO.

(** X28. The code that [GPIO_MAKE_PIN_CFG] packs is unpacked by the four
    [GPIO_GET_PIN_CFG_] macros into the fields it was made of, for a mode
    and a speed of two bits, an output type of one bit and a pull of two
    bits. *)
Theorem GPIO_PIN_CFG_round_trip (MODE OTYPE OSPEED PUPD : Z) :
  0 <= MODE < 4 -> 0 <= OTYPE < 2 -> 0 <= OSPEED < 4 -> 0 <= PUPD < 4 ->
  let VALUE := GPIO_MAKE_PIN_CFG MODE OTYPE OSPEED PUPD in
  GPIO_GET_PIN_CFG_MODE VALUE = MODE /\
  GPIO_GET_PIN_CFG_OTYPE VALUE = OTYPE /\
  GPIO_GET_PIN_CFG_OSPEED VALUE = OSPEED /\
  GPIO_GET_PIN_CFG_PUPD VALUE = PUPD /\
  GPIO_IS_ALTERNATE_MODE VALUE = (MODE =? 2) /\
  GPIO_IS_OUTPUT_MODE VALUE = (MODE =? 1).
Proof.
  intros HM HT HS HP. cbv zeta.
  assert (EM : MODE = 0 \/ MODE = 1 \/ MODE = 2 \/ MODE = 3) by lia.
  assert (ET : OTYPE = 0 \/ OTYPE = 1) by lia.
  assert (ES : OSPEED = 0 \/ OSPEED = 1 \/ OSPEED = 2 \/ OSPEED = 3) by lia.
  assert (EP : PUPD = 0 \/ PUPD = 1 \/ PUPD = 2 \/ PUPD = 3) by lia.
  clear HM HT HS HP.
  destruct EM as [-> | [-> | [-> | ->]]]; destruct ET as [-> | ->];
    destruct ES as [-> | [-> | [-> | ->]]]; destruct EP as [-> | [-> | [-> | ->]]];
    vm_compute; repeat split.
Qed.

Lemma testbit_3 (n : Z) : Z.testbit 3 n = (0 <=? n) && (n <? 2).
Proof.
  destruct (Z.leb_spec 0 n); cbn [andb]; [|apply Z.testbit_neg_r; lia].
  change 3 with (Z.ones 2). destruct (Z.ltb_spec n 2).
  - apply Z.ones_spec_low. lia.
  - apply Z.ones_spec_high. lia.
Qed.

Lemma testbit_2bits (x n : Z) : 0 <= x < 4 -> 2 <= n -> Z.testbit x n = false.
Proof.
  intros Hx Hn. rewrite <- (Z.mod_small x (2 ^ 2)) by lia.
  apply Z.mod_pow2_bits_high. lia.
Qed.

(** X29. [_GPIO_Set_Pull_State] writes back the register with the two bits
    of the pin replaced by [pupdy] and the bits of every other pin as they
    were read. *)
Theorem GPIO_Set_Pull_State_field (PUPDR pin pupdy : Z) :
  0 <= PUPDR < 2 ^ 32 -> 0 <= pin < 16 -> 0 <= pupdy < 4 ->
  let r := _GPIO_Set_Pull_State PUPDR pin pupdy in
  0 <= r < 2 ^ 32 /\
  pin_field r pin = pupdy /\
  forall p, 0 <= p < 16 -> p <> pin -> pin_field r p = pin_field PUPDR p.
Proof.
  intros HR Hpin Hpu. cbv zeta. unfold _GPIO_Set_Pull_State, pin_field. cbv zeta.
  assert (Hbit : forall m, 0 <= m ->
    Z.testbit (Z.lor (Z.land PUPDR (wrap (Z.lnot (wrap (Z.shiftl 3 (pin * 2))))))
                     (wrap (Z.shiftl pupdy (pin * 2)))) m =
      (m <? 32) &&
      (if (pin * 2 <=? m) && (m <? pin * 2 + 2) then Z.testbit pupdy (m - pin * 2)
       else Z.testbit PUPDR m)).
  { intros m Hm. rewrite Z.lor_spec, Z.land_spec, !testbit_wrap by lia.
    rewrite Z.lnot_spec, testbit_wrap by lia.
    rewrite !Z.shiftl_spec by lia. rewrite testbit_3.
    destruct (Z.ltb_spec m 32); cbn [andb negb];
      [| rewrite (testbit_uint32_high PUPDR m) by lia; reflexivity ].
    destruct (Z.leb_spec (pin * 2) m); destruct (Z.ltb_spec m (pin * 2 + 2));
      destruct (Z.leb_spec 0 (m - pin * 2)); destruct (Z.ltb_spec (m - pin * 2) 2);
      cbn [andb negb]; try lia;
      first [ rewrite (testbit_2bits pupdy (m - pin * 2)) by lia
            | rewrite (Z.testbit_neg_r pupdy) by lia
            | idtac ];
      rewrite ?andb_true_r, ?andb_false_r, ?orb_false_r; reflexivity. }
  split; [|split].
  - apply uint32_of_bits. intros n Hn. rewrite Hbit by lia.
    destruct (Z.ltb_spec n 32); [lia | reflexivity].
  - apply Z.bits_inj'. intros n Hn.
    rewrite Z.land_spec, Z.shiftr_spec, Hbit, testbit_3 by lia.
    destruct (Z.leb_spec 0 n); [|lia]. destruct (Z.ltb_spec n 2); cbn [andb].
    + destruct (Z.ltb_spec (n + pin * 2) 32); [|lia].
      destruct (Z.leb_spec (pin * 2) (n + pin * 2)); [|lia].
      destruct (Z.ltb_spec (n + pin * 2) (pin * 2 + 2)); [|lia].
      cbn [andb]. rewrite andb_true_r. f_equal. lia.
    + rewrite andb_false_r. symmetry. apply testbit_2bits; lia.
  - intros p Hp Hne. apply Z.bits_inj'. intros n Hn.
    rewrite !Z.land_spec, !Z.shiftr_spec, Hbit, testbit_3 by lia.
    destruct (Z.leb_spec 0 n); [|lia]. destruct (Z.ltb_spec n 2); cbn [andb];
      [|now rewrite !andb_false_r].
    rewrite !andb_true_r.
    destruct (Z.ltb_spec (n + p * 2) 32); [|lia].
    destruct (Z.leb_spec (pin * 2) (n + p * 2));
      destruct (Z.ltb_spec (n + p * 2) (pin * 2 + 2)); cbn [andb]; try reflexivity.
    lia.
Qed.

End GPIOProperties.

Section ServiceRuns.

(** An enabled service with the state bits [0101]: the bits [0010] are set
    under the mask [0110]. *)
Lemma SetState_records_changes_witness :
  let this := {| ServiceState.Enabled := true; ServiceState.State := 5;
                 ServiceState.ChangedState := 0; ServiceState.LocalChangedState := 0 |} in
  ServiceState.SetState 2 6 false this =
    (true, {| ServiceState.Enabled := true; ServiceState.State := 3;
              ServiceState.ChangedState := 6; ServiceState.LocalChangedState := 0 |}) /\
  ServiceState.ChangedState (snd (ServiceState.SetState 2 6 false this))
    = Z.lor 0 (Z.lxor 5 3).
Proof.
  cbv zeta.
  destruct (SetState_records_changes
              {| ServiceState.Enabled := true; ServiceState.State := 5;
                 ServiceState.ChangedState := 0; ServiceState.LocalChangedState := 0 |}
              2 6 false
              ltac:(unfold ServiceState.in_range; simpl; lia) ltac:(lia) ltac:(lia)
              eq_refl ltac:(left; reflexivity))
    as (_ & _ & _ & Hchanged & _).
  split; [reflexivity | exact Hchanged].
Defined.

(** The bit 3 set under the mask of the bit 0. *)
Lemma SetState_outside_mask_witness :
  let this := {| ServiceState.Enabled := true; ServiceState.State := 0;
                 ServiceState.ChangedState := 0; ServiceState.LocalChangedState := 0 |} in
  let r := ServiceState.SetState 8 1 false this in
  fst r = true /\
  Z.testbit (ServiceState.State (snd r)) 3 = true /\
  Z.testbit (ServiceState.ChangedState (snd r)) 3 = false.
Proof.
  exact (SetState_outside_mask
           {| ServiceState.Enabled := true; ServiceState.State := 0;
              ServiceState.ChangedState := 0; ServiceState.LocalChangedState := 0 |}
           8 1 false 3 ltac:(lia) ltac:(left; reflexivity) eq_refl eq_refl eq_refl).
Defined.

Lemma SetState_twice_witness :
  let this := {| ServiceState.Enabled := true; ServiceState.State := 5;
                 ServiceState.ChangedState := 0; ServiceState.LocalChangedState := 0 |} in
  let once := snd (ServiceState.SetState 2 6 false this) in
  ServiceState.SetState 2 6 false once = (true, once).
Proof.
  exact (SetState_twice
           {| ServiceState.Enabled := true; ServiceState.State := 5;
              ServiceState.ChangedState := 0; ServiceState.LocalChangedState := 0 |}
           2 6 false ltac:(lia) ltac:(lia) eq_refl).
Defined.

(** Three services, the names at the addresses 100, 200 and 100 again, and
    the second and third enabled: a call for the name 100 reaches the first
    entry, which is not enabled. *)
Lemma SetState_first_entry_witness :
  let table := [{| Services.Name := 100 |}; {| Services.Name := 200 |};
                {| Services.Name := 100 |}] in
  let on := {| ServiceState.Enabled := true; ServiceState.State := 0;
               ServiceState.ChangedState := 0; ServiceState.LocalChangedState := 0 |} in
  let states := [Services.zero_state; on; on] in
  Services.SetState table 100 1 1 states = (false, states) /\
  Services.SetState table 200 1 1 states =
    (true, [Services.zero_state;
            {| ServiceState.Enabled := true; ServiceState.State := 1;
               ServiceState.ChangedState := 1; ServiceState.LocalChangedState := 0 |};
            on]).
Proof.
  cbv zeta. split.
  - apply (SetState_first_entry
             [{| Services.Name := 100 |}; {| Services.Name := 200 |};
              {| Services.Name := 100 |}]
             [Services.zero_state;
              {| ServiceState.Enabled := true; ServiceState.State := 0;
                 ServiceState.ChangedState := 0; ServiceState.LocalChangedState := 0 |};
              {| ServiceState.Enabled := true; ServiceState.State := 0;
                 ServiceState.ChangedState := 0; ServiceState.LocalChangedState := 0 |}]
             100 1 1 0 {| Services.Name := 100 |} eq_refl eq_refl
             ltac:(intros j' e' Hlt; lia) ltac:(simpl; lia)).
    reflexivity.
  - reflexivity.
Defined.

Lemma unknown_service_witness :
  let table := [{| Services.Name := 100 |}; {| Services.Name := 200 |}] in
  let states := [Services.zero_state; Services.zero_state] in
  Services.findIndex table 300 = -1 /\
  Services.SetState table 300 1 1 states = (false, states) /\
  Services.SetLocalState table 300 1 states = (false, states) /\
  Services.State table 300 states = (0, states) /\
  Services.isEnabled table 300 states = (false, states).
Proof.
  exact (unknown_service
           [{| Services.Name := 100 |}; {| Services.Name := 200 |}]
           [Services.zero_state; Services.zero_state] 300 1 1
           ltac:(repeat (apply Forall_cons; split); try apply Forall_nil;
                 try exact I; simpl; lia)).
Defined.

(** A timer of 1000 ms started at the time 5000 and looked at 999 and 1000
    ms later. *)
Lemma Start_then_Tick_witness :
  let st := {| Timer.Interval := 0; Timer.TimeStamp := 0; Timer.Enabled := false |} in
  (exists st', Timer.Start 1000 (Some st) false 5000 = Some st' /\
               snd (Timer.Tick_entry 5999 5999 st') = false) /\
  (exists st', Timer.Start 1000 (Some st) false 5000 = Some st' /\
               Timer.Tick_entry 6000 6000 st' =
                 ({| Timer.Interval := 1000; Timer.TimeStamp := 7000;
                     Timer.Enabled := true |}, true)).
Proof.
  cbv zeta. split.
  - destruct (Start_then_Tick 1000 5000 5999
                {| Timer.Interval := 0; Timer.TimeStamp := 0; Timer.Enabled := false |}
                false ltac:(lia) ltac:(lia) ltac:(lia) ltac:(right; reflexivity)
                ltac:(lia)) as (st' & Hs & _ & _ & Ht & _).
    exists st'. split; [exact Hs | exact Ht].
  - destruct (Start_then_Tick 1000 5000 6000
                {| Timer.Interval := 0; Timer.TimeStamp := 0; Timer.Enabled := false |}
                false ltac:(lia) ltac:(lia) ltac:(lia) ltac:(right; reflexivity)
                ltac:(lia)) as (st' & Hs & _ & _ & _ & _).
    exists st'. split; [exact Hs|].
    injection Hs as <-. reflexivity.
Defined.

(** A timer of 1000 ms started 500 ms before the wrap of the time. *)
Lemma Start_near_wrap_witness :
  let st := {| Timer.Interval := 0; Timer.TimeStamp := 0; Timer.Enabled := false |} in
  exists st', Timer.Start 1000 (Some st) false (2 ^ 32 - 500) = Some st' /\
              Timer.TimeStamp st' = 2 ^ 32 - 500 + 1000 - 2 ^ 32 /\
              snd (Timer.Tick_entry (2 ^ 32 - 500) (2 ^ 32 - 500) st') = true.
Proof.
  cbv zeta.
  destruct (Start_near_wrap 1000 (2 ^ 32 - 500)
              {| Timer.Interval := 0; Timer.TimeStamp := 0; Timer.Enabled := false |}
              false ltac:(lia) ltac:(lia) ltac:(lia) ltac:(right; reflexivity))
    as (st' & Hs & Hstamp & _ & Ht).
  exists st'. split; [exact Hs|]. split; [exact Hstamp | exact Ht].
Defined.

(** [AF_OD_PU_Medium]: alternate function, open drain, medium speed, pull
    up. *)
Lemma GPIO_PIN_CFG_round_trip_witness :
  let VALUE := GPIO.GPIO_MAKE_PIN_CFG 2 1 2 1 in
  VALUE = 89 /\
  GPIO.GPIO_GET_PIN_CFG_MODE VALUE = 2 /\
  GPIO.GPIO_GET_PIN_CFG_OTYPE VALUE = 1 /\
  GPIO.GPIO_GET_PIN_CFG_OSPEED VALUE = 2 /\
  GPIO.GPIO_GET_PIN_CFG_PUPD VALUE = 1 /\
  GPIO.GPIO_IS_ALTERNATE_MODE VALUE = true /\
  GPIO.GPIO_IS_OUTPUT_MODE VALUE = false.
Proof.
  cbv zeta. split; [reflexivity|].
  exact (GPIO_PIN_CFG_round_trip 2 1 2 1 ltac:(lia) ltac:(lia) ltac:(lia) ltac:(lia)).
Defined.

(** Pull down for the pin 5 in a register with pull up for the pins 5
    and 6. *)
Lemma GPIO_Set_Pull_State_field_witness :
  let r := GPIO._GPIO_Set_Pull_State 5120 5 2 in
  r = 6144 /\ GPIO.pin_field r 5 = 2 /\ GPIO.pin_field r 6 = GPIO.pin_field 5120 6.
Proof.
  cbv zeta.
  destruct (GPIO_Set_Pull_State_field 5120 5 2 ltac:(lia) ltac:(lia) ltac:(lia))
    as (_ & Hpin & Hother).
  split; [reflexivity|]. split; [exact Hpin|].
  apply Hother; lia.
Defined.

End ServiceRuns.
